(** * RatOS init: service registry and process supervisor

    A shallow embedding of the service supervisor of [ratos-init.c]
    (the file with the [services] table, [parse_service_file],
    [start_service], [stop_service], [handle_reaped] and [main]) and the
    properties of its natural-language specification.

    C strings are lists of characters without the terminating NUL, the
    [services] table is a list whose length is [nservices], and the calls
    into the kernel are threaded through an explicit process state that
    carries the children of the process, an oracle for what the
    environment does next, and the trace of the calls made so far. *)

From Stdlib Require Import ZArith Ascii String Lia.
From stdpp Require Import base list.

Open Scope Z_scope.

(** ** C strings *)

Definition cstring := list ascii.

Definition lit (s : string) : cstring := list_ascii_of_string s.
#[global] Arguments lit : simpl never.

Definition NUL : ascii := "000"%char.
Definition LF : ascii := "010"%char.
Definition CR : ascii := "013"%char.
Definition TAB : ascii := "009"%char.
Definition SPACE : ascii := " "%char.

Definition code (c : ascii) : Z := Z.of_N (N_of_ascii c).

(** The bytes of a buffer that the C string functions see: everything
    before the first NUL. *)
Fixpoint cstr (buf : list ascii) : cstring :=
  match buf with
  | [] => []
  | c :: rest => if Ascii.eqb c NUL then [] else c :: cstr rest
  end.

(** [tolower] in the C locale. *)
Definition tolower (c : ascii) : ascii :=
  if (65 <=? code c) && (code c <=? 90)
  then ascii_of_N (N_of_ascii c + 32)
  else c.

(** [strcasecmp]: the difference of the first pair of characters that
    differ after lower-casing, 0 when there is none. *)
Fixpoint strcasecmp (a b : cstring) : Z :=
  match a, b with
  | [], [] => 0
  | [], d :: _ => 0 - code (tolower d)
  | c :: _, [] => code (tolower c)
  | c :: a', d :: b' =>
      if Ascii.eqb (tolower c) (tolower d) then strcasecmp a' b'
      else code (tolower c) - code (tolower d)
  end.

(** [strchr(line, c)] and the zero stored at the place found: the text
    before the first [c] and the text after it. *)
Fixpoint strchr_split (c : ascii) (s : cstring) : option (cstring * cstring) :=
  match s with
  | [] => None
  | d :: rest =>
      if Ascii.eqb d c then Some ([], rest)
      else match strchr_split c rest with
           | Some (k, v) => Some (d :: k, v)
           | None => None
           end
  end.

(** [strncpy(dst, src, n)] into a buffer of more than [n] bytes whose
    byte [n] is zero: the string left in [dst] is the first [n]
    characters of [src] (shorter sources are padded with zeros, so
    nothing of the earlier content survives). *)
Definition strncpy (n : nat) (src : cstring) : cstring := take n src.
#[global] Arguments strncpy : simpl never.

(** [strdup(s)]: a pointer to a copy of [s]. The heap of the model does
    not run out, so the pointer is never NULL. *)
Definition strdup (s : cstring) : option cstring := Some s.

(** [snprintf(dst, size, ...)] keeps at most [size - 1] characters. *)
Definition snprintf (size : nat) (formatted : cstring) : cstring :=
  take (size - 1) formatted.
#[global] Arguments snprintf : simpl never.

(** *** [trim] *)

Definition is_blank (c : ascii) : bool :=
  Ascii.eqb c SPACE || Ascii.eqb c TAB.

Definition is_trailing (c : ascii) : bool :=
  Ascii.eqb c LF || Ascii.eqb c CR || Ascii.eqb c SPACE || Ascii.eqb c TAB.

(** The first loop of [trim]: step over leading spaces and tabs. *)
Fixpoint skip_blank (s : cstring) : cstring :=
  match s with
  | c :: rest => if is_blank c then skip_blank rest else s
  | [] => []
  end.

(** The second loop of [trim]: move [end] back over trailing newlines,
    carriage returns, spaces and tabs, and end the string there. *)
Fixpoint cut_trailing (s : cstring) : cstring :=
  match s with
  | [] => []
  | c :: rest =>
      match cut_trailing rest with
      | [] => if is_trailing c then [] else [c]
      | kept => c :: kept
      end
  end.

Definition trim (s : cstring) : cstring := cut_trailing (skip_blank s).

(** ** The service table *)

Definition MAX_SVC : nat := 128.
Definition MAX_LINE : nat := 1024.
Definition LOGDIR : cstring := lit "/var/log".

Inductive restart_t := R_NO | R_ON_FAILURE | R_ALWAYS.

Record service := {
  name : cstring;              (* char name[128] *)
  execcmd : option cstring;    (* char *execcmd, NULL is None *)
  restart : restart_t;
  pid : Z;
  running : bool;
  logfile : cstring;           (* char logfile[256] *)
}.

#[global] Instance restart_t_eq_dec : EqDecision restart_t.
Proof. solve_decision. Defined.

(** ** Reading a service file *)

(** [fgets(line, size, f)] on the unread rest of the file: at most
    [size - 1] characters, stopping after a newline; NULL at end of
    file. *)
Fixpoint fgets_chars (room : nat) (f : list ascii) : list ascii * list ascii :=
  match room, f with
  | S k, c :: rest =>
      if Ascii.eqb c LF then ([c], rest)
      else let '(l, r) := fgets_chars k rest in (c :: l, r)
  | _, _ => ([], f)
  end.

Definition fgets (size : nat) (f : list ascii) : option (list ascii * list ascii) :=
  match f with
  | [] => None
  | _ => Some (fgets_chars (size - 1) f)
  end.

(** The three local buffers of [parse_service_file]. *)
Record bufs := {
  b_name : cstring;      (* char name[128] = "" *)
  b_exec : cstring;      (* char exec[MAX_LINE] = "" *)
  b_restart : cstring;   (* char restart[MAX_LINE] = "no" *)
}.

Definition bufs_init : bufs :=
  {| b_name := []; b_exec := []; b_restart := lit "no" |}.

Definition key_is (key : cstring) (lower mixed : string) : bool :=
  (strcasecmp key (lit lower) =? 0) || (strcasecmp key (lit mixed) =? 0).

(** The body of the [while (fgets(...))] loop. *)
Definition parse_line (line : list ascii) (b : bufs) : bufs :=
  match strchr_split "="%char (cstr line) with
  | None => b
  | Some (k, v) =>
      let key := trim k in
      let val := trim v in
      if key_is key "name" "Name" then
        {| b_name := strncpy (128 - 1) val; b_exec := b_exec b; b_restart := b_restart b |}
      else if key_is key "execstart" "ExecStart" then
        {| b_name := b_name b; b_exec := strncpy (MAX_LINE - 1) val; b_restart := b_restart b |}
      else if key_is key "restart" "Restart" then
        {| b_name := b_name b; b_exec := b_exec b; b_restart := strncpy (MAX_LINE - 1) val |}
      else b
  end.

(** The loop itself; every [fgets] that succeeds consumes at least one
    character, so [length f] rounds of fuel reach the end of the file. *)
Fixpoint parse_loop (fuel : nat) (f : list ascii) (b : bufs) : bufs :=
  match fuel with
  | O => b
  | S k =>
      match fgets MAX_LINE f with
      | None => b
      | Some (line, f') => parse_loop k f' (parse_line line b)
      end
  end.

Definition parse_bufs (f : list ascii) : bufs :=
  parse_loop (length f) f bufs_init.

Definition restart_of (r : cstring) : restart_t :=
  if strcasecmp r (lit "always") =? 0 then R_ALWAYS
  else if strcasecmp r (lit "on-failure") =? 0 then R_ON_FAILURE
  else R_NO.

(** The entry written at [services[nservices]] (lines 90-97). *)
Definition make_service (b : bufs) : service :=
  let n := strncpy (128 - 1) (b_name b) in
  {| name := n;
     execcmd := strdup (b_exec b);
     restart := restart_of (b_restart b);
     pid := 0;
     running := false;
     logfile := snprintf 256 (LOGDIR ++ lit "/" ++ n ++ lit ".log") |}.

(** [parse_service_file(path)]: [file] is what [fopen(path, "r")] gives,
    [None] when it fails; [svcs] is the table, [nservices] its length. *)
Definition parse_service_file (file : option (list ascii)) (svcs : list service)
  : list service :=
  match file with
  | None => svcs
  | Some f =>
      let b := parse_bufs f in
      if bool_decide (b_name b = []) || bool_decide (b_exec b = []) then svcs
      else if bool_decide (MAX_SVC ≤ length svcs)%nat then svcs
      else svcs ++ [make_service b]
  end.

(** A directory entry as [load_services] sees it. *)
Record dirent := {
  d_is_dir : bool;                   (* d_type == DT_DIR *)
  d_name : cstring;
  d_file : option (list ascii);      (* what fopen of the entry's path yields *)
}.

Definition starts_with_dot (n : cstring) : bool :=
  match n with
  | c :: _ => Ascii.eqb c "."%char
  | [] => false
  end.

(** [load_services]: [dir] is the sequence of entries [readdir] returns,
    [None] when [opendir] fails. *)
Fixpoint readdir_loop (entries : list dirent) (svcs : list service) : list service :=
  match entries with
  | [] => svcs
  | e :: rest =>
      if d_is_dir e then readdir_loop rest svcs
      else if starts_with_dot (d_name e) then readdir_loop rest svcs
      else readdir_loop rest (parse_service_file (d_file e) svcs)
  end.

Definition load_services (dir : option (list dirent)) (svcs : list service)
  : list service :=
  match dir with
  | None => svcs
  | Some entries => readdir_loop entries svcs
  end.

(** *** The file as the loop sees it

    The lines successive calls of [fgets] return, and what one line
    assigns. Both restate the loop above in pieces; the lemmas
    [parse_bufs_lines] and [parse_line_assign] connect them to it. *)

Fixpoint read_lines (fuel : nat) (f : list ascii) : list (list ascii) :=
  match fuel with
  | O => []
  | S k =>
      match fgets MAX_LINE f with
      | None => []
      | Some (line, f') => line :: read_lines k f'
      end
  end.

Definition file_lines (f : list ascii) : list (list ascii) :=
  read_lines (length f) f.

Inductive key := KName | KExecStart | KRestart.

#[global] Instance key_eq_dec : EqDecision key.
Proof. solve_decision. Defined.

Definition line_assign (line : list ascii) : option (key * cstring) :=
  match strchr_split "="%char (cstr line) with
  | None => None
  | Some (k, v) =>
      if key_is (trim k) "name" "Name" then Some (KName, trim v)
      else if key_is (trim k) "execstart" "ExecStart" then Some (KExecStart, trim v)
      else if key_is (trim k) "restart" "Restart" then Some (KRestart, trim v)
      else None
  end.

Definition assigns (k : key) (line : list ascii) : bool :=
  match line_assign line with
  | Some (k', _) => bool_decide (k' = k)
  | None => false
  end.

(** The text after the first equals sign of a line that assigns [k], as
    the line has it, before any trimming. *)
Definition raw_assign (k : key) (line : list ascii) : option cstring :=
  match strchr_split "="%char (cstr line) with
  | Some (_, v) => if assigns k line then Some v else None
  | None => None
  end.

(** The text a file gives a key: that of the last line that assigns it. *)
Definition raw_value (k : key) (f : list ascii) : option cstring :=
  last (omap (raw_assign k) (file_lines f)).

(** Something is left of a text when spaces, tabs, carriage returns and
    newlines are taken away. *)
Definition has_text (v : cstring) : bool :=
  existsb (fun c => negb (is_trailing c)) v.

(** The file gives the key a value that is not empty after trimming. *)
Definition has_value (k : key) (f : list ascii) : bool :=
  match raw_value k f with
  | Some v => has_text v
  | None => false
  end.

(** The entry a directory entry would add to a table with room. *)
Definition service_of_file (f : list ascii) : option service :=
  let b := parse_bufs f in
  if bool_decide (b_name b = []) || bool_decide (b_exec b = []) then None
  else Some (make_service b).

Definition service_of_dirent (e : dirent) : option service :=
  if d_is_dir e then None
  else if starts_with_dot (d_name e) then None
  else match d_file e with
       | None => None
       | Some f => service_of_file f
       end.

(** The valid definitions of a directory, in the order of enumeration. *)
Definition valid_services (entries : list dirent) : list service :=
  omap service_of_dirent entries.

(** Equality up to the case of ASCII letters. *)
Definition same_word (a : cstring) (w : string) : Prop :=
  tolower <$> a = tolower <$> lit w.

(** ** Wait statuses

    The macros of [<sys/wait.h>] as glibc defines them, on the [int]
    that [waitpid] stores. *)

Definition WTERMSIG (status : Z) : Z := Z.land status 127.
Definition WEXITSTATUS (status : Z) : Z := Z.shiftr (Z.land status 65280) 8.
Definition WIFEXITED (status : Z) : bool := WTERMSIG status =? 0.
Definition signed_char (x : Z) : Z :=
  let b := Z.land x 255 in if 128 <=? b then b - 256 else b.
Definition WIFSIGNALED (status : Z) : bool :=
  0 <? Z.shiftr (signed_char (Z.land status 127 + 1)) 1.

(** ** The process and its environment *)

Inductive signal := SIGTERM | SIGKILL.

Inductive log_msg :=
  | Msg_started (n : cstring) (p : Z)
  | Msg_stopped (n : cstring) (p : Z)
  | Msg_exited (n : cstring) (p status : Z)
  | Msg_shutting_down.

(** Entries of the three supervisor functions, recorded in the trace
    next to the system calls they make. *)
Inductive call :=
  | Call_start (i : nat)
  | Call_stop (i : nat)
  | Call_handle_reaped (p status : Z).

Inductive event :=
  | EvCall (c : call)
  | EvKill (target : Z) (sig : signal)
  | EvWaitpid (p ret : Z)
  | EvUsleep (usec : Z)
  | EvSleep (sec : Z)
  | EvFork (ret : Z)
  | EvPrintf (m : log_msg)
  | EvPerror (what : cstring)
  | EvOpen (path : cstring) (fd : Z)
  | EvDup2 (fd newfd : Z)
  | EvClose (fd : Z)
  | EvSetsid
  | EvExecl (path : cstring) (argv : list cstring) (ok : bool)
  | EvExit (status : Z)
  | EvSync
  | EvAccess (path : cstring) (ret : Z).

(** What happens while the process is blocked in one [sleep] or
    [usleep]: children that terminate, with their wait status, and
    whether SIGTERM or SIGINT arrives. *)
Record tick := {
  t_deaths : list (Z * Z);
  t_term : bool;
}.

Record state := {
  services : list service;       (* services[0 .. nservices-1] *)
  need_reap : bool;
  terminate : bool;
  (* the kernel's view of this process *)
  zombies : list (Z * Z);        (* terminated children not yet waited for *)
  alive : list Z;                (* children still executing *)
  (* the environment's choices *)
  forks : list Z;                (* what the next calls of fork return *)
  sched : list tick;             (* what the next sleeps bring *)
  open_fd : cstring -> Z;        (* descriptor from open, negative on failure *)
  exec_ok : cstring -> bool;     (* whether execl of the path succeeds *)
  access_x : cstring -> bool;    (* whether access(path, X_OK) is 0 *)
  (* calls made so far, oldest first *)
  trace : list event;
}.

Definition nservices (σ : state) : nat := length (services σ).

Definition set_services (v : list service) (σ : state) : state :=
  {| services := v; need_reap := need_reap σ; terminate := terminate σ;
     zombies := zombies σ; alive := alive σ; forks := forks σ;
     sched := sched σ; open_fd := open_fd σ; exec_ok := exec_ok σ;
     access_x := access_x σ; trace := trace σ |}.

Definition set_need_reap (v : bool) (σ : state) : state :=
  {| services := services σ; need_reap := v; terminate := terminate σ;
     zombies := zombies σ; alive := alive σ; forks := forks σ;
     sched := sched σ; open_fd := open_fd σ; exec_ok := exec_ok σ;
     access_x := access_x σ; trace := trace σ |}.

Definition set_terminate (v : bool) (σ : state) : state :=
  {| services := services σ; need_reap := need_reap σ; terminate := v;
     zombies := zombies σ; alive := alive σ; forks := forks σ;
     sched := sched σ; open_fd := open_fd σ; exec_ok := exec_ok σ;
     access_x := access_x σ; trace := trace σ |}.

Definition set_children (z : list (Z * Z)) (a : list Z) (σ : state) : state :=
  {| services := services σ; need_reap := need_reap σ; terminate := terminate σ;
     zombies := z; alive := a; forks := forks σ;
     sched := sched σ; open_fd := open_fd σ; exec_ok := exec_ok σ;
     access_x := access_x σ; trace := trace σ |}.

Definition set_forks (v : list Z) (σ : state) : state :=
  {| services := services σ; need_reap := need_reap σ; terminate := terminate σ;
     zombies := zombies σ; alive := alive σ; forks := v;
     sched := sched σ; open_fd := open_fd σ; exec_ok := exec_ok σ;
     access_x := access_x σ; trace := trace σ |}.

Definition set_sched (v : list tick) (σ : state) : state :=
  {| services := services σ; need_reap := need_reap σ; terminate := terminate σ;
     zombies := zombies σ; alive := alive σ; forks := forks σ;
     sched := v; open_fd := open_fd σ; exec_ok := exec_ok σ;
     access_x := access_x σ; trace := trace σ |}.

Definition log (e : event) (σ : state) : state :=
  {| services := services σ; need_reap := need_reap σ; terminate := terminate σ;
     zombies := zombies σ; alive := alive σ; forks := forks σ;
     sched := sched σ; open_fd := open_fd σ; exec_ok := exec_ok σ;
     access_x := access_x σ; trace := trace σ ++ [e] |}.

(** *** Signal handlers *)

Definition sigchld_handler (σ : state) : state := set_need_reap true σ.
Definition sigterm_handler (σ : state) : state := set_terminate true σ.

(** *** How a run of C code ends

    A function either returns to its caller, or the process is gone
    ([_exit], or [execl] that succeeded); a loop whose length depends on
    the environment may also run out of the fuel it was given. *)

Inductive halt :=
  | Exited (status : Z)
  | Execed (path : cstring) (argv : list cstring).

Inductive outcome (A : Type) :=
  | Ok (a : A) (σ : state)
  | Halt (h : halt) (σ : state)
  | OutOfFuel (σ : state).
Arguments Ok {A} a σ.
Arguments Halt {A} h σ.
Arguments OutOfFuel {A} σ.

Definition M (A : Type) : Type := state -> outcome A.

#[global] Instance M_ret : MRet M := fun A (a : A) σ => Ok a σ.

#[global] Instance M_bind : MBind M := fun A B (k : A -> M B) (m : M A) σ =>
  match m σ with
  | Ok a σ' => k a σ'
  | Halt h σ' => Halt h σ'
  | OutOfFuel σ' => OutOfFuel σ'
  end.

Definition ret {A} (a : A) : M A := mret a.

Definition get : M state := fun σ => Ok σ σ.
Definition modify (f : state -> state) : M unit := fun σ => Ok tt (f σ).
Definition emit (e : event) : M unit := modify (log e).
Definition when (b : bool) (m : M unit) : M unit := if b then m else ret tt.

Definition final_state {A} (o : outcome A) : state :=
  match o with
  | Ok _ σ => σ
  | Halt _ σ => σ
  | OutOfFuel σ => σ
  end.

(** *** The kernel *)

(** One child terminates: it leaves [alive], joins [zombies], and the
    process receives SIGCHLD. A pid that is not a live child is nobody's
    business here. *)
Definition child_dies (d : Z * Z) (σ : state) : state :=
  if bool_decide (d.1 ∈ alive σ)
  then sigchld_handler
         (set_children (zombies σ ++ [d])
                       (filter (fun q => q ≠ d.1) (alive σ)) σ)
  else σ.

Definition deliver (t : tick) (σ : state) : state :=
  let σ' := foldl (fun s d => child_dies d s) σ (t_deaths t) in
  if t_term t then sigterm_handler σ' else σ'.

(** The process is blocked once; the schedule says what happens. *)
Definition blocked (σ : state) : state :=
  match sched σ with
  | [] => σ
  | t :: rest => deliver t (set_sched rest σ)
  end.

Definition sys_sleep (sec : Z) : M unit :=
  emit (EvSleep sec);; modify blocked.

Definition sys_usleep (usec : Z) : M unit :=
  emit (EvUsleep usec);; modify blocked.

Definition sys_kill (target : Z) (sig : signal) : M unit :=
  emit (EvKill target sig).

(** The first zombie with pid [p], and the zombies that stay. *)
Fixpoint take_zombie (p : Z) (zs : list (Z * Z)) : option (Z * list (Z * Z)) :=
  match zs with
  | [] => None
  | (q, st) :: rest =>
      if q =? p then Some (st, rest)
      else match take_zombie p rest with
           | Some (st', rest') => Some (st', (q, st) :: rest')
           | None => None
           end
  end.

(** [waitpid(p, &status, WNOHANG)] for [p = -1] (any child) and for
    [p > 0] (that child): the pid and status of a terminated child, which
    is thereby released; 0 when such children exist but none has
    terminated; -1 when there is no such child. The supervisor passes
    nothing else: the pid of an entry comes from a [fork] that returned
    a positive number. *)
Definition waitpid_nohang (p : Z) (σ : state) : Z * Z * state :=
  if p =? -1 then
    match zombies σ with
    | (q, st) :: rest => (q, st, set_children rest (alive σ) σ)
    | [] => match alive σ with
            | [] => (-1, 0, σ)
            | _ => (0, 0, σ)
            end
    end
  else
    match take_zombie p (zombies σ) with
    | Some (st, rest) => (p, st, set_children rest (alive σ) σ)
    | None => if bool_decide (p ∈ alive σ) then (0, 0, σ) else (-1, 0, σ)
    end.

Definition sys_waitpid (p : Z) : M (Z * Z) :=
  fun σ =>
    let '(r, st, σ') := waitpid_nohang p σ in
    Ok (r, st) (log (EvWaitpid p r) σ').

(** [fork]: the oracle gives the return value. A positive value is the
    pid of a new child of this process; 0 means the run continues in the
    new child, which has no children of its own; a negative value is a
    failure, as is an exhausted oracle. *)
Definition sys_fork : M Z :=
  fun σ =>
    match forks σ with
    | [] => Ok (-1) (log (EvFork (-1)) σ)
    | r :: rest =>
        let σ1 := set_forks rest σ in
        let σ2 :=
          if 0 <? r then set_children (zombies σ1) (alive σ1 ++ [r]) σ1
          else if r =? 0 then set_children [] [] σ1
          else σ1 in
        Ok r (log (EvFork r) σ2)
    end.

Definition sys_open (path : cstring) : M Z :=
  σ ← get; let fd := open_fd σ path in emit (EvOpen path fd);; ret fd.

(** [execl]: does not return when it succeeds. *)
Definition sys_execl (path : cstring) (argv : list cstring) : M unit :=
  fun σ =>
    if exec_ok σ path
    then Halt (Execed path argv) (log (EvExecl path argv true) σ)
    else Ok tt (log (EvExecl path argv false) σ).

Definition sys_exit {A} (status : Z) : M A :=
  fun σ => Halt (Exited status) (log (EvExit status) σ).

Definition sys_access (path : cstring) : M Z :=
  σ ← get;
  let r := if access_x σ path then 0 else -1 in
  emit (EvAccess path r);; ret r.

(** ** The supervisor *)

Definition with_runtime (s : service) (p : Z) (r : bool) : service :=
  {| name := name s; execcmd := execcmd s; restart := restart s;
     pid := p; running := r; logfile := logfile s |}.

(** A store through the pointer [&services[i]]. *)
Definition set_entry (i : nat) (s : service) : M unit :=
  modify (fun σ => set_services (<[i := s]> (services σ)) σ).

(** [start_service(&services[i])]. *)
Definition start_service (i : nat) : M unit :=
  emit (EvCall (Call_start i));;
  σ ← get;
  match services σ !! i with
  | None => ret tt
  | Some s =>
      match execcmd s with
      | None => ret tt
      | Some cmd =>
          r ← sys_fork;
          if r <? 0 then
            emit (EvPerror (lit "fork"))
          else if r =? 0 then
            (* child *)
            fdnull ← sys_open (lit "/dev/null");
            when (0 <=? fdnull)
              (emit (EvDup2 fdnull 0);; emit (EvClose fdnull));;
            fdlog ← sys_open (logfile s);
            when (0 <=? fdlog)
              (emit (EvDup2 fdlog 1);; emit (EvDup2 fdlog 2);;
               when (2 <? fdlog) (emit (EvClose fdlog)));;
            emit EvSetsid;;
            sys_execl (lit "/bin/sh") [lit "sh"; lit "-c"; cmd];;
            emit (EvPerror (lit "execl"));;
            sys_exit 127
          else
            set_entry i (with_runtime s r true);;
            emit (EvPrintf (Msg_started (name s) r))
      end
  end.

(** The [for (i=0;i<50;i++)] loop of [stop_service], [n] rounds left. *)
Fixpoint poll_exit (n : nat) (p : Z) : M unit :=
  match n with
  | O => ret tt
  | S k =>
      w ← sys_waitpid p;
      if w.1 =? p then ret tt
      else sys_usleep 100000;; poll_exit k p
  end.

(** [stop_service(&services[i])]. *)
Definition stop_service (i : nat) : M unit :=
  emit (EvCall (Call_stop i));;
  σ ← get;
  match services σ !! i with
  | None => ret tt
  | Some s =>
      if negb (running s) then ret tt
      else
        sys_kill (- pid s) SIGTERM;;
        poll_exit 50 (pid s);;
        w ← sys_waitpid (pid s);
        when (negb (w.1 =? pid s)) (sys_kill (- pid s) SIGKILL);;
        set_entry i (with_runtime s (pid s) false);;
        emit (EvPrintf (Msg_stopped (name s) (pid s)))
  end.

(** The scan of [handle_reaped]: the first entry from index [i] on that
    is running with pid [p]. *)
Fixpoint find_running (p : Z) (i : nat) (l : list service) : option (nat * service) :=
  match l with
  | [] => None
  | s :: rest =>
      if running s && (pid s =? p) then Some (i, s)
      else find_running p (S i) rest
  end.

Definition exitcode_of (status : Z) : Z :=
  if WIFEXITED status then WEXITSTATUS status else -1.

Definition wants_restart (r : restart_t) (exitcode : Z) : bool :=
  bool_decide (r = R_ALWAYS)
  || (bool_decide (r = R_ON_FAILURE) && negb (exitcode =? 0)).

(** [handle_reaped(pid, status)]. *)
Definition handle_reaped (p status : Z) : M unit :=
  emit (EvCall (Call_handle_reaped p status));;
  σ ← get;
  match find_running p 0 (services σ) with
  | None => ret tt
  | Some (i, s) =>
      set_entry i (with_runtime s (pid s) false);;
      emit (EvPrintf (Msg_exited (name s) p status));;
      when (wants_restart (restart s) (exitcode_of status))
        (sys_sleep 1;; start_service i)
  end.

(** A [for (int i = ...; ...; i++)] loop over [count] consecutive
    indices from [i]. *)
Fixpoint for_range (i count : nat) (body : nat -> M unit) : M unit :=
  match count with
  | O => ret tt
  | S k => body i;; for_range (S i) k body
  end.

(** [main], lines 239-241: start every entry. *)
Definition main_start_services : M unit :=
  σ ← get; for_range 0 (nservices σ) start_service.

(** [main], lines 274-276: the loop around [waitpid(-1, &status, WNOHANG)]. *)
Fixpoint reap_loop (fuel : nat) : M unit :=
  match fuel with
  | O => fun σ => OutOfFuel σ
  | S k =>
      w ← sys_waitpid (-1);
      if 0 <? w.1 then handle_reaped w.1 w.2;; reap_loop k
      else ret tt
  end.

(** Every round releases one terminated child, and a child is a zombie,
    alive, or still to be forked: this many rounds are enough. *)
Definition reap_fuel (σ : state) : nat :=
  S (length (zombies σ) + length (alive σ) + length (forks σ)).

Definition drain : M unit :=
  σ ← get; reap_loop (reap_fuel σ).

(** [main], lines 269-277: the [if (need_reap)] statement. *)
Definition reap_pass : M unit :=
  σ ← get;
  when (need_reap σ) (modify (set_need_reap false);; drain).

(** [main], lines 269-279: the body of the [while (!terminate)] loop. *)
Definition supervise_once : M unit :=
  reap_pass;; sys_sleep 1.

(** [main], lines 268-280. *)
Fixpoint supervise (fuel : nat) : M unit :=
  match fuel with
  | O => fun σ => OutOfFuel σ
  | S k =>
      σ ← get;
      if terminate σ then ret tt
      else supervise_once;; supervise k
  end.

(** [main], lines 282-291. *)
Definition main_shutdown : M Z :=
  emit (EvPrintf Msg_shutting_down);;
  σ ← get;
  for_range 0 (nservices σ) stop_service;;
  emit EvSync;;
  r ← sys_access (lit "/sbin/poweroff");
  when (r =? 0) (sys_execl (lit "/sbin/poweroff") [lit "poweroff"]);;
  ret 0.

(** [main] from line 268 to its end. *)
Definition main_supervise (fuel : nat) : M Z :=
  supervise fuel;; main_shutdown.

(** The trace an outcome adds to the trace of the state it started in. *)
Definition new_events {A} (σ : state) (o : outcome A) : list event :=
  drop (length (trace σ)) (trace (final_state o)).

Definition is_ok {A} (o : outcome A) : bool :=
  match o with Ok _ _ => true | _ => false end.

(** ** Concrete inputs used in examples *)

(** An entry as [parse_service_file] leaves it for a file with this name
    and the command /bin/true, with the given runtime fields. *)
Definition svc (n : string) (r : restart_t) (p : Z) (up : bool) : service :=
  {| name := lit n; execcmd := Some (lit "/bin/true"); restart := r;
     pid := p; running := up;
     logfile := snprintf 256 (LOGDIR ++ lit "/" ++ lit n ++ lit ".log") |}.


(** ** Vocabulary of the statements *)

Definition nul_free (s : list ascii) : Prop := Forall (fun c => c ≠ NUL) s.

(** The buffer a key is stored in, and how many characters it keeps. *)
Definition field (k : key) (b : bufs) : cstring :=
  match k with
  | KName => b_name b
  | KExecStart => b_exec b
  | KRestart => b_restart b
  end.

Definition capacity (k : key) : nat :=
  match k with
  | KName => 127
  | KExecStart | KRestart => 1023
  end.

(** Fields that only the supervisor's own code writes: kernel calls
    leave them alone. *)
Definition same_program (σ σ' : state) : Prop :=
  services σ' = services σ /\ open_fd σ' = open_fd σ /\
  exec_ok σ' = exec_ok σ /\ access_x σ' = access_x σ.

(** The events by which the shutdown sequence is told apart: entries
    of [stop_service], the sync, and the attempt at the power-off
    helper. *)
Definition milestone (e : event) : bool :=
  match e with
  | EvCall (Call_stop _) | EvSync | EvAccess _ _ | EvExecl _ _ _ => true
  | _ => false
  end.

Definition is_syscall (e : event) : bool :=
  match e with
  | EvCall _ => false
  | _ => true
  end.

(** The graceful signal, to whatever target. *)
Definition is_sigterm (e : event) : bool :=
  match e with
  | EvKill _ SIGTERM => true
  | _ => false
  end.

(** What [stop_service] writes into an entry. *)
Definition mark_stopped (s : service) : service := with_runtime s (pid s) false.

Definition POWEROFF : cstring := lit "/sbin/poweroff".

(** A state in which entry 0 is running as pid 7 and that child has
    already terminated (status 15: killed by SIGTERM) without having
    been waited for. *)
Definition reaped_early : state :=
  {| services := [svc "web" R_NO 7 true]; need_reap := true; terminate := true;
     zombies := [(7, 15)]; alive := []; forks := []; sched := [];
     open_fd := fun _ => 3; exec_ok := fun _ => true;
     access_x := fun _ => true; trace := [] |}.

(** The same entry with its child alive; the child terminates, obeying
    SIGTERM, during the first 100 ms the supervisor sleeps. *)
Definition obeys_sigterm : state :=
  {| services := [svc "web" R_NO 7 true]; need_reap := false; terminate := true;
     zombies := []; alive := [7]; forks := [];
     sched := [ {| t_deaths := [(7, 15)]; t_term := false |} ];
     open_fd := fun _ => 3; exec_ok := fun _ => true;
     access_x := fun _ => true; trace := [] |}.

(** An entry that is down, has policy [R_ALWAYS], and a [fork] oracle
    that makes the run follow the child, whose [execl] fails. *)
Definition exec_fails : state :=
  {| services := [svc "web" R_ALWAYS 0 false]; need_reap := false;
     terminate := false; zombies := []; alive := []; forks := [0]; sched := [];
     open_fd := fun _ => 3; exec_ok := fun _ => false;
     access_x := fun _ => true; trace := [] |}.

(** Relaunches: the calls of [fork] and the entries of [start_service]
    in a trace. *)
Definition is_relaunch (e : event) : bool :=
  match e with
  | EvFork _ | EvCall (Call_start _) => true
  | _ => false
  end.

Definition is_fork (e : event) : bool :=
  match e with
  | EvFork _ => true
  | _ => false
  end.

Definition relaunches (evs : list event) : nat :=
  length (List.filter is_fork evs).

(** The exit was abnormal, or its numeric code was not zero. *)
Definition failed (status : Z) : Prop :=
  WIFSIGNALED status = true \/ (WIFEXITED status = true /\ WEXITSTATUS status ≠ 0).

(** An entry with policy [R_ON_FAILURE] whose process, pid 7, exits
    with code 1 (wait status 256). *)
Definition exits_1 : state :=
  {| services := [svc "web" R_ON_FAILURE 7 true]; need_reap := true;
     terminate := false; zombies := [(7, 256)]; alive := []; forks := [8];
     sched := []; open_fd := fun _ => 3; exec_ok := fun _ => true;
     access_x := fun _ => true; trace := [] |}.

(** Two children, pids 7 and 9, have terminated. *)
Definition two_exits : state :=
  {| services := [svc "web" R_ALWAYS 7 true; svc "db" R_NO 9 true];
     need_reap := false; terminate := false;
     zombies := [(7, 256); (9, 0)]; alive := []; forks := [12];
     sched := []; open_fd := fun _ => 3; exec_ok := fun _ => true;
     access_x := fun _ => true; trace := [] |}.

(** The pid and status pairs handed to [handle_reaped], in order. *)
Definition dispatched_of (e : event) : list (Z * Z) :=
  match e with
  | EvCall (Call_handle_reaped p status) => [(p, status)]
  | _ => []
  end.

Definition dispatched (evs : list event) : list (Z * Z) :=
  flat_map dispatched_of evs.

(** The kernel hands out positive pids. *)
Definition pids_positive (σ : state) : Prop :=
  Forall (fun z => 0 < z.1) (zombies σ) /\ Forall (fun q => 0 < q) (alive σ).

(** The run stays in the supervisor: no [fork] returns 0. *)
Definition parent_view (σ : state) : Prop :=
  Forall (fun r => r ≠ 0) (forks σ).

Definition weight (σ : state) : nat :=
  (length (zombies σ) + length (alive σ) + length (forks σ))%nat.

(** What a piece of supervisor code may do to the kernel's side of the
    state: [new] are the children that terminated meanwhile. *)
Definition kstep (σ σ' : state) (new : list (Z * Z)) : Prop :=
  zombies σ' = zombies σ ++ new
  /\ (weight σ' ≤ weight σ)%nat
  /\ (pids_positive σ -> pids_positive σ')
  /\ (parent_view σ -> parent_view σ')
  /\ (sched σ = [] -> new = [] /\ sched σ' = []).

(** The same for the kernel's own moves, which leave the oracles alone. *)
Definition kmove (σ σ' : state) (new : list (Z * Z)) : Prop :=
  zombies σ' = zombies σ ++ new
  /\ (weight σ' ≤ weight σ)%nat
  /\ (pids_positive σ -> pids_positive σ')
  /\ forks σ' = forks σ /\ sched σ' = sched σ.

(** ** Further vocabulary *)

(** The word a key is written with, in lower case. *)
Definition key_word (k : key) : string :=
  match k with
  | KName => "name"
  | KExecStart => "execstart"
  | KRestart => "restart"
  end.

(** The entries of a directory that [load_services] does not step over. *)
Definition is_candidate (e : dirent) : bool :=
  negb (d_is_dir e) && negb (starts_with_dot (d_name e)).

(** What every entry that comes out of a service file looks like. The
    command is the pointer that [strdup] returned, which the code stores
    unchecked: nothing is said of the case that it is NULL. *)
Definition fresh_entry (s : service) : Prop :=
  name s ≠ [] /\ (length (name s) ≤ 127)%nat /\ nul_free (name s)
  /\ (forall cmd, execcmd s = Some cmd -> cmd ≠ [])
  /\ pid s = 0 /\ running s = false
  /\ logfile s = LOGDIR ++ lit "/" ++ name s ++ lit ".log".

(** A directory with a subdirectory, a hidden file, a file that cannot
    be opened, a file without [ExecStart], and two valid files. *)
Definition sample_dir : list dirent :=
  [ {| d_is_dir := true; d_name := lit "old"; d_file := None |};
    {| d_is_dir := false; d_name := lit ".keep"; d_file := Some (lit "Name=x
ExecStart=/bin/x
") |};
    {| d_is_dir := false; d_name := lit "gone.conf"; d_file := None |};
    {| d_is_dir := false; d_name := lit "half.conf"; d_file := Some (lit "Name=half
") |};
    {| d_is_dir := false; d_name := lit "web.conf"; d_file := Some (lit "Name=web
ExecStart=/bin/true
Restart=always
") |};
    {| d_is_dir := false; d_name := lit "db.conf"; d_file := Some (lit "name = db
EXECSTART = /bin/db --fg
") |} ].

(** What the child of [start_service] does to its descriptors before it
    becomes a session leader: standard input from /dev/null when that
    opens, standard output and error to the log file when that opens,
    the extra descriptor closed when it is not one of the three. *)
Definition child_plumbing (σ : state) (s : service) : list event :=
  let fdnull := open_fd σ (lit "/dev/null") in
  let fdlog := open_fd σ (logfile s) in
  EvOpen (lit "/dev/null") fdnull
  :: (if 0 <=? fdnull then [EvDup2 fdnull 0; EvClose fdnull] else [])
  ++ EvOpen (logfile s) fdlog
  :: (if 0 <=? fdlog
      then EvDup2 fdlog 1 :: EvDup2 fdlog 2
           :: (if 2 <? fdlog then [EvClose fdlog] else [])
      else []).

(** The oracle of [exits_1] with a [fork] that fails. *)
Definition fork_fails : state := set_forks [-1] exits_1.

(** The child's side of a [fork] in [start_service], with a working
    shell. *)
Definition child_side : state := set_forks [0] exits_1.

(** The events of the polling loop of [stop_service] for pid [p]. *)
Definition is_poll (p : Z) (e : event) : bool :=
  match e with
  | EvWaitpid q _ => q =? p
  | EvUsleep u => u =? 100000
  | _ => false
  end.

Definition is_usleep (e : event) : bool :=
  match e with
  | EvUsleep _ => true
  | _ => false
  end.

(** [n] polls that find the child still executing. *)
Definition quiet_polls (n : nat) (p : Z) : list event :=
  concat (replicate n [EvWaitpid p 0; EvUsleep 100000]).

(** Child [p] is executing and has not terminated. *)
Definition still_alive (p : Z) (σ : state) : Prop :=
  p ∈ alive σ /\ take_zombie p (zombies σ) = None.

(** Child [p] does not terminate during the next [n] sleeps. *)
Fixpoint spared (p : Z) (n : nat) (sch : list tick) : Prop :=
  match n, sch with
  | S k, t :: rest => (p ∉ (fst <$> t_deaths t)) /\ spared p k rest
  | _, _ => True
  end.

(** Entry 0 runs as pid 7 and the child ignores SIGTERM for good while
    another child, pid 9, terminates. *)
Definition ignores_sigterm : state :=
  {| services := [svc "web" R_NO 7 true]; need_reap := false; terminate := true;
     zombies := []; alive := [7; 9]; forks := [];
     sched := [ {| t_deaths := [(9, 0)]; t_term := false |} ];
     open_fd := fun _ => 3; exec_ok := fun _ => true;
     access_x := fun _ => true; trace := [] |}.

(** The child of entry 0, pid 7, holds out for 49 sleeps and terminates
    during the 50th. *)
Definition dies_at_last : state :=
  {| services := [svc "web" R_NO 7 true]; need_reap := false; terminate := true;
     zombies := []; alive := [7]; forks := [];
     sched := replicate 49 {| t_deaths := []; t_term := false |}
              ++ [ {| t_deaths := [(7, 15)]; t_term := false |} ];
     open_fd := fun _ => 3; exec_ok := fun _ => true;
     access_x := fun _ => true; trace := [] |}.

(** ** The console

    [waitpid(p, &st, 0)]: the caller is blocked until the child has
    terminated (or there is no such child). Each round of waiting is one
    step of the schedule; when the schedule has nothing more to bring
    and the child is still executing, the caller stays blocked, which a
    run of the model reports as out of fuel. *)
Fixpoint wait_child (fuel : nat) (p : Z) : M (Z * Z) :=
  match fuel with
  | O => fun σ => OutOfFuel σ
  | S k => fun σ =>
      if (waitpid_nohang p σ).1.1 =? 0
      then wait_child k p (blocked σ)
      else Ok ((waitpid_nohang p σ).1)
              (log (EvWaitpid p (waitpid_nohang p σ).1.1) (waitpid_nohang p σ).2)
  end.

Definition sys_wait (p : Z) : M (Z * Z) :=
  σ ← get; wait_child (S (length (sched σ))) p.

(** [main], lines 250-258, and [spawn_getty_or_shell], lines 195-204:
    bind the three standard descriptors to [fd] when it is one, then try
    /bin/login, then a login shell, then give up with status 127. *)
Definition attach_and_login (fd : Z) : M unit :=
  when (0 <=? fd)
    (emit (EvDup2 fd 0);; emit (EvDup2 fd 1);; emit (EvDup2 fd 2);;
     when (2 <? fd) (emit (EvClose fd)));;
  sys_execl (lit "/bin/login") [lit "login"];;
  sys_execl (lit "/bin/sh") [lit "sh"; lit "-l"];;
  sys_exit 127.

Definition getty_child : M unit :=
  fd ← sys_open (lit "/dev/tty1");
  attach_and_login fd.

(** [main], lines 247-263: the [while (1)] loop of the getty process. *)
Fixpoint getty_loop (fuel : nat) : M unit :=
  match fuel with
  | O => fun σ => OutOfFuel σ
  | S k =>
      p ← sys_fork;
      (if p =? 0 then getty_child else ret tt);;
      sys_wait p;;
      sys_sleep 1;;
      getty_loop k
  end.

(** [main], lines 244-265. *)
Definition main_spawn_getty (fuel : nat) : M unit :=
  getty_pid ← sys_fork;
  if getty_pid =? 0 then getty_loop fuel;; sys_exit 0
  else ret tt.

(** [spawn_getty_or_shell], lines 182-212. *)
Definition spawn_getty_or_shell : M unit :=
  p ← sys_fork;
  if p <? 0 then ret tt
  else if p =? 0 then
    fd ← sys_open (lit "/dev/tty1");
    fd ← (if fd <? 0 then sys_open (lit "/dev/console") else ret fd);
    attach_and_login fd
  else
    sys_wait p;; ret tt.

(** [main] from line 239 to its end: start the services, fork the getty
    process, supervise, shut down. *)
Definition main_after_load (getty_fuel fuel : nat) : M Z :=
  main_start_services;;
  main_spawn_getty getty_fuel;;
  main_supervise fuel.

(** The fields of an entry that are set when it is loaded. *)
Definition static (s : service) : cstring * option cstring * restart_t * cstring :=
  (name s, execcmd s, restart s, logfile s).

Definition same_static (σ σ' : state) : Prop :=
  static <$> services σ' = static <$> services σ.

(** Code that, however it ends, leaves those fields of every entry, and
    the number of entries, as they were. *)
Definition keeps_static {A} (m : M A) : Prop :=
  forall σ, same_static σ (final_state (m σ)).

(** The program that a console child ends in. *)
Definition console_end (σ : state) : halt :=
  if exec_ok σ (lit "/bin/login") then Execed (lit "/bin/login") [lit "login"]
  else if exec_ok σ (lit "/bin/sh") then Execed (lit "/bin/sh") [lit "sh"; lit "-l"]
  else Exited 127.

(** A machine without /bin/login whose first terminal cannot be opened;
    the run follows the children of its forks. *)
Definition no_login : state :=
  {| services := [svc "web" R_NO 7 true]; need_reap := false; terminate := false;
     zombies := []; alive := [7]; forks := [0; 0]; sched := [];
     open_fd := fun path =>
       if String.eqb (string_of_list_ascii path) "/dev/tty1" then -1 else 5;
     exec_ok := fun path => String.eqb (string_of_list_ascii path) "/bin/sh";
     access_x := fun _ => true; trace := [] |}.

(** What [attach_and_login] does, as a trace. *)
Definition login_events (σ : state) (fd : Z) : list event :=
  (if 0 <=? fd
   then EvDup2 fd 0 :: EvDup2 fd 1 :: EvDup2 fd 2
        :: (if 2 <? fd then [EvClose fd] else [])
   else [])
  ++ EvExecl (lit "/bin/login") [lit "login"] (exec_ok σ (lit "/bin/login"))
  :: (if exec_ok σ (lit "/bin/login") then []
      else EvExecl (lit "/bin/sh") [lit "sh"; lit "-l"] (exec_ok σ (lit "/bin/sh"))
           :: (if exec_ok σ (lit "/bin/sh") then [] else [EvExit 127])).

(** The three ways a console child can end. *)
Definition is_console_end (h : halt) : Prop :=
  h = Execed (lit "/bin/login") [lit "login"]
  \/ h = Execed (lit "/bin/sh") [lit "sh"; lit "-l"]
  \/ h = Exited 127.

(** How a run that is inside the getty process, or one of its children,
    can end: never by returning. *)
Definition never_returns {A} (o : outcome A) : Prop :=
  match o with
  | Ok _ _ => False
  | Halt h _ => is_console_end h
  | OutOfFuel _ => True
  end.

(** The getty process of a machine whose login program runs until the
    schedule ends. *)
Definition getty_side : state :=
  {| services := [svc "web" R_NO 7 true]; need_reap := false; terminate := false;
     zombies := []; alive := [7]; forks := [0; 21; 0];
     sched := [ {| t_deaths := [(21, 0)]; t_term := false |} ];
     open_fd := fun _ => 4; exec_ok := fun _ => true;
     access_x := fun _ => true; trace := [] |}.

(** Code that, however it ends, leaves the whole table as it was. *)
Definition keeps_services {A} (m : M A) : Prop :=
  forall σ, services (final_state (m σ)) = services σ.

(** A step of the schedule in which nothing happens, and one that only
    brings SIGTERM or SIGINT. *)
Definition calm : tick := {| t_deaths := []; t_term := false |}.
Definition term_request : tick := {| t_deaths := []; t_term := true |}.

(** The supervisor asleep, with a termination request arriving during
    its third sleep. *)
Definition term_in_third : state :=
  {| services := [svc "web" R_NO 7 true]; need_reap := false; terminate := false;
     zombies := []; alive := [7]; forks := [];
     sched := [calm; calm; term_request; calm];
     open_fd := fun _ => 3; exec_ok := fun _ => true;
     access_x := fun _ => true; trace := [] |}.

(** What [start_service] on entry [s] at index [i] adds to the trace
    in the parent, when [fork] returns [r]. *)
Definition start_block (i : nat) (s : service) (r : Z) : list event :=
  EvCall (Call_start i)
  :: match execcmd s with
     | Some _ =>
         [EvFork r;
          if r <? 0 then EvPerror (lit "fork")
          else EvPrintf (Msg_started (name s) r)]
     | None => []
     end.

(** The entry afterwards. *)
Definition after_start (s : service) (r : Z) : service :=
  match execcmd s with
  | Some _ => if 0 <? r then with_runtime s r true else s
  | None => s
  end.

(** Two entries as they are loaded; the first [fork] will succeed, the
    second fail. *)
Definition at_boot : state :=
  {| services := [svc "web" R_ALWAYS 0 false; svc "db" R_NO 0 false];
     need_reap := false; terminate := false;
     zombies := []; alive := []; forks := [12; -1]; sched := [];
     open_fd := fun _ => 3; exec_ok := fun _ => true;
     access_x := fun _ => true; trace := [] |}.

(** * Properties *)

(** A first file, read into the empty table. *)
Example parse_demo :
  parse_service_file
    (Some (lit "Name=web
ExecStart = /bin/true
restart=On-Failure
")) [] =
  [ {| name := lit "web"; execcmd := Some (lit "/bin/true");
       restart := R_ON_FAILURE; pid := 0; running := false;
       logfile := lit "/var/log/web.log" |} ].
Proof. vm_compute. reflexivity. Qed.

(** ** Strings *)

Lemma code_inj c d : code c = code d -> c = d.
Proof.
  unfold code. intros H. apply N2Z.inj in H.
  rewrite <- (ascii_N_embedding c), <- (ascii_N_embedding d).
  by rewrite H.
Qed.

Lemma tolower_nul c : tolower c = NUL -> c = NUL.
Proof.
  destruct c as [[] [] [] [] [] [] [] []]; vm_compute;
    first [congruence | intros; discriminate].
Qed.

Lemma code_nul c : code c = 0 -> c = NUL.
Proof. intros H. apply code_inj. by rewrite H. Qed.

Lemma strcasecmp_0 a b :
  nul_free a -> nul_free b ->
  strcasecmp a b = 0 <-> tolower <$> a = tolower <$> b.
Proof.
  revert b. induction a as [|c a IH]; intros [|d b] Ha Hb; simpl.
  - done.
  - inversion_clear Hb as [|? ? Hd _]. split; [|done].
    intros H. exfalso. apply Hd, tolower_nul, code_nul. lia.
  - inversion_clear Ha as [|? ? Hc _]. split; [|done].
    intros H. exfalso. by apply Hc, tolower_nul, code_nul.
  - inversion_clear Ha as [|? ? _ Ha']. inversion_clear Hb as [|? ? _ Hb'].
    destruct (Ascii.eqb_spec (tolower c) (tolower d)) as [E|E].
    + rewrite (IH b Ha' Hb'), E. split.
      * intros H. f_equal. exact H.
      * intros [= H]. exact H.
    + split.
      * intros H. exfalso. apply E, code_inj. lia.
      * intros [= ? _]. done.
Qed.

Lemma cstr_nul_free buf : nul_free (cstr buf).
Proof.
  induction buf as [|c buf IH]; simpl; [constructor|].
  destruct (Ascii.eqb_spec c NUL); [constructor|]. by constructor.
Qed.

Lemma cstr_length buf : (length (cstr buf) ≤ length buf)%nat.
Proof.
  induction buf as [|c buf IH]; simpl; [lia|].
  destruct (Ascii.eqb c NUL); simpl; lia.
Qed.

Lemma strchr_split_parts c s k v :
  strchr_split c s = Some (k, v) -> s = k ++ c :: v.
Proof.
  revert k. induction s as [|d s IH]; intros k; simpl; [done|].
  destruct (Ascii.eqb_spec d c) as [->|_].
  - by intros [= <- <-].
  - destruct (strchr_split c s) as [[k' v']|]; [|done].
    intros [= <- <-]. simpl. f_equal. by apply IH.
Qed.

Lemma skip_blank_suffix s : skip_blank s `suffix_of` s.
Proof.
  induction s as [|c s IH]; simpl; [done|].
  destruct (is_blank c); [by apply suffix_cons_r | done].
Qed.

Lemma cut_trailing_prefix s : cut_trailing s `prefix_of` s.
Proof.
  induction s as [|c s IH]; simpl; [done|].
  destruct (cut_trailing s) as [|x kept] eqn:E.
  - destruct (is_trailing c); [apply prefix_nil|].
    apply prefix_cons, prefix_nil.
  - by apply prefix_cons.
Qed.

Lemma trim_length s : (length (trim s) ≤ length s)%nat.
Proof.
  unfold trim.
  etrans; [apply prefix_length, cut_trailing_prefix|].
  apply suffix_length, skip_blank_suffix.
Qed.

Lemma trim_nul_free s : nul_free s -> nul_free (trim s).
Proof.
  unfold trim, nul_free. intros H.
  destruct (cut_trailing_prefix (skip_blank s)) as [t Ht].
  destruct (skip_blank_suffix s) as [u Hu].
  rewrite Hu, Ht, !Forall_app in H. tauto.
Qed.

Lemma skip_blank_fixed s :
  (forall c r, s = c :: r -> is_blank c = false) -> skip_blank s = s.
Proof.
  destruct s as [|c r]; [done|]. intros H. simpl. by rewrite (H c r eq_refl).
Qed.

Lemma skip_blank_head s c r : skip_blank s = c :: r -> is_blank c = false.
Proof.
  induction s as [|d s IH]; simpl; [done|].
  destruct (is_blank d) eqn:E; [done|]. by intros [= <- _].
Qed.

Lemma skip_blank_split s :
  exists pre, s = pre ++ skip_blank s /\ Forall (fun c => is_blank c = true) pre.
Proof.
  induction s as [|d s (pre & Hs & Hpre)]; simpl.
  - by exists [].
  - destruct (is_blank d) eqn:E.
    + exists (d :: pre). split; [simpl; by f_equal | by constructor].
    + by exists [].
Qed.

Lemma cut_trailing_split s :
  exists post,
    s = cut_trailing s ++ post /\ Forall (fun c => is_trailing c = true) post.
Proof.
  induction s as [|d s (post & Hs & Hpost)]; simpl.
  - by exists [].
  - destruct (cut_trailing s) as [|x kept] eqn:E.
    + simpl in Hs. destruct (is_trailing d) eqn:Ed.
      * exists (d :: post). split; [simpl; by f_equal | by constructor].
      * exists post. split; [simpl; by f_equal | done].
    + exists post. split; [|done]. simpl. f_equal. exact Hs.
Qed.

Lemma cut_trailing_last s c : last (cut_trailing s) = Some c -> is_trailing c = false.
Proof.
  induction s as [|d s IH]; simpl; [done|].
  destruct (cut_trailing s) as [|x kept] eqn:E.
  - destruct (is_trailing d) eqn:Ed; [done|]. by intros [= <-].
  - intros H. apply IH. exact H.
Qed.

Lemma cut_trailing_fixed s :
  (forall c, last s = Some c -> is_trailing c = false) -> cut_trailing s = s.
Proof.
  induction s as [|d s IH]; [done|]. intros H. simpl.
  destruct s as [|e s].
  - simpl. by rewrite (H d eq_refl).
  - rewrite IH; [done|]. intros c Hc. apply H. exact Hc.
Qed.

Lemma cut_trailing_head s c r t :
  s = c :: r -> cut_trailing s = t -> t = [] \/ exists r', t = c :: r'.
Proof.
  intros -> <-. simpl. destruct (cut_trailing r).
  - destruct (is_trailing c); [by left | right; by eexists].
  - right. by eexists.
Qed.

Lemma strncpy_nul_free n s : nul_free s -> nul_free (strncpy n s).
Proof. unfold strncpy, nul_free. apply Forall_take. Qed.

(** ** Reading a file line by line *)

Lemma fgets_chars_app room f :
  (fgets_chars room f).1 ++ (fgets_chars room f).2 = f.
Proof.
  revert f. induction room as [|k IH]; intros [|c f]; simpl; try done.
  destruct (Ascii.eqb c LF); [done|].
  specialize (IH f). destruct (fgets_chars k f) as [l r]. simpl in *.
  by rewrite IH.
Qed.

Lemma fgets_chars_length room f :
  (length (fgets_chars room f).1 ≤ room)%nat.
Proof.
  revert f. induction room as [|k IH]; intros [|c f]; simpl; try lia.
  destruct (Ascii.eqb c LF); simpl; [lia|].
  specialize (IH f). destruct (fgets_chars k f) as [l r]. simpl in *. lia.
Qed.

Lemma fgets_chars_progress room c f :
  (length (fgets_chars (S room) (c :: f)).2 < length (c :: f))%nat.
Proof.
  pose proof (fgets_chars_app room f) as H.
  simpl. destruct (Ascii.eqb c LF); simpl; [lia|].
  destruct (fgets_chars room f) as [l r]. simpl in *.
  rewrite <- H, length_app. lia.
Qed.

Lemma fgets_Some_sized size f line f' :
  (2 ≤ size)%nat ->
  fgets size f = Some (line, f') ->
  line ++ f' = f /\ (length line ≤ size - 1)%nat /\ (length f' < length f)%nat.
Proof.
  intros Hsize. unfold fgets. destruct f as [|c f]; [done|].
  destruct size as [|[|n]]; [lia | lia |].
  replace (S (S n) - 1)%nat with (S n) by lia.
  intros E.
  assert (fgets_chars (S n) (c :: f) = (line, f')) as E' by congruence.
  clear E.
  pose proof (fgets_chars_app (S n) (c :: f)) as H1.
  pose proof (fgets_chars_length (S n) (c :: f)) as H2.
  pose proof (fgets_chars_progress n c f) as H3.
  rewrite E' in H1, H2, H3. done.
Qed.

Lemma fgets_Some f line f' :
  fgets MAX_LINE f = Some (line, f') ->
  line ++ f' = f /\ (length line ≤ MAX_LINE - 1)%nat /\ (length f' < length f)%nat.
Proof. apply fgets_Some_sized. unfold MAX_LINE. lia. Qed.

(** Fuel beyond the length of the file changes nothing. *)
Lemma read_lines_fuel fuel1 fuel2 f :
  (length f ≤ fuel1)%nat -> (length f ≤ fuel2)%nat ->
  read_lines fuel1 f = read_lines fuel2 f.
Proof.
  revert fuel2 f. induction fuel1 as [|k IH]; intros fuel2 f H1 H2.
  - destruct f; [|simpl in H1; lia]. by destruct fuel2.
  - destruct fuel2 as [|k2]; [destruct f; [done | simpl in H2; lia]|].
    simpl. destruct (fgets MAX_LINE f) as [[line f']|] eqn:E; [|done].
    apply fgets_Some in E as (_ & _ & Hlt).
    f_equal. apply IH; lia.
Qed.

(** The loop stops at the end of the file, not for lack of fuel: the
    lines read make up the whole file. *)
Lemma read_lines_concat fuel f :
  (length f ≤ fuel)%nat -> concat (read_lines fuel f) = f.
Proof.
  revert f. induction fuel as [|k IH]; intros f H.
  - by destruct f; [|simpl in H; lia].
  - simpl. destruct (fgets MAX_LINE f) as [[line f']|] eqn:E.
    + apply fgets_Some in E as (Happ & _ & Hlt).
      simpl. rewrite IH; [done | lia].
    + by destruct f.
Qed.

Lemma file_lines_concat f : concat (file_lines f) = f.
Proof. by apply read_lines_concat. Qed.

Lemma read_lines_bound fuel f line :
  line ∈ read_lines fuel f -> (length line ≤ MAX_LINE - 1)%nat.
Proof.
  revert f. induction fuel as [|k IH]; intros f; simpl; [by intros ?%elem_of_nil|].
  destruct (fgets MAX_LINE f) as [[l f']|] eqn:E; [|by intros ?%elem_of_nil].
  apply fgets_Some in E as (_ & Hlen & _).
  intros [->|H]%elem_of_cons; [done | by apply (IH f')].
Qed.

Lemma parse_loop_lines fuel f b :
  parse_loop fuel f b = foldl (fun b line => parse_line line b) b (read_lines fuel f).
Proof.
  revert f b. induction fuel as [|k IH]; intros f b; simpl; [done|].
  destruct (fgets MAX_LINE f) as [[line f']|]; [|done]. apply IH.
Qed.

Lemma parse_bufs_lines f :
  parse_bufs f = foldl (fun b line => parse_line line b) bufs_init (file_lines f).
Proof. apply parse_loop_lines. Qed.

Lemma parse_line_assign line b :
  parse_line line b =
  match line_assign line with
  | Some (KName, v) =>
      {| b_name := strncpy 127 v; b_exec := b_exec b; b_restart := b_restart b |}
  | Some (KExecStart, v) =>
      {| b_name := b_name b; b_exec := strncpy 1023 v; b_restart := b_restart b |}
  | Some (KRestart, v) =>
      {| b_name := b_name b; b_exec := b_exec b; b_restart := strncpy 1023 v |}
  | None => b
  end.
Proof.
  unfold parse_line, line_assign.
  destruct (strchr_split "=" (cstr line)) as [[k v]|]; [|done].
  destruct (key_is (trim k) "name" "Name"); [done|].
  destruct (key_is (trim k) "execstart" "ExecStart"); [done|].
  by destruct (key_is (trim k) "restart" "Restart").
Qed.

Lemma line_assign_value line k v :
  line_assign line = Some (k, v) ->
  nul_free v /\ (length v ≤ length line)%nat.
Proof.
  unfold line_assign.
  destruct (strchr_split "=" (cstr line)) as [[kk vv]|] eqn:E; [|done].
  apply strchr_split_parts in E.
  assert (nul_free (trim vv) /\ (length (trim vv) ≤ length line)%nat) as Hv.
  { pose proof (cstr_nul_free line) as Hn. pose proof (cstr_length line) as Hl.
    rewrite E in Hn, Hl. rewrite length_app in Hl. simpl in Hl.
    apply Forall_app in Hn as [_ Hn]. inversion_clear Hn.
    split; [by apply trim_nul_free|]. pose proof (trim_length vv). lia. }
  repeat case_match; try done; by intros [= _ <-].
Qed.

Lemma parse_line_set line k v b :
  line_assign line = Some (k, v) ->
  field k (parse_line line b) = strncpy (capacity k) v.
Proof. rewrite parse_line_assign. intros ->. by destruct k. Qed.

Lemma parse_line_keep line k b :
  assigns k line = false -> field k (parse_line line b) = field k b.
Proof.
  rewrite parse_line_assign. unfold assigns.
  destruct (line_assign line) as [[k' v]|]; [|done].
  case_bool_decide; [done|]. intros _. by destruct k, k'.
Qed.

Lemma parse_lines_keep lines k b :
  (forall l, l ∈ lines -> assigns k l = false) ->
  field k (foldl (fun b line => parse_line line b) b lines) = field k b.
Proof.
  revert b. induction lines as [|l lines IH]; intros b H; simpl; [done|].
  rewrite IH.
  - apply parse_line_keep, H. by left.
  - intros l' Hl'. apply H. by right.
Qed.

(** The buffer of a key holds what its last assignment stored. *)
Lemma parse_bufs_last f pre ln post k v :
  file_lines f = pre ++ ln :: post ->
  line_assign ln = Some (k, v) ->
  (forall l, l ∈ post -> assigns k l = false) ->
  field k (parse_bufs f) = strncpy (capacity k) v.
Proof.
  intros Hf Hln Hpost.
  rewrite parse_bufs_lines, Hf, foldl_app. simpl.
  rewrite parse_lines_keep by done. by apply parse_line_set.
Qed.

(** A key that no line assigns keeps its initial buffer. *)
Lemma parse_bufs_absent f k :
  (forall l, l ∈ file_lines f -> assigns k l = false) ->
  field k (parse_bufs f) = field k bufs_init.
Proof. intros H. rewrite parse_bufs_lines. by apply parse_lines_keep. Qed.

Lemma parse_bufs_nul_free f k : nul_free (field k (parse_bufs f)).
Proof.
  rewrite parse_bufs_lines.
  assert (forall k, nul_free (field k bufs_init)) as Hinit.
  { intros []; vm_compute; by repeat constructor. }
  revert Hinit. generalize bufs_init. revert k.
  induction (file_lines f) as [|l lines IH]; intros k b Hb; simpl; [done|].
  apply IH. intros k'. rewrite parse_line_assign.
  destruct (line_assign l) as [[k'' v]|] eqn:E; [|done].
  apply line_assign_value in E as [Hv _].
  pose proof (Hb KName). pose proof (Hb KExecStart). pose proof (Hb KRestart).
  destruct k'', k'; simpl; try done; by apply strncpy_nul_free.
Qed.

Lemma file_line_value f line k v :
  line ∈ file_lines f -> line_assign line = Some (k, v) ->
  (length v ≤ 1023)%nat.
Proof.
  intros Hin Hv. apply read_lines_bound in Hin.
  apply line_assign_value in Hv as [_ Hv]. unfold MAX_LINE in Hin. lia.
Qed.

(** ** What [parse_service_file] adds *)

Lemma parse_service_file_spec f svcs :
  parse_service_file (Some f) svcs =
  match service_of_file f with
  | Some s => if bool_decide (MAX_SVC ≤ length svcs)%nat then svcs else svcs ++ [s]
  | None => svcs
  end.
Proof.
  unfold parse_service_file, service_of_file.
  by destruct (bool_decide (b_name (parse_bufs f) = []) || bool_decide (b_exec (parse_bufs f) = [])).
Qed.

Lemma app_one_neq {A} (l : list A) x : l ++ [x] ≠ l.
Proof.
  intros H. apply (f_equal length) in H. rewrite length_app in H. simpl in H. lia.
Qed.

Lemma parse_service_file_added f svcs s :
  parse_service_file (Some f) svcs = svcs ++ [s] ->
  s = make_service (parse_bufs f) /\ b_name (parse_bufs f) ≠ [] /\
  b_exec (parse_bufs f) ≠ [] /\ (length svcs < MAX_SVC)%nat.
Proof.
  unfold parse_service_file.
  destruct (bool_decide_reflect (b_name (parse_bufs f) = [])) as [|Hn]; simpl.
  { intros H. symmetry in H. by apply app_one_neq in H. }
  destruct (bool_decide_reflect (b_exec (parse_bufs f) = [])) as [|He]; simpl.
  { intros H. symmetry in H. by apply app_one_neq in H. }
  case_bool_decide as Hc.
  { intros H. symmetry in H. by apply app_one_neq in H. }
  intros H%app_inv_head. injection H as <-. repeat split; try done. lia.
Qed.

Lemma restart_of_spec r :
  nul_free r ->
  (same_word r "always" -> restart_of r = R_ALWAYS) /\
  (same_word r "on-failure" -> restart_of r = R_ON_FAILURE) /\
  (~ same_word r "always" -> ~ same_word r "on-failure" -> restart_of r = R_NO).
Proof.
  intros Hr. unfold restart_of, same_word.
  assert (nul_free (lit "always")) as H1 by (vm_compute; by repeat constructor).
  assert (nul_free (lit "on-failure")) as H2 by (vm_compute; by repeat constructor).
  pose proof (strcasecmp_0 r _ Hr H1) as E1.
  pose proof (strcasecmp_0 r _ Hr H2) as E2.
  destruct (Z.eqb_spec (strcasecmp r (lit "always")) 0) as [Ha|Ha].
  - apply E1 in Ha. repeat split; try done.
    intros Hb. exfalso. rewrite Ha in Hb. vm_compute in Hb. discriminate.
  - destruct (Z.eqb_spec (strcasecmp r (lit "on-failure")) 0) as [Hb|Hb].
    + apply E2 in Hb. repeat split; try done. intros H. by apply E1 in H.
    + repeat split; try done.
      * intros H. by apply E1 in H.
      * intros H. by apply E2 in H.
Qed.

(** C10. When a recognized key ([Name], [ExecStart] or [Restart]) is
    assigned on several lines of one service file, the last assignment
    wins: if [ln] is the last line of the file that assigns key [k], with
    trimmed value [v], then the Service the file produces carries [v] for
    that key, whatever earlier lines assigned. The name is held in a
    128-byte buffer, so it is [v] up to its first 127 characters. *)
Theorem last_occurrence_wins f pre ln post k v svcs s :
  file_lines f = pre ++ ln :: post ->
  line_assign ln = Some (k, v) ->
  (forall l, l ∈ post -> assigns k l = false) ->
  parse_service_file (Some f) svcs = svcs ++ [s] ->
  match k with
  | KName => name s = take 127 v /\ ((length v ≤ 127)%nat -> name s = v)
  | KExecStart => execcmd s = Some v
  | KRestart => restart s = restart_of v
  end.
Proof.
  intros Hf Hln Hpost Hs.
  apply parse_service_file_added in Hs as (-> & _ & _ & _).
  pose proof (parse_bufs_last f pre ln post k v Hf Hln Hpost) as Hb.
  assert (length v ≤ 1023)%nat as Hlen.
  { apply (file_line_value f ln k v); [|done].
    rewrite Hf. apply elem_of_app. right. by left. }
  unfold strncpy in Hb.
  destruct k; simpl in *; unfold strncpy.
  - rewrite Hb, take_take. split; [done|]. intros H. by rewrite take_ge.
  - rewrite Hb. by rewrite take_ge.
  - rewrite Hb. by rewrite take_ge.
Qed.

Lemma last_occurrence_wins_witness :
  name (make_service (parse_bufs (lit "Name=old
Name=new
ExecStart=/bin/a
"))) = take 127 (lit "new")
  /\ ((length (lit "new") ≤ 127)%nat ->
      name (make_service (parse_bufs (lit "Name=old
Name=new
ExecStart=/bin/a
"))) = lit "new").
Proof.
  apply (last_occurrence_wins
           (lit "Name=old
Name=new
ExecStart=/bin/a
")
           [lit "Name=old
"]
           (lit "Name=new
")
           [lit "ExecStart=/bin/a
"]
           KName (lit "new") []).
  - vm_compute. reflexivity.
  - vm_compute. reflexivity.
  - intros l Hl. apply list_elem_of_singleton in Hl. subst l.
    vm_compute. reflexivity.
  - vm_compute. reflexivity.
Defined.

(** ** The value a file gives a key *)

Lemma has_text_false v :
  has_text v = false <-> Forall (fun c => is_trailing c = true) v.
Proof.
  unfold has_text. induction v as [|c v IH]; simpl.
  - split; [constructor | done].
  - destruct (is_trailing c) eqn:E; simpl.
    + rewrite IH. split; [by constructor | by inversion 1].
    + split; [done|]. inversion 1. congruence.
Qed.

Lemma is_blank_trailing c : is_blank c = true -> is_trailing c = true.
Proof.
  unfold is_blank, is_trailing.
  destruct (Ascii.eqb c SPACE), (Ascii.eqb c TAB); try done;
    intros _; by rewrite ?orb_true_r.
Qed.

Lemma cut_trailing_all s :
  Forall (fun c => is_trailing c = true) s -> cut_trailing s = [].
Proof.
  induction 1 as [|c s Hc _ IH]; simpl; [done|]. by rewrite IH, Hc.
Qed.

Lemma trim_nil v : trim v = [] <-> Forall (fun c => is_trailing c = true) v.
Proof.
  destruct (skip_blank_split v) as (pre & Hv & Hpre).
  destruct (cut_trailing_split (skip_blank v)) as (post & Hs & Hpost).
  split.
  - unfold trim. intros E. rewrite E in Hs. simpl in Hs.
    rewrite Hv, Hs. apply Forall_app. split; [|done].
    eapply Forall_impl; [exact Hpre|]. apply is_blank_trailing.
  - intros H. unfold trim. apply cut_trailing_all.
    rewrite Hv in H. by apply Forall_app in H as [_ H].
Qed.

(** A value is non-empty after trimming exactly when it holds a
    character other than space, tab, carriage return and newline. *)
Lemma has_text_trim v : has_text v = true <-> trim v ≠ [].
Proof.
  rewrite trim_nil, <- has_text_false. by destruct (has_text v).
Qed.

Lemma raw_assign_Some k line v :
  raw_assign k line = Some v -> line_assign line = Some (k, trim v).
Proof.
  unfold raw_assign, assigns, line_assign.
  destruct (strchr_split "=" (cstr line)) as [[kk vv]|]; [|done].
  destruct (key_is (trim kk) "name" "Name");
    [case_bool_decide; [|done]; intros [= <-]; by subst|].
  destruct (key_is (trim kk) "execstart" "ExecStart");
    [case_bool_decide; [|done]; intros [= <-]; by subst|].
  destruct (key_is (trim kk) "restart" "Restart");
    [case_bool_decide; [|done]; intros [= <-]; by subst|].
  done.
Qed.

Lemma raw_assign_None k line :
  raw_assign k line = None -> assigns k line = false.
Proof.
  unfold raw_assign.
  destruct (strchr_split "=" (cstr line)) as [[kk vv]|] eqn:E.
  - by destruct (assigns k line).
  - intros _. unfold assigns, line_assign. by rewrite E.
Qed.

Lemma parse_lines_raw lines k b :
  field k (foldl (fun b line => parse_line line b) b lines) =
  match last (omap (raw_assign k) lines) with
  | Some v => strncpy (capacity k) (trim v)
  | None => field k b
  end.
Proof.
  induction lines as [|l lines IH] using rev_ind; [done|].
  rewrite foldl_app, omap_app. simpl.
  destruct (raw_assign k l) as [v|] eqn:E.
  - rewrite last_snoc. by apply parse_line_set, raw_assign_Some.
  - rewrite app_nil_r, parse_line_keep by by apply raw_assign_None. apply IH.
Qed.

(** The buffer of a key holds the trimmed value the file gives it, cut
    to the buffer, and its initial content when the file gives none. *)
Lemma parse_bufs_raw f k :
  field k (parse_bufs f) =
  match raw_value k f with
  | Some v => strncpy (capacity k) (trim v)
  | None => field k bufs_init
  end.
Proof. rewrite parse_bufs_lines. apply parse_lines_raw. Qed.

Lemma raw_value_line f k v :
  raw_value k f = Some v ->
  exists line, line ∈ file_lines f /\ line_assign line = Some (k, trim v).
Proof.
  unfold raw_value. intros H. apply last_Some_elem_of in H.
  apply list_elem_of_omap in H as (line & Hin & Hl).
  exists line. split; [done|]. by apply raw_assign_Some.
Qed.

Lemma raw_value_fits f k v :
  raw_value k f = Some v -> strncpy 1023 (trim v) = trim v.
Proof.
  intros (line & Hin & Hl)%raw_value_line.
  unfold strncpy. apply take_ge. by eapply file_line_value.
Qed.

Lemma field_has_value f k :
  k = KName \/ k = KExecStart ->
  field k (parse_bufs f) ≠ [] <-> has_value k f = true.
Proof.
  intros Hk. rewrite parse_bufs_raw. unfold has_value.
  destruct (raw_value k f) as [v|].
  - rewrite has_text_trim. unfold strncpy.
    destruct (trim v) as [|c t]; [by rewrite take_nil|].
    by destruct Hk as [-> | ->].
  - by destruct Hk as [-> | ->].
Qed.

(** C3, as the code has it. A file read while the table has room
    (fewer than [MAX_SVC] entries) adds exactly one Service if and only
    if the file gives both [Name] and [ExecStart] a value that is
    non-empty after trimming: the text after the equals sign of the last
    line that assigns the key holds something other than spaces, tabs,
    carriage returns and newlines. The Service then carries the trimmed
    name (its first 127 characters), and has policy [R_ALWAYS] when the
    trimmed [Restart] value is "always" in any case of letters,
    [R_ON_FAILURE] when it is "on-failure", and [R_NO] for any other
    value and when no line assigns [Restart]; otherwise the table is
    left as it was, and no error is raised. *)
Theorem parse_file_when_room f svcs :
  (length svcs < MAX_SVC)%nat ->
  ((exists s, parse_service_file (Some f) svcs = svcs ++ [s])
     <-> has_value KName f && has_value KExecStart f = true)
  /\ (forall s, parse_service_file (Some f) svcs = svcs ++ [s] ->
        (exists n, raw_value KName f = Some n /\ name s = take 127 (trim n))
        /\ match raw_value KRestart f with
           | Some r =>
               (same_word (trim r) "always" -> restart s = R_ALWAYS) /\
               (same_word (trim r) "on-failure" -> restart s = R_ON_FAILURE) /\
               (~ same_word (trim r) "always" ->
                ~ same_word (trim r) "on-failure" -> restart s = R_NO)
           | None => restart s = R_NO
           end)
  /\ (has_value KName f && has_value KExecStart f = false ->
      parse_service_file (Some f) svcs = svcs).
Proof.
  intros Hroom.
  pose proof (field_has_value f KName (or_introl eq_refl)) as Hname.
  pose proof (field_has_value f KExecStart (or_intror eq_refl)) as Hexec.
  simpl in Hname, Hexec.
  split; [|split].
  - rewrite andb_true_iff, <- Hname, <- Hexec. split.
    + intros [s Hs]. apply parse_service_file_added in Hs. tauto.
    + intros [Hn He]. exists (make_service (parse_bufs f)).
      unfold parse_service_file.
      rewrite (bool_decide_eq_false_2 _ Hn), (bool_decide_eq_false_2 _ He).
      simpl. rewrite bool_decide_eq_false_2; [done | lia].
  - intros s Hs. apply parse_service_file_added in Hs as (-> & Hn & _ & _).
    split.
    + pose proof (parse_bufs_raw f KName) as E. simpl in E.
      destruct (raw_value KName f) as [n|]; [|done].
      exists n. split; [done|]. simpl. rewrite E. unfold strncpy.
      by rewrite take_take.
    + pose proof (parse_bufs_raw f KRestart) as E. simpl in E.
      pose proof (restart_of_spec _ (parse_bufs_nul_free f KRestart)) as Hr.
      simpl in Hr. simpl.
      destruct (raw_value KRestart f) as [r|] eqn:Er.
      * rewrite E, (raw_value_fits f KRestart r Er) in Hr |- *. exact Hr.
      * by rewrite E.
  - intros Hno. unfold parse_service_file.
    destruct (bool_decide_reflect (b_name (parse_bufs f) = [])) as [|Hn]; [done|].
    destruct (bool_decide_reflect (b_exec (parse_bufs f) = [])) as [|He]; [done|].
    exfalso. apply Hname in Hn. apply Hexec in He. by rewrite Hn, He in Hno.
Qed.

Lemma parse_file_when_room_witness :
  let f := lit "  Name =  web  
ExecStart	= /bin/true
Restart = Always
" in
  ((exists s, parse_service_file (Some f) [] = [] ++ [s])
     <-> has_value KName f && has_value KExecStart f = true)
  /\ (forall s, parse_service_file (Some f) [] = [] ++ [s] ->
        (exists n, raw_value KName f = Some n /\ name s = take 127 (trim n))
        /\ match raw_value KRestart f with
           | Some r =>
               (same_word (trim r) "always" -> restart s = R_ALWAYS) /\
               (same_word (trim r) "on-failure" -> restart s = R_ON_FAILURE) /\
               (~ same_word (trim r) "always" ->
                ~ same_word (trim r) "on-failure" -> restart s = R_NO)
           | None => restart s = R_NO
           end)
  /\ (has_value KName f && has_value KExecStart f = false ->
      parse_service_file (Some f) [] = []).
Proof.
  intros f. apply (parse_file_when_room f []). vm_compute. lia.
Defined.

(** A padded file, evaluated: the spaces and tabs around the keys and
    the values are gone, and the policy is read without regard to case. *)
Example padded_file_parsed :
  let f := lit "  Name =  web  
ExecStart	= /bin/true
Restart = Always
" in
  raw_value KName f = Some (lit "  web  
")
  /\ has_value KName f && has_value KExecStart f = true
  /\ parse_service_file (Some f) [] =
     [ {| name := lit "web"; execcmd := Some (lit "/bin/true");
          restart := R_ALWAYS; pid := 0; running := false;
          logfile := lit "/var/log/web.log" |} ].
Proof. vm_compute. repeat split; reflexivity. Qed.

(** A [Name] whose value is nothing but spaces is empty after trimming:
    the file adds no Service. *)
Example blank_name_no_service :
  let f := lit "Name=   
ExecStart=/bin/true
" in
  raw_value KName f = Some (lit "   
")
  /\ has_value KName f = false
  /\ parse_service_file (Some f) [] = [].
Proof. vm_compute. repeat split; reflexivity. Qed.

(** C3 as stated fails when the table is full. After 128 valid files
    have been loaded, one more file that gives [Name] and [ExecStart]
    values that are non-empty after trimming produces no Service. *)
Lemma full_table_drops_valid_file :
  let f := lit "Name=a
ExecStart=/bin/b
" in
  let e := {| d_is_dir := false; d_name := lit "a.conf"; d_file := Some f |} in
  let svcs := load_services (Some (replicate 128 e)) [] in
  length svcs = 128%nat
  /\ has_value KName f && has_value KExecStart f = true
  /\ ~ (exists s, parse_service_file (Some f) svcs = svcs ++ [s]).
Proof.
  intros f e svcs. split; [vm_compute; reflexivity|]. split.
  - vm_compute. reflexivity.
  - intros [s Hs].
    assert (parse_service_file (Some f) svcs = svcs) as E
      by (vm_compute; reflexivity).
    rewrite E in Hs. symmetry in Hs. by apply app_one_neq in Hs.
Qed.

(** ** Loading the directory *)

Lemma readdir_loop_spec entries svcs :
  readdir_loop entries svcs =
  svcs ++ take (MAX_SVC - length svcs) (valid_services entries).
Proof.
  unfold valid_services. remember MAX_SVC as cap eqn:Hcap. revert svcs.
  induction entries as [|e rest IH]; intros svcs; simpl.
  - by rewrite take_nil, app_nil_r.
  - unfold service_of_dirent at 1.
    destruct (d_is_dir e); [apply IH|].
    destruct (starts_with_dot (d_name e)); [apply IH|].
    destruct (d_file e) as [f|]; [|apply IH].
    rewrite parse_service_file_spec, IH.
    destruct (service_of_file f) as [s|]; [|done].
    rewrite <- Hcap. case_bool_decide as Hfull.
    + replace (cap - length svcs)%nat with 0%nat by lia. done.
    + rewrite length_app. simpl.
      replace (cap - length svcs)%nat with (S (cap - (length svcs + 1))) by lia.
      simpl. by rewrite <- app_assoc.
Qed.

(** C5. Loading a directory that holds more valid definitions than the
    table's capacity, into the empty table the program starts with,
    keeps exactly the first [MAX_SVC] of them in the order of
    enumeration; the later ones are dropped and nothing else happens. *)
Theorem load_keeps_first_MAX_SVC entries :
  (MAX_SVC < length (valid_services entries))%nat ->
  load_services (Some entries) [] = take MAX_SVC (valid_services entries)
  /\ length (load_services (Some entries) []) = MAX_SVC.
Proof.
  intros Hmore. unfold load_services. rewrite readdir_loop_spec.
  change (MAX_SVC - length (@nil service))%nat with MAX_SVC.
  rewrite app_nil_l. split; [done|]. rewrite length_take. lia.
Qed.

Lemma load_keeps_first_MAX_SVC_witness :
  let entries :=
    replicate 130 {| d_is_dir := false; d_name := lit "a.conf";
                     d_file := Some (lit "Name=a
ExecStart=/bin/a
") |} in
  load_services (Some entries) [] = take MAX_SVC (valid_services entries)
  /\ length (load_services (Some entries) []) = MAX_SVC.
Proof.
  intros entries. apply (load_keeps_first_MAX_SVC entries).
  apply Nat.ltb_lt. vm_compute. reflexivity.
Defined.

(** ** Running monadic code *)

Lemma bind_run {A B} (m : M A) (k : A -> M B) σ :
  (m ≫= k) σ =
  match m σ with
  | Ok a σ' => k a σ'
  | Halt h σ' => Halt h σ'
  | OutOfFuel σ' => OutOfFuel σ'
  end.
Proof. reflexivity. Qed.

Lemma bind_Ok {A B} (m : M A) (k : A -> M B) σ a σ' :
  m σ = Ok a σ' -> (m ≫= k) σ = k a σ'.
Proof. intros H. by rewrite bind_run, H. Qed.

Lemma emit_run e σ : emit e σ = Ok tt (log e σ).
Proof. reflexivity. Qed.

Lemma get_run σ : get σ = Ok σ σ.
Proof. reflexivity. Qed.

Lemma ret_run {A} (a : A) σ : ret a σ = Ok a σ.
Proof. reflexivity. Qed.

(** ** The kernel leaves the program's own data alone *)

Lemma same_program_refl σ : same_program σ σ.
Proof. by repeat split. Qed.

Lemma same_program_trans σ1 σ2 σ3 :
  same_program σ1 σ2 -> same_program σ2 σ3 -> same_program σ1 σ3.
Proof.
  intros (?&?&?&?) (?&?&?&?). repeat split; congruence.
Qed.

Lemma child_dies_frame d σ :
  same_program σ (child_dies d σ) /\ trace (child_dies d σ) = trace σ
  /\ sched (child_dies d σ) = sched σ /\ forks (child_dies d σ) = forks σ.
Proof.
  unfold child_dies. case_bool_decide; by repeat split.
Qed.

Lemma deliver_frame t σ :
  same_program σ (deliver t σ) /\ trace (deliver t σ) = trace σ
  /\ sched (deliver t σ) = sched σ /\ forks (deliver t σ) = forks σ.
Proof.
  unfold deliver.
  assert (forall ds σ0,
    let σ' := foldl (fun s d => child_dies d s) σ0 ds in
    same_program σ0 σ' /\ trace σ' = trace σ0 /\ sched σ' = sched σ0
    /\ forks σ' = forks σ0) as H.
  { induction ds as [|d ds IH]; intros σ0; simpl; [by repeat split|].
    destruct (child_dies_frame d σ0) as (H1 & H2 & H3 & H4).
    destruct (IH (child_dies d σ0)) as (H1' & H2' & H3' & H4').
    split; [by eapply same_program_trans|]. repeat split; congruence. }
  specialize (H (t_deaths t) σ). simpl in H.
  destruct (t_term t); [|done].
  destruct H as ((?&?&?&?) & ? & ? & ?). by repeat split.
Qed.

Lemma blocked_frame σ :
  same_program σ (blocked σ) /\ trace (blocked σ) = trace σ
  /\ forks (blocked σ) = forks σ.
Proof.
  unfold blocked. destruct (sched σ) as [|t rest]; [by repeat split|].
  destruct (deliver_frame t (set_sched rest σ)) as ((?&?&?&?) & ? & ? & ?).
  by repeat split.
Qed.

Lemma waitpid_nohang_frame p σ :
  let σ' := (waitpid_nohang p σ).2 in
  same_program σ σ' /\ trace σ' = trace σ /\ forks σ' = forks σ
  /\ sched σ' = sched σ /\ need_reap σ' = need_reap σ
  /\ terminate σ' = terminate σ.
Proof.
  unfold waitpid_nohang. destruct (p =? -1).
  - destruct (zombies σ) as [|[q st] rest]; [|by repeat split].
    destruct (alive σ); by repeat split.
  - destruct (take_zombie p (zombies σ)) as [[st rest]|]; [by repeat split|].
    case_bool_decide; by repeat split.
Qed.

Lemma sys_waitpid_run p σ :
  sys_waitpid p σ =
  Ok ((waitpid_nohang p σ).1) (log (EvWaitpid p (waitpid_nohang p σ).1.1) (waitpid_nohang p σ).2).
Proof.
  unfold sys_waitpid. by destruct (waitpid_nohang p σ) as [[r st] σ'].
Qed.

Lemma sys_kill_run target sig σ :
  sys_kill target sig σ = Ok tt (log (EvKill target sig) σ).
Proof. reflexivity. Qed.

Lemma set_entry_run i s σ :
  set_entry i s σ = Ok tt (set_services (<[i := s]> (services σ)) σ).
Proof. reflexivity. Qed.

Lemma sys_usleep_run u σ :
  sys_usleep u σ = Ok tt (blocked (log (EvUsleep u) σ)).
Proof. reflexivity. Qed.

Lemma sys_sleep_run u σ :
  sys_sleep u σ = Ok tt (blocked (log (EvSleep u) σ)).
Proof. reflexivity. Qed.

(** ** [stop_service] *)

Lemma poll_exit_run n p σ :
  exists σ' evs,
    poll_exit n p σ = Ok tt σ' /\ same_program σ σ'
    /\ trace σ' = trace σ ++ evs /\ List.filter is_syscall evs = evs
    /\ List.filter milestone evs = [].
Proof.
  revert σ. induction n as [|k IH]; intros σ; simpl.
  - exists σ, []. rewrite app_nil_r. by repeat split.
  - rewrite bind_run, sys_waitpid_run. cbn beta iota.
    destruct (waitpid_nohang_frame p σ) as (Hp & Ht & _).
    set (r := (waitpid_nohang p σ).1) in *.
    set (σ1 := (waitpid_nohang p σ).2) in *.
    destruct (r.1 =? p).
    + eexists _, [_]. split; [reflexivity|]. simpl. rewrite Ht.
      split; [|by repeat split]. destruct Hp as (?&?&?&?). by repeat split.
    + rewrite bind_run, sys_usleep_run.
      destruct (IH (blocked (log (EvUsleep 100000) (log (EvWaitpid p r.1) σ1))))
        as (σ' & evs & Hrun & Hp' & Ht' & Hs & Hm).
      destruct (blocked_frame (log (EvUsleep 100000) (log (EvWaitpid p r.1) σ1)))
        as (Hb & Hbt & _).
      exists σ', (EvWaitpid p r.1 :: EvUsleep 100000 :: evs).
      split; [done|]. split.
      { eapply same_program_trans; [|exact Hp'].
        eapply same_program_trans; [|exact Hb].
        destruct Hp as (?&?&?&?). by repeat split. }
      rewrite Ht', Hbt. simpl. rewrite Ht, <- !app_assoc. simpl.
      split; [done|]. split; [by rewrite Hs | done].
Qed.

Lemma mark_stopped_idle s : running s = false -> mark_stopped s = s.
Proof. destruct s. simpl. by intros ->. Qed.

Lemma stop_service_idle i σ :
  (forall s, services σ !! i = Some s -> running s = false) ->
  stop_service i σ = Ok tt (log (EvCall (Call_stop i)) σ).
Proof.
  intros Hidle. unfold stop_service.
  rewrite bind_run, emit_run. cbn beta iota. rewrite bind_run, get_run.
  cbn beta iota. change (services (log (EvCall (Call_stop i)) σ)) with (services σ).
  destruct (services σ !! i) as [s|] eqn:E; [|done].
  by rewrite (Hidle s eq_refl).
Qed.

Lemma insert_mark_stopped (svcs : list service) i s :
  svcs !! i = Some s ->
  <[i := mark_stopped s]> svcs = alter mark_stopped i svcs.
Proof.
  intros E. apply list_eq. intros j.
  rewrite list_lookup_alter, list_lookup_insert.
  destruct (decide (i = j)) as [<-|Hne].
  - rewrite decide_True; [by rewrite E|].
    split; [done|]. by eapply lookup_lt_Some.
  - rewrite decide_False; [done|]. tauto.
Qed.

Lemma alter_mark_stopped_idle (svcs : list service) i :
  (forall s, svcs !! i = Some s -> running s = false) ->
  alter mark_stopped i svcs = svcs.
Proof.
  intros H. apply list_eq. intros j. rewrite list_lookup_alter.
  destruct (decide (i = j)) as [<-|]; [|done].
  destruct (svcs !! i) as [s|] eqn:E; [|done].
  simpl. by rewrite mark_stopped_idle by by apply H.
Qed.

Lemma stop_service_run i σ :
  exists σ' evs,
    stop_service i σ = Ok tt σ'
    /\ trace σ' = trace σ ++ EvCall (Call_stop i) :: evs
    /\ List.filter milestone evs = []
    /\ services σ' = alter mark_stopped i (services σ)
    /\ open_fd σ' = open_fd σ /\ exec_ok σ' = exec_ok σ
    /\ access_x σ' = access_x σ.
Proof.
  assert ((forall s, services σ !! i = Some s -> running s = false) ->
          exists σ' evs,
            stop_service i σ = Ok tt σ'
            /\ trace σ' = trace σ ++ EvCall (Call_stop i) :: evs
            /\ List.filter milestone evs = []
            /\ services σ' = alter mark_stopped i (services σ)
            /\ open_fd σ' = open_fd σ /\ exec_ok σ' = exec_ok σ
            /\ access_x σ' = access_x σ) as Hidle.
  { intros Hidle. exists (log (EvCall (Call_stop i)) σ), [].
    rewrite stop_service_idle by done.
    repeat split; try done. simpl. by rewrite alter_mark_stopped_idle. }
  destruct (services σ !! i) as [s|] eqn:E; [|by apply Hidle].
  destruct (running s) eqn:Hrun; [|apply Hidle; by intros ? [= <-]].
  clear Hidle.
  unfold stop_service.
  rewrite bind_run, emit_run. cbn beta iota. rewrite bind_run, get_run.
  cbn beta iota. change (services (log (EvCall (Call_stop i)) σ)) with (services σ).
  rewrite E, Hrun. cbn [negb].
  rewrite bind_run, sys_kill_run. cbn beta iota.
  set (σ1 := log (EvKill (- pid s) SIGTERM) (log (EvCall (Call_stop i)) σ)).
  destruct (poll_exit_run 50 (pid s) σ1)
    as (σ2 & evs & Hpoll & (Hs2 & Ho2 & He2 & Ha2) & Ht2 & _ & Hm2).
  rewrite bind_run, Hpoll. cbn beta iota.
  rewrite bind_run, sys_waitpid_run. cbn beta iota.
  destruct (waitpid_nohang_frame (pid s) σ2) as ((Hs3 & Ho3 & He3 & Ha3) & Ht3 & _).
  set (r := (waitpid_nohang (pid s) σ2).1) in *.
  set (σ3 := (waitpid_nohang (pid s) σ2).2) in *.
  fold (mark_stopped s).
  destruct (r.1 =? pid s); cbn [negb when].
  - eexists _, _. rewrite bind_run, ret_run. cbn beta iota.
    rewrite bind_run, set_entry_run. cbn beta iota.
    rewrite emit_run. split; [reflexivity|]. cbn.
    rewrite Ht3, Ht2. cbn. rewrite <- !app_assoc. cbn.
    split; [reflexivity|]. split.
    { simpl. rewrite List.filter_app, Hm2. reflexivity. }
    rewrite Hs3, Hs2, Ho3, Ho2, He3, He2, Ha3, Ha2. cbn.
    split; [|done]. by apply insert_mark_stopped.
  - eexists _, _. rewrite bind_run, sys_kill_run. cbn beta iota.
    rewrite bind_run, set_entry_run. cbn beta iota.
    rewrite emit_run. split; [reflexivity|]. cbn.
    rewrite Ht3, Ht2. cbn. rewrite <- !app_assoc. cbn.
    split; [reflexivity|]. split.
    { simpl. rewrite List.filter_app, Hm2. reflexivity. }
    rewrite Hs3, Hs2, Ho3, Ho2, He3, He2, Ha3, Ha2. cbn.
    split; [|done]. by apply insert_mark_stopped.
Qed.

Lemma new_events_app {A} σ (o : outcome A) evs :
  trace (final_state o) = trace σ ++ evs -> new_events σ o = evs.
Proof. unfold new_events. intros ->. by rewrite drop_app_length. Qed.

Lemma poll_exit_S k p :
  poll_exit (S k) p =
  (w ← sys_waitpid p;
   if w.1 =? p then ret tt else sys_usleep 100000;; poll_exit k p).
Proof. reflexivity. Qed.

Lemma poll_exit_shape n p σ :
  exists σ' polls,
    poll_exit n p σ = Ok tt σ'
    /\ trace σ' = trace σ ++ polls
    /\ forallb (is_poll p) polls = true
    /\ (length (List.filter is_usleep polls) ≤ n)%nat
    /\ services σ' = services σ /\ forks σ' = forks σ.
Proof.
  revert σ. induction n as [|k IH]; intros σ.
  - exists σ, []. simpl. rewrite app_nil_r. by repeat split.
  - rewrite poll_exit_S, bind_run, sys_waitpid_run. cbn beta iota.
    destruct (waitpid_nohang_frame p σ) as ((Hs & _) & Ht & Hf & _).
    set (r := (waitpid_nohang p σ).1) in *.
    set (σ1 := (waitpid_nohang p σ).2) in *.
    destruct (r.1 =? p).
    + exists (log (EvWaitpid p r.1) σ1), [EvWaitpid p r.1]. rewrite ret_run.
      split; [reflexivity|]. cbn.
      rewrite Ht, Z.eqb_refl. repeat split; try done. lia.
    + rewrite bind_run, sys_usleep_run. cbn beta iota.
      match goal with |- context [poll_exit k p (blocked ?st)] => set (σ2 := st) end.
      destruct (blocked_frame σ2) as ((Hs2 & _) & Ht2 & Hf2).
      destruct (IH (blocked σ2)) as (σ' & polls & Hrun & Ht' & Hp & Hlen & Hs' & Hf').
      exists σ', (EvWaitpid p r.1 :: EvUsleep 100000 :: polls).
      split; [done|]. split.
      { rewrite Ht', Ht2. subst σ2. cbn. rewrite Ht. by rewrite <- !app_assoc. }
      split; [cbn; by rewrite Z.eqb_refl|].
      split; [simpl; lia|].
      split; [rewrite Hs', Hs2; subst σ2; cbn; exact Hs|].
      rewrite Hf', Hf2. subst σ2. cbn. exact Hf.
Qed.

Lemma stop_service_at i σ s :
  services σ !! i = Some s -> running s = true ->
  stop_service i σ =
  (sys_kill (- pid s) SIGTERM;;
   poll_exit 50 (pid s);;
   w ← sys_waitpid (pid s);
   when (negb (w.1 =? pid s)) (sys_kill (- pid s) SIGKILL);;
   set_entry i (with_runtime s (pid s) false);;
   emit (EvPrintf (Msg_stopped (name s) (pid s))))
    (log (EvCall (Call_stop i)) σ).
Proof.
  intros E Hrun. unfold stop_service.
  rewrite bind_run, emit_run. cbn beta iota. rewrite bind_run, get_run.
  cbn beta iota. change (services (log (EvCall (Call_stop i)) σ)) with (services σ).
  by rewrite E, Hrun.
Qed.

(** The termination sequence: what one call of [stop_service] does to a
    running entry. *)
Lemma stop_service_sequence i σ s :
  services σ !! i = Some s -> running s = true ->
  exists σ' polls r,
    stop_service i σ = Ok tt σ'
    /\ trace σ' = trace σ
       ++ EvCall (Call_stop i) :: EvKill (- pid s) SIGTERM :: polls
       ++ EvWaitpid (pid s) r
          :: (if r =? pid s then [] else [EvKill (- pid s) SIGKILL])
       ++ [EvPrintf (Msg_stopped (name s) (pid s))]
    /\ forallb (is_poll (pid s)) polls = true
    /\ (length (List.filter is_usleep polls) ≤ 50)%nat
    /\ services σ' = <[i := mark_stopped s]> (services σ).
Proof.
  intros E Hrun. rewrite (stop_service_at i σ s E Hrun).
  rewrite bind_run, sys_kill_run. cbn beta iota.
  set (σ1 := log (EvKill (- pid s) SIGTERM) (log (EvCall (Call_stop i)) σ)).
  destruct (poll_exit_shape 50 (pid s) σ1)
    as (σ2 & polls & Hpoll & Ht2 & Hp & Hlen & Hs2 & _).
  rewrite bind_run, Hpoll. cbn beta iota.
  rewrite bind_run, sys_waitpid_run. cbn beta iota.
  destruct (waitpid_nohang_frame (pid s) σ2) as ((Hs3 & _) & Ht3 & _).
  set (r := (waitpid_nohang (pid s) σ2).1) in *.
  set (σ3 := (waitpid_nohang (pid s) σ2).2) in *.
  fold (mark_stopped s).
  destruct (r.1 =? pid s) eqn:Hr; cbn [negb when].
  - eexists _, polls, r.1. rewrite bind_run, ret_run. cbn beta iota.
    rewrite bind_run, set_entry_run. cbn beta iota. rewrite emit_run.
    split; [reflexivity|]. rewrite Hr. split.
    { cbn. rewrite Ht3, Ht2. subst σ1. cbn. by rewrite <- !app_assoc. }
    split; [done|]. split; [done|]. cbn. by rewrite Hs3, Hs2.
  - eexists _, polls, r.1. rewrite bind_run, sys_kill_run. cbn beta iota.
    rewrite bind_run, set_entry_run. cbn beta iota. rewrite emit_run.
    split; [reflexivity|]. rewrite Hr. split.
    { cbn. rewrite Ht3, Ht2. subst σ1. cbn. by rewrite <- !app_assoc. }
    split; [done|]. split; [done|]. cbn. by rewrite Hs3, Hs2.
Qed.

(** C8. [stop_service] is idempotent. Called on a running entry, it
    performs the termination sequence: SIGTERM to the process group of
    the entry's pid, polls of that pid with at most 50 sleeps of 100 ms,
    one more query, SIGKILL to the group when that query does not return
    the pid, and the stop line; called on an entry that is not running
    it does nothing. Either way it returns with the entry marked not
    running. A second call right after it finds the entry not running
    and returns at once: it makes no system call and leaves the state as
    the first call left it (only the record of the call itself is added
    to the trace). The two calls together therefore perform the sequence
    once: their trace is the trace of the first call followed by the
    entry into the second, and for a running entry it holds one
    SIGTERM. *)
Theorem stop_service_twice i σ s :
  services σ !! i = Some s ->
  exists σ1 sequence,
    stop_service i σ = Ok tt σ1
    /\ new_events σ (stop_service i σ) = EvCall (Call_stop i) :: sequence
    /\ (if running s
        then exists polls r,
               sequence =
                 EvKill (- pid s) SIGTERM :: polls
                 ++ EvWaitpid (pid s) r
                    :: (if r =? pid s then [] else [EvKill (- pid s) SIGKILL])
                 ++ [EvPrintf (Msg_stopped (name s) (pid s))]
               /\ forallb (is_poll (pid s)) polls = true
               /\ (length (List.filter is_usleep polls) ≤ 50)%nat
        else sequence = [])
    /\ services σ1 = <[i := with_runtime s (pid s) false]> (services σ)
    /\ services σ1 !! i = Some (with_runtime s (pid s) false)
    /\ stop_service i σ1 = Ok tt (log (EvCall (Call_stop i)) σ1)
    /\ List.filter is_syscall (new_events σ1 (stop_service i σ1)) = []
    /\ (stop_service i;; stop_service i) σ = Ok tt (log (EvCall (Call_stop i)) σ1)
    /\ new_events σ ((stop_service i;; stop_service i) σ) =
       EvCall (Call_stop i) :: sequence ++ [EvCall (Call_stop i)]
    /\ List.filter is_syscall (new_events σ ((stop_service i;; stop_service i) σ)) =
       sequence
    /\ List.filter is_sigterm (new_events σ ((stop_service i;; stop_service i) σ)) =
       (if running s then [EvKill (- pid s) SIGTERM] else []).
Proof.
  intros E.
  assert (forall evs, forallb (is_poll (pid s)) evs = true ->
            List.filter is_syscall evs = evs /\ List.filter is_sigterm evs = [])
    as Hpolls.
  { induction evs as [|e evs IH]; [done|]. simpl.
    intros [He Hevs]%andb_true_iff. destruct (IH Hevs) as [IH1 IH2].
    destruct e; try done; simpl; rewrite ?IH1, ?IH2; done. }
  assert (exists σ1 sequence,
            stop_service i σ = Ok tt σ1
            /\ trace σ1 = trace σ ++ EvCall (Call_stop i) :: sequence
            /\ (if running s
                then exists polls r,
                       sequence =
                         EvKill (- pid s) SIGTERM :: polls
                         ++ EvWaitpid (pid s) r
                            :: (if r =? pid s then [] else [EvKill (- pid s) SIGKILL])
                         ++ [EvPrintf (Msg_stopped (name s) (pid s))]
                       /\ forallb (is_poll (pid s)) polls = true
                       /\ (length (List.filter is_usleep polls) ≤ 50)%nat
                else sequence = [])
            /\ services σ1 = <[i := mark_stopped s]> (services σ)
            /\ List.filter is_syscall sequence = sequence
            /\ List.filter is_sigterm sequence =
               (if running s then [EvKill (- pid s) SIGTERM] else []))
    as (σ1 & sequence & Hrun1 & Ht & Hseq & Hs & Hsys & Hterm).
  { destruct (running s) eqn:Hrun.
    - destruct (stop_service_sequence i σ s E Hrun)
        as (σ1 & polls & r & Hrun1 & Ht & Hp & Hlen & Hs).
      destruct (Hpolls polls Hp) as [Hsys Hterm].
      eexists σ1, _. split; [done|]. split; [exact Ht|].
      split; [by exists polls, r|]. split; [done|]. split.
      + cbn. rewrite !List.filter_app, Hsys. cbn.
        destruct (r =? pid s); cbn; by rewrite ?app_nil_r.
      + cbn. rewrite !List.filter_app, Hterm. cbn.
        destruct (r =? pid s); cbn; done.
    - exists (log (EvCall (Call_stop i)) σ), [].
      split; [apply stop_service_idle; rewrite E; by intros ? [= <-]|].
      split; [done|]. split; [done|]. split; [|done]. cbn.
      by rewrite mark_stopped_idle, list_insert_id. }
  exists σ1, sequence.
  assert (services σ1 !! i = Some (with_runtime s (pid s) false)) as Hi.
  { rewrite Hs. apply list_lookup_insert_eq. by eapply lookup_lt_Some. }
  assert (stop_service i σ1 = Ok tt (log (EvCall (Call_stop i)) σ1)) as H2.
  { apply stop_service_idle. intros s1. rewrite Hi. by intros [= <-]. }
  assert (new_events σ ((stop_service i;; stop_service i) σ) =
          EvCall (Call_stop i) :: sequence ++ [EvCall (Call_stop i)]) as Hboth.
  { rewrite bind_run, Hrun1, H2. apply new_events_app. cbn.
    by rewrite Ht, <- app_assoc. }
  split; [done|]. split; [rewrite Hrun1; by apply new_events_app|].
  split; [done|]. split; [done|]. split; [done|]. split; [done|]. split.
  { rewrite H2. by rewrite (new_events_app σ1 _ [EvCall (Call_stop i)]). }
  split; [by rewrite bind_run, Hrun1|]. split; [done|].
  rewrite Hboth. cbn. rewrite !List.filter_app, Hsys, Hterm. cbn.
  by rewrite !app_nil_r.
Qed.

Lemma stop_service_twice_witness :
  exists σ1 sequence,
    stop_service 0 ignores_sigterm = Ok tt σ1
    /\ new_events ignores_sigterm (stop_service 0 ignores_sigterm) =
       EvCall (Call_stop 0) :: sequence
    /\ (exists polls r,
          sequence =
            EvKill (- 7) SIGTERM :: polls
            ++ EvWaitpid 7 r
               :: (if r =? 7 then [] else [EvKill (- 7) SIGKILL])
            ++ [EvPrintf (Msg_stopped (lit "web") 7)]
          /\ forallb (is_poll 7) polls = true
          /\ (length (List.filter is_usleep polls) ≤ 50)%nat)
    /\ services σ1 = <[0%nat := svc "web" R_NO 7 false]> (services ignores_sigterm)
    /\ services σ1 !! 0%nat = Some (svc "web" R_NO 7 false)
    /\ stop_service 0 σ1 = Ok tt (log (EvCall (Call_stop 0)) σ1)
    /\ List.filter is_syscall (new_events σ1 (stop_service 0 σ1)) = []
    /\ (stop_service 0;; stop_service 0) ignores_sigterm =
       Ok tt (log (EvCall (Call_stop 0)) σ1)
    /\ new_events ignores_sigterm ((stop_service 0;; stop_service 0) ignores_sigterm) =
       EvCall (Call_stop 0) :: sequence ++ [EvCall (Call_stop 0)]
    /\ List.filter is_syscall
         (new_events ignores_sigterm ((stop_service 0;; stop_service 0) ignores_sigterm)) =
       sequence
    /\ List.filter is_sigterm
         (new_events ignores_sigterm ((stop_service 0;; stop_service 0) ignores_sigterm)) =
       [EvKill (- 7) SIGTERM].
Proof.
  apply (stop_service_twice 0 ignores_sigterm (svc "web" R_NO 7 true)).
  reflexivity.
Defined.

(** Two calls on the entry of [obeys_sigterm], evaluated: one SIGTERM,
    and nothing but the entry into the second call after the stop line. *)
Example stop_twice_one_sequence :
  new_events obeys_sigterm ((stop_service 0;; stop_service 0) obeys_sigterm) =
    [EvCall (Call_stop 0); EvKill (-7) SIGTERM;
     EvWaitpid 7 0; EvUsleep 100000; EvWaitpid 7 7; EvWaitpid 7 (-1);
     EvKill (-7) SIGKILL; EvPrintf (Msg_stopped (lit "web") 7);
     EvCall (Call_stop 0)].
Proof. vm_compute. reflexivity. Qed.

(** ** Shutdown *)

Lemma for_range_stop count i σ :
  exists σ' evs,
    for_range i count stop_service σ = Ok tt σ'
    /\ trace σ' = trace σ ++ evs
    /\ List.filter milestone evs = map (fun j => EvCall (Call_stop j)) (seq i count)
    /\ exec_ok σ' = exec_ok σ /\ access_x σ' = access_x σ.
Proof.
  revert i σ. induction count as [|k IH]; intros i σ; simpl.
  - exists σ, []. rewrite app_nil_r. by repeat split.
  - destruct (stop_service_run i σ) as (σ1 & evs1 & Hrun & Ht & Hm & _ & _ & He & Ha).
    destruct (IH (S i) σ1) as (σ2 & evs2 & Hrun2 & Ht2 & Hm2 & He2 & Ha2).
    exists σ2, (EvCall (Call_stop i) :: evs1 ++ evs2).
    rewrite bind_run, Hrun. split; [done|].
    rewrite Ht2, Ht, <- app_assoc. split; [done|].
    simpl. rewrite List.filter_app, Hm, Hm2. simpl.
    repeat split; congruence.
Qed.

(** C6. Once [terminate] is set, the supervise loop is left at its next
    test, and the shutdown runs in this order: [stop_service] is entered
    for every entry of the table, index 0 up to [nservices - 1], and all
    that these calls do comes first ([stops]); only then comes [sync];
    only after [sync] is the power-off helper looked for and, when
    found, executed. The process is replaced by the helper when that
    succeeds, and [main] returns 0 otherwise. *)
Theorem shutdown_order fuel σ :
  terminate σ = true ->
  main_supervise (S fuel) σ = main_shutdown σ
  /\ (exists stops,
        new_events σ (main_shutdown σ) =
          EvPrintf Msg_shutting_down :: stops
          ++ EvSync
             :: EvAccess POWEROFF (if access_x σ POWEROFF then 0 else -1)
             :: (if access_x σ POWEROFF
                 then [EvExecl POWEROFF [lit "poweroff"] (exec_ok σ POWEROFF)]
                 else [])
        /\ List.filter milestone stops =
           map (fun j => EvCall (Call_stop j)) (seq 0 (nservices σ)))
  /\ match main_shutdown σ with
     | Ok r _ => r = 0 /\ access_x σ POWEROFF && exec_ok σ POWEROFF = false
     | Halt h _ =>
         h = Execed POWEROFF [lit "poweroff"]
         /\ access_x σ POWEROFF && exec_ok σ POWEROFF = true
     | OutOfFuel _ => False
     end.
Proof.
  intros Hterm. split.
  { unfold main_supervise. simpl. rewrite !bind_run, get_run. cbn beta iota.
    by rewrite Hterm. }
  unfold main_shutdown.
  rewrite bind_run, emit_run. cbn beta iota. rewrite bind_run, get_run.
  cbn beta iota. unfold nservices at 1 3.
  change (services (log (EvPrintf Msg_shutting_down) σ)) with (services σ).
  destruct (for_range_stop (length (services σ)) 0 (log (EvPrintf Msg_shutting_down) σ))
    as (σ1 & evs & Hrun & Ht & Hm & He & Ha).
  rewrite bind_run, Hrun. cbn beta iota.
  rewrite bind_run, emit_run. cbn beta iota.
  unfold sys_access. rewrite !bind_run, get_run. cbn beta iota.
  rewrite bind_run, emit_run. cbn beta iota. rewrite ret_run.
  change (access_x (log EvSync σ1)) with (access_x σ1).
  fold POWEROFF. rewrite Ha. cbn [access_x log].
  destruct (access_x σ POWEROFF) eqn:Hacc; cbn [Z.eqb when].
  - rewrite bind_run. unfold sys_execl. cbn [exec_ok log].
    rewrite He. cbn [exec_ok log].
    destruct (exec_ok σ POWEROFF) eqn:Hex.
    + split; [|done]. exists evs. split; [|exact Hm].
      apply new_events_app. cbn. rewrite Ht. cbn. by rewrite <- !app_assoc.
    + rewrite ret_run. split; [|done]. exists evs. split; [|exact Hm].
      apply new_events_app. cbn. rewrite Ht. cbn. by rewrite <- !app_assoc.
  - rewrite bind_run, !ret_run. split; [|done]. exists evs. split; [|exact Hm].
    apply new_events_app. cbn. rewrite Ht. cbn. by rewrite <- !app_assoc.
Qed.

Lemma shutdown_order_witness :
  main_supervise 1 obeys_sigterm = main_shutdown obeys_sigterm
  /\ (exists stops,
        new_events obeys_sigterm (main_shutdown obeys_sigterm) =
          EvPrintf Msg_shutting_down :: stops
          ++ EvSync
             :: EvAccess POWEROFF (if access_x obeys_sigterm POWEROFF then 0 else -1)
             :: (if access_x obeys_sigterm POWEROFF
                 then [EvExecl POWEROFF [lit "poweroff"] (exec_ok obeys_sigterm POWEROFF)]
                 else [])
        /\ List.filter milestone stops =
           map (fun j => EvCall (Call_stop j)) (seq 0 (nservices obeys_sigterm)))
  /\ match main_shutdown obeys_sigterm with
     | Ok r _ =>
         r = 0 /\ access_x obeys_sigterm POWEROFF && exec_ok obeys_sigterm POWEROFF = false
     | Halt h _ =>
         h = Execed POWEROFF [lit "poweroff"]
         /\ access_x obeys_sigterm POWEROFF && exec_ok obeys_sigterm POWEROFF = true
     | OutOfFuel _ => False
     end.
Proof. apply (shutdown_order 0 obeys_sigterm). reflexivity. Defined.

(** ** The escalation of [stop_service] *)

(** C1, where the code departs from it. If the child of a running
    entry has terminated when [stop_service] polls for the first time,
    the poll releases it and the loop is left; the test after the loop
    asks the kernel about the same pid again, is told that there is no
    such child, and SIGKILL is sent to the process group all the same. *)
Theorem stop_kills_reaped_child i σ s st rest :
  services σ !! i = Some s -> running s = true -> pid s ≠ -1 ->
  take_zombie (pid s) (zombies σ) = Some (st, rest) ->
  take_zombie (pid s) rest = None -> pid s ∉ alive σ ->
  new_events σ (stop_service i σ) =
    [EvCall (Call_stop i); EvKill (- pid s) SIGTERM;
     EvWaitpid (pid s) (pid s); EvWaitpid (pid s) (-1);
     EvKill (- pid s) SIGKILL; EvPrintf (Msg_stopped (name s) (pid s))].
Proof.
  intros E Hrun Hp Hz Hrest Halive.
  apply new_events_app. unfold stop_service.
  rewrite bind_run, emit_run. cbn beta iota. rewrite bind_run, get_run.
  cbn beta iota. change (services (log (EvCall (Call_stop i)) σ)) with (services σ).
  rewrite E, Hrun. cbn [negb].
  rewrite bind_run, sys_kill_run. cbn beta iota.
  change 50%nat with (S 49). rewrite poll_exit_S.
  rewrite !bind_run, sys_waitpid_run. cbn beta iota.
  unfold waitpid_nohang at 1 2 3. cbn [zombies alive log].
  rewrite (proj2 (Z.eqb_neq _ _) Hp), Hz. cbn [fst snd].
  rewrite Z.eqb_refl, ret_run.
  rewrite bind_run, sys_waitpid_run. cbn beta iota.
  unfold waitpid_nohang. cbn [zombies alive log set_children].
  rewrite (proj2 (Z.eqb_neq _ _) Hp), Hrest.
  rewrite bool_decide_eq_false_2 by done. cbn [fst snd].
  assert ((-1 =? pid s) = false) as -> by (apply Z.eqb_neq; congruence).
  cbn [negb when]. rewrite bind_run, sys_kill_run. cbn beta iota.
  rewrite bind_run, set_entry_run. cbn beta iota. rewrite emit_run.
  cbn. by rewrite <- !app_assoc.
Qed.

Lemma stop_kills_reaped_child_witness :
  new_events reaped_early (stop_service 0 reaped_early) =
    [EvCall (Call_stop 0); EvKill (-7) SIGTERM;
     EvWaitpid 7 7; EvWaitpid 7 (-1);
     EvKill (-7) SIGKILL; EvPrintf (Msg_stopped (lit "web") 7)].
Proof.
  apply (stop_kills_reaped_child 0 reaped_early (svc "web" R_NO 7 true) 15 []).
  - reflexivity.
  - reflexivity.
  - simpl. lia.
  - reflexivity.
  - reflexivity.
  - simpl. apply not_elem_of_nil.
Defined.

(** The same happens to a child that obeys SIGTERM within the first
    100 ms: its termination is seen by the second poll, and SIGKILL
    follows. *)
Example stop_kills_child_that_obeyed :
  new_events obeys_sigterm (stop_service 0 obeys_sigterm) =
    [EvCall (Call_stop 0); EvKill (-7) SIGTERM;
     EvWaitpid 7 0; EvUsleep 100000; EvWaitpid 7 7; EvWaitpid 7 (-1);
     EvKill (-7) SIGKILL; EvPrintf (Msg_stopped (lit "web") 7)].
Proof. vm_compute. reflexivity. Qed.

(** Scenario D of the specification, evaluated: a child that ignores
    SIGTERM is polled 50 times, then sent SIGKILL, and the entry is
    marked not running. *)
Example stop_escalates_when_ignored :
  let o := stop_service 0 (set_sched [] obeys_sigterm) in
  List.filter (fun e => match e with EvKill _ _ => true | _ => false end)
    (new_events (set_sched [] obeys_sigterm) o)
    = [EvKill (-7) SIGTERM; EvKill (-7) SIGKILL]
  /\ length (List.filter (fun e => match e with EvUsleep _ => true | _ => false end)
               (new_events (set_sched [] obeys_sigterm) o)) = 50%nat
  /\ running <$> services (final_state o) = [false].
Proof. vm_compute. repeat split; reflexivity. Qed.

(** ** [handle_reaped] *)

Lemma find_running_None p i l :
  (forall s, s ∈ l -> running s = true -> pid s ≠ p) ->
  find_running p i l = None.
Proof.
  revert i. induction l as [|s l IH]; intros i H; simpl; [done|].
  destruct (running s) eqn:Hr; simpl.
  - rewrite (proj2 (Z.eqb_neq _ _)); [|apply H; [by left | done]].
    apply IH. intros s' Hs'. apply H. by right.
  - apply IH. intros s' Hs'. apply H. by right.
Qed.

Lemma find_running_Some p k l i s :
  find_running p k l = Some (i, s) ->
  (k ≤ i)%nat /\ l !! (i - k)%nat = Some s /\ running s = true /\ pid s = p.
Proof.
  revert k. induction l as [|s0 l IH]; intros k; simpl; [done|].
  destruct (running s0 && (pid s0 =? p)) eqn:Hc.
  - intros [= <- <-]. apply andb_true_iff in Hc as [Hr Hp].
    apply Z.eqb_eq in Hp. rewrite Nat.sub_diag. by repeat split.
  - intros H. apply IH in H as (Hle & Hl & Hr & Hp).
    split; [lia|]. split; [|done].
    replace (i - k)%nat with (S (i - S k)) by lia. done.
Qed.

(** C9. When the pid matches no entry that is marked running,
    [handle_reaped] returns without touching anything: every entry of
    the table (name, command, policy, pid, running flag, log path) and
    the size of the table are as before, and no system call is made. *)
Theorem handle_reaped_orphan p status σ :
  (forall s, s ∈ services σ -> running s = true -> pid s ≠ p) ->
  handle_reaped p status σ = Ok tt (log (EvCall (Call_handle_reaped p status)) σ)
  /\ services (final_state (handle_reaped p status σ)) = services σ
  /\ nservices (final_state (handle_reaped p status σ)) = nservices σ
  /\ List.filter is_syscall (new_events σ (handle_reaped p status σ)) = [].
Proof.
  intros Hno.
  assert (handle_reaped p status σ =
          Ok tt (log (EvCall (Call_handle_reaped p status)) σ)) as E.
  { unfold handle_reaped.
    rewrite bind_run, emit_run. cbn beta iota. rewrite bind_run, get_run.
    cbn beta iota.
    change (services (log (EvCall (Call_handle_reaped p status)) σ))
      with (services σ).
    by rewrite find_running_None. }
  rewrite E. repeat split.
  by rewrite (new_events_app σ _ [EvCall (Call_handle_reaped p status)]).
Qed.

Lemma handle_reaped_orphan_witness :
  handle_reaped 99 0 obeys_sigterm =
    Ok tt (log (EvCall (Call_handle_reaped 99 0)) obeys_sigterm)
  /\ services (final_state (handle_reaped 99 0 obeys_sigterm)) = services obeys_sigterm
  /\ nservices (final_state (handle_reaped 99 0 obeys_sigterm)) = nservices obeys_sigterm
  /\ List.filter is_syscall (new_events obeys_sigterm (handle_reaped 99 0 obeys_sigterm)) = [].
Proof.
  apply (handle_reaped_orphan 99 0 obeys_sigterm).
  intros s Hs _. apply list_elem_of_singleton in Hs. subst s. simpl. lia.
Defined.

(** ** [start_service] *)

(** C7. In the child that [fork] creates inside [start_service], a
    failed [execl] is followed by [_exit(127)] and nothing else: the
    process is gone with status 127, whatever code was to run after
    [start_service] returned is never run, and the table is as it was
    at the [fork]. *)
Theorem exec_failure_exits_127 {B} i σ s cmd rest (k : unit -> M B) :
  services σ !! i = Some s -> execcmd s = Some cmd ->
  forks σ = 0 :: rest -> exec_ok σ (lit "/bin/sh") = false ->
  exists σ' evs,
    (start_service i ≫= k) σ = Halt (Exited 127) σ'
    /\ services σ' = services σ
    /\ trace σ' = trace σ ++ EvCall (Call_start i) :: EvFork 0 :: evs ++
         [EvExecl (lit "/bin/sh") [lit "sh"; lit "-c"; cmd] false;
          EvPerror (lit "execl"); EvExit 127]
    /\ List.filter milestone evs = [].
Proof.
  intros E Hcmd Hfork Hexec.
  rewrite bind_run.
  unfold start_service.
  rewrite bind_run, emit_run. cbn beta iota. rewrite bind_run, get_run.
  cbn beta iota.
  change (services (log (EvCall (Call_start i)) σ)) with (services σ).
  rewrite E, Hcmd. rewrite bind_run. unfold sys_fork.
  change (forks (log (EvCall (Call_start i)) σ)) with (forks σ).
  rewrite Hfork. cbn beta iota. cbn [Z.ltb Z.eqb Z.compare].
  unfold sys_open, sys_execl, sys_exit, when, emit, modify, get, ret,
    mbind, M_bind, mret, M_ret.
  destruct (0 <=? open_fd σ (lit "/dev/null")) eqn:H1;
    destruct (0 <=? open_fd σ (logfile s)) eqn:H2;
    try destruct (2 <? open_fd σ (logfile s)) eqn:H3;
    (eexists _,
       (EvOpen (lit "/dev/null") (open_fd σ (lit "/dev/null"))
        :: (if 0 <=? open_fd σ (lit "/dev/null")
            then [EvDup2 (open_fd σ (lit "/dev/null")) 0;
                  EvClose (open_fd σ (lit "/dev/null"))]
            else [])
        ++ EvOpen (logfile s) (open_fd σ (logfile s))
        :: (if 0 <=? open_fd σ (logfile s)
            then EvDup2 (open_fd σ (logfile s)) 1
                 :: EvDup2 (open_fd σ (logfile s)) 2
                 :: (if 2 <? open_fd σ (logfile s)
                     then [EvClose (open_fd σ (logfile s))] else [])
            else [])
        ++ [EvSetsid]));
    repeat (cbn -[lit Z.leb Z.ltb]; rewrite ?H1, ?H2, ?H3, ?Hexec);
    (split; [reflexivity|]); (split; [reflexivity|]);
    cbn -[lit]; rewrite <- ?app_assoc; (split; reflexivity).
Qed.

Lemma exec_failure_exits_127_witness :
  exists σ' evs,
    (start_service 0 ≫= fun _ => main_shutdown) exec_fails = Halt (Exited 127) σ'
    /\ services σ' = services exec_fails
    /\ trace σ' = trace exec_fails ++ EvCall (Call_start 0) :: EvFork 0 :: evs ++
         [EvExecl (lit "/bin/sh") [lit "sh"; lit "-c"; lit "/bin/true"] false;
          EvPerror (lit "execl"); EvExit 127]
    /\ List.filter milestone evs = [].
Proof.
  apply (exec_failure_exits_127 0 exec_fails (svc "web" R_ALWAYS 0 false)
           (lit "/bin/true") [] (fun _ => main_shutdown)); reflexivity.
Defined.

(** Every call of [start_service] on an entry with a command forks
    exactly once, right at its start. *)
Lemma start_service_events i σ s cmd :
  services σ !! i = Some s -> execcmd s = Some cmd ->
  exists r tl,
    trace (final_state (start_service i σ)) =
      trace σ ++ EvCall (Call_start i) :: EvFork r :: tl
    /\ List.filter is_relaunch tl = [].
Proof.
  intros E Hcmd. unfold start_service.
  rewrite bind_run, emit_run. cbn beta iota. rewrite bind_run, get_run.
  cbn beta iota.
  change (services (log (EvCall (Call_start i)) σ)) with (services σ).
  rewrite E, Hcmd. rewrite bind_run. unfold sys_fork.
  change (forks (log (EvCall (Call_start i)) σ)) with (forks σ).
  unfold set_entry, sys_open, sys_execl, sys_exit, when, emit, modify, get,
    ret, mbind, M_bind, mret, M_ret.
  destruct (forks σ) as [|r rest].
  { eexists _, _. cbn -[lit]. rewrite <- ?app_assoc. cbn -[lit].
    split; reflexivity. }
  cbn beta iota zeta.
  destruct (r <? 0) eqn:Hneg.
  { destruct (0 <? r); [|destruct (r =? 0)];
      eexists _, _; cbn -[lit]; rewrite <- ?app_assoc; cbn -[lit];
      split; reflexivity. }
  destruct (r =? 0) eqn:Hzero; cycle 1.
  { destruct (0 <? r);
      eexists _, _; cbn -[lit]; rewrite <- ?app_assoc; cbn -[lit];
      split; reflexivity. }
  destruct (0 <? r);
    destruct (0 <=? open_fd σ (lit "/dev/null")) eqn:H1;
    destruct (0 <=? open_fd σ (logfile s)) eqn:H2;
    try destruct (2 <? open_fd σ (logfile s)) eqn:H3;
    destruct (exec_ok σ (lit "/bin/sh")) eqn:H4;
    eexists _, _;
    repeat (cbn -[lit Z.leb Z.ltb]; rewrite ?H1, ?H2, ?H3, ?H4);
    cbn -[lit]; rewrite <- ?app_assoc; cbn -[lit]; split; reflexivity.
Qed.

Lemma handle_reaped_events p status σ i s cmd :
  find_running p 0 (services σ) = Some (i, s) -> execcmd s = Some cmd ->
  exists r tl,
    new_events σ (handle_reaped p status σ) =
      EvCall (Call_handle_reaped p status)
      :: EvPrintf (Msg_exited (name s) p status)
      :: (if wants_restart (restart s) (exitcode_of status)
          then EvSleep 1 :: EvCall (Call_start i) :: EvFork r :: tl
          else [])
    /\ List.filter is_relaunch tl = [].
Proof.
  intros Hfind Hcmd.
  pose proof (find_running_Some _ _ _ _ _ Hfind) as (_ & E & _ & _).
  rewrite Nat.sub_0_r in E.
  unfold handle_reaped.
  rewrite bind_run, emit_run. cbn beta iota. rewrite bind_run, get_run.
  cbn beta iota.
  change (services (log (EvCall (Call_handle_reaped p status)) σ))
    with (services σ).
  rewrite Hfind. rewrite bind_run, set_entry_run. cbn beta iota.
  rewrite bind_run, emit_run. cbn beta iota.
  destruct (wants_restart (restart s) (exitcode_of status)); cbn [when].
  - rewrite bind_run, sys_sleep_run. cbn beta iota.
    match goal with |- context [start_service i (blocked ?st)] => set (σ3 := st) end.
    destruct (blocked_frame σ3) as ((Hs & _) & Hbt & _).
    destruct (start_service_events i (blocked σ3) (mark_stopped s) cmd)
      as (r & tl & Ht & Hq).
    { rewrite Hs. subst σ3. cbn. apply list_lookup_insert_eq.
      by eapply lookup_lt_Some. }
    { done. }
    exists r, tl. split; [|done]. apply new_events_app. rewrite Ht, Hbt.
    subst σ3. cbn. by rewrite <- !app_assoc.
  - exists 0, []. split; [|done]. apply new_events_app.
    rewrite ret_run. cbn. by rewrite <- !app_assoc.
Qed.

Lemma exited_not_signaled status :
  WIFEXITED status = true -> WIFSIGNALED status = false.
Proof.
  unfold WIFEXITED, WIFSIGNALED, WTERMSIG. intros H%Z.eqb_eq. by rewrite H.
Qed.

Lemma exitcode_failed status :
  WIFEXITED status || WIFSIGNALED status = true ->
  negb (exitcode_of status =? 0) = true <-> failed status.
Proof.
  unfold exitcode_of, failed. intros Hterm.
  destruct (WIFEXITED status) eqn:Hex.
  - rewrite (exited_not_signaled _ Hex). rewrite negb_true_iff, Z.eqb_neq.
    split; [by right | by intros [|[_ ?]]].
  - simpl in Hterm. rewrite Hterm. split; [by left | done].
Qed.

(** C2. When the process of a running entry exits, [handle_reaped]
    applies the entry's policy ([s] is the entry the scan finds for the
    pid; it has a command, as every entry that was started has). Under
    [R_NO] it forks nothing. Under [R_ALWAYS] it relaunches exactly once
    whatever the status: it sleeps one second, enters [start_service]
    for that entry, which forks, and there is no other fork. Under
    [R_ON_FAILURE], for the status of a terminated child, it does the
    same exactly when the exit was abnormal (signaled) or the exit code
    was not zero, and forks nothing otherwise. *)
Theorem restart_policy_applied p status σ i s :
  find_running p 0 (services σ) = Some (i, s) ->
  is_Some (execcmd s) ->
  let evs := new_events σ (handle_reaped p status σ) in
  let once :=
    relaunches evs = 1%nat /\
    exists r tl,
      evs = [EvCall (Call_handle_reaped p status);
             EvPrintf (Msg_exited (name s) p status);
             EvSleep 1; EvCall (Call_start i); EvFork r] ++ tl
      /\ List.filter is_relaunch tl = [] in
  match restart s with
  | R_NO => relaunches evs = 0%nat
  | R_ALWAYS => once
  | R_ON_FAILURE =>
      WIFEXITED status || WIFSIGNALED status = true ->
      (once <-> failed status) /\ (~ failed status -> relaunches evs = 0%nat)
  end.
Proof.
  intros Hfind [cmd Hcmd] evs once.
  destruct (handle_reaped_events p status σ i s cmd Hfind Hcmd)
    as (r & tl & Hevs & Hq).
  fold evs in Hevs.
  assert (List.filter is_fork tl = []) as Hforks.
  { clear -Hq. induction tl as [|e tl IH]; [done|].
    simpl in *. destruct e as [[]| | | | | | | | | | | | | | |]; simpl in *;
      try discriminate; auto. }
  assert (wants_restart (restart s) (exitcode_of status) = true -> once) as Hyes.
  { intros Hw. rewrite Hw in Hevs. split.
    - unfold relaunches. rewrite Hevs. simpl. by rewrite Hforks.
    - exists r, tl. by rewrite Hevs. }
  assert (wants_restart (restart s) (exitcode_of status) = false ->
          relaunches evs = 0%nat) as Hno.
  { intros Hw. rewrite Hw in Hevs. unfold relaunches. by rewrite Hevs. }
  unfold wants_restart in Hyes, Hno.
  destruct (restart s); simpl in Hyes, Hno.
  - by apply Hno.
  - intros Hterm. pose proof (exitcode_failed status Hterm) as Hfail.
    destruct (negb (exitcode_of status =? 0)) eqn:Hcode.
    + split; [|intros Hn; exfalso; by apply Hn, Hfail].
      split; [intros _; by apply Hfail | intros _; by apply Hyes].
    + assert (~ failed status) as Hnf by (rewrite <- Hfail; done).
      split; [|intros _; by apply Hno].
      split; [|done]. intros [Hone _]. rewrite Hno in Hone; done.
  - by apply Hyes.
Qed.

Lemma restart_policy_applied_witness :
  let evs := new_events exits_1 (handle_reaped 7 256 exits_1) in
  let once :=
    relaunches evs = 1%nat /\
    exists r tl,
      evs = [EvCall (Call_handle_reaped 7 256);
             EvPrintf (Msg_exited (lit "web") 7 256);
             EvSleep 1; EvCall (Call_start 0%nat); EvFork r] ++ tl
      /\ List.filter is_relaunch tl = [] in
  (once <-> failed 256) /\ (~ failed 256 -> relaunches evs = 0%nat).
Proof.
  apply (restart_policy_applied 7 256 exits_1 0 (svc "web" R_ON_FAILURE 7 true)).
  - reflexivity.
  - eexists. reflexivity.
  - reflexivity.
Defined.

(** ** The drain *)

Lemma kstep_refl σ : kstep σ σ [].
Proof. unfold kstep. rewrite app_nil_r. by repeat (split; [first [done | lia]|]). Qed.

Lemma kstep_trans σ1 σ2 σ3 n1 n2 :
  kstep σ1 σ2 n1 -> kstep σ2 σ3 n2 -> kstep σ1 σ3 (n1 ++ n2).
Proof.
  intros (Hz1 & Hw1 & Hp1 & Hv1 & Hc1) (Hz2 & Hw2 & Hp2 & Hv2 & Hc2).
  split; [by rewrite Hz2, Hz1, app_assoc|].
  split; [lia|]. split; [auto|]. split; [auto|].
  intros H. destruct (Hc1 H) as [-> H']. by destruct (Hc2 H') as [-> ?].
Qed.

(** A step that changes neither the children, the oracle nor the
    schedule. *)
Lemma kstep_same σ σ' :
  zombies σ' = zombies σ -> alive σ' = alive σ -> forks σ' = forks σ ->
  sched σ' = sched σ -> kstep σ σ' [].
Proof.
  intros Hz Ha Hf Hs. unfold kstep, weight, pids_positive, parent_view.
  rewrite Hz, Ha, Hf, Hs, app_nil_r. by repeat (split; [first [done | lia]|]).
Qed.

Lemma filter_out_length (x : Z) (l : list Z) :
  x ∈ l -> (length (filter (fun q => q ≠ x) l) < length l)%nat.
Proof.
  induction l as [|y l IH]; [by intros ?%elem_of_nil|].
  intros Hx. rewrite filter_cons. destruct (decide (y ≠ x)) as [Hne|Heq].
  - simpl. apply elem_of_cons in Hx as [->|Hx]; [done|].
    specialize (IH Hx). lia.
  - simpl. pose proof (length_filter (fun q => q ≠ x) l). lia.
Qed.

Lemma kmove_refl σ : kmove σ σ [].
Proof. unfold kmove. rewrite app_nil_r. by repeat (split; [first [done | lia]|]). Qed.

Lemma kmove_trans σ1 σ2 σ3 n1 n2 :
  kmove σ1 σ2 n1 -> kmove σ2 σ3 n2 -> kmove σ1 σ3 (n1 ++ n2).
Proof.
  intros (Hz1 & Hw1 & Hp1 & Hf1 & Hs1) (Hz2 & Hw2 & Hp2 & Hf2 & Hs2).
  split; [by rewrite Hz2, Hz1, app_assoc|].
  split; [lia|]. split; [auto|]. split; congruence.
Qed.

Lemma child_dies_kmove d σ : exists new, kmove σ (child_dies d σ) new.
Proof.
  unfold child_dies. case_bool_decide as Hin.
  - exists [d]. unfold kmove, weight, pids_positive. cbn.
    rewrite length_app. cbn.
    pose proof (filter_out_length _ _ Hin).
    split; [done|]. split; [lia|]. split; [|done].
    intros [Hz Ha]. split.
    + apply Forall_app. split; [done|].
      apply Forall_singleton. rewrite Forall_forall in Ha. by apply Ha.
    + rewrite Forall_forall in Ha. apply Forall_forall.
      intros q [_ Hq]%list_elem_of_filter. by apply Ha.
  - exists []. apply kmove_refl.
Qed.

Lemma deliver_kmove t σ : exists new, kmove σ (deliver t σ) new.
Proof.
  unfold deliver.
  assert (forall ds σ0, exists new,
            kmove σ0 (foldl (fun s d => child_dies d s) σ0 ds) new) as H.
  { induction ds as [|d ds IH]; intros σ0; simpl.
    - exists []. apply kmove_refl.
    - destruct (child_dies_kmove d σ0) as [n1 H1].
      destruct (IH (child_dies d σ0)) as [n2 H2].
      exists (n1 ++ n2). by eapply kmove_trans. }
  destruct (H (t_deaths t) σ) as [new Hnew]. exists new.
  destruct (t_term t); [|done].
  destruct Hnew as (Hz & Hw & Hp & Hf & Hs).
  split; [exact Hz|]. split; [exact Hw|]. split; [exact Hp|].
  split; [exact Hf | exact Hs].
Qed.

Lemma blocked_kstep σ : exists new, kstep σ (blocked σ) new.
Proof.
  unfold blocked. destruct (sched σ) as [|t rest] eqn:Hs.
  { exists []. apply kstep_refl. }
  destruct (deliver_kmove t (set_sched rest σ)) as (new & Hz & Hw & Hp & Hf & _).
  exists new. split; [done|]. split; [done|]. split; [done|].
  split; [|by rewrite Hs].
  unfold parent_view. by rewrite Hf.
Qed.

Lemma kstep_fork σ σ' r rest :
  forks σ = r :: rest -> r ≠ 0 ->
  zombies σ' = zombies σ ->
  alive σ' = (if 0 <? r then alive σ ++ [r] else alive σ) ->
  forks σ' = rest -> sched σ' = sched σ ->
  kstep σ σ' [].
Proof.
  intros Hf Hr Hz Ha Hf' Hs. unfold kstep, weight, pids_positive, parent_view.
  rewrite Hz, Ha, Hf', Hf, Hs, app_nil_r.
  split; [done|]. split.
  { destruct (0 <? r); rewrite ?length_app; simpl; lia. }
  split.
  { intros [H1 H2]. split; [done|].
    destruct (Z.ltb_spec 0 r); [|done].
    apply Forall_app. split; [done|]. by apply Forall_singleton. }
  split; [|done]. intros H. apply Forall_cons_1 in H. tauto.
Qed.

Lemma start_service_parent i σ :
  parent_view σ ->
  exists σ' evs,
    start_service i σ = Ok tt σ'
    /\ trace σ' = trace σ ++ evs /\ dispatched evs = []
    /\ kstep σ σ' [].
Proof.
  intros Hpv. unfold start_service.
  rewrite bind_run, emit_run. cbn beta iota. rewrite bind_run, get_run.
  cbn beta iota.
  change (services (log (EvCall (Call_start i)) σ)) with (services σ).
  destruct (services σ !! i) as [s|];
    [|exists (log (EvCall (Call_start i)) σ), [EvCall (Call_start i)];
      split; [done|]; split; [done|]; split; [done|]; by apply kstep_same].
  destruct (execcmd s) as [cmd|];
    [|exists (log (EvCall (Call_start i)) σ), [EvCall (Call_start i)];
      split; [done|]; split; [done|]; split; [done|]; by apply kstep_same].
  rewrite bind_run. unfold sys_fork.
  change (forks (log (EvCall (Call_start i)) σ)) with (forks σ).
  unfold set_entry, emit, modify, ret, mbind, M_bind, mret, M_ret.
  destruct (forks σ) as [|r rest] eqn:Hf.
  { eexists _, _. cbn -[lit]. split; [reflexivity|].
    cbn -[lit]. rewrite <- ?app_assoc. cbn -[lit]. split; [reflexivity|].
    split; [reflexivity|]. by apply kstep_same. }
  assert (r ≠ 0) as Hr by (unfold parent_view in Hpv; rewrite Hf in Hpv;
                           by apply Forall_cons_1 in Hpv as [? _]).
  cbn beta iota zeta.
  destruct (r <? 0) eqn:Hneg.
  { assert ((0 <? r) = false) as Hpos by lia. rewrite Hpos.
    assert ((r =? 0) = false) as -> by lia.
    eexists _, _. cbn -[lit]. split; [reflexivity|].
    cbn -[lit]. rewrite <- ?app_assoc. cbn -[lit]. split; [reflexivity|].
    split; [reflexivity|].
    apply (kstep_fork _ _ r rest); try done. by rewrite Hpos. }
  assert ((r =? 0) = false) as -> by lia.
  assert ((0 <? r) = true) as Hpos by lia. rewrite Hpos.
  eexists _, _. cbn -[lit]. split; [reflexivity|].
  cbn -[lit]. rewrite <- ?app_assoc. cbn -[lit]. split; [reflexivity|].
  split; [reflexivity|].
  apply (kstep_fork _ _ r rest); try done. by rewrite Hpos.
Qed.

Lemma handle_reaped_parent p status σ :
  parent_view σ ->
  exists σ' evs new,
    handle_reaped p status σ = Ok tt σ'
    /\ trace σ' = trace σ ++ EvCall (Call_handle_reaped p status) :: evs
    /\ dispatched evs = []
    /\ kstep σ σ' new.
Proof.
  intros Hpv. unfold handle_reaped.
  rewrite bind_run, emit_run. cbn beta iota. rewrite bind_run, get_run.
  cbn beta iota.
  change (services (log (EvCall (Call_handle_reaped p status)) σ))
    with (services σ).
  destruct (find_running p 0 (services σ)) as [[i s]|].
  2:{ eexists _, [], []. split; [reflexivity|]. split; [done|].
      split; [done|]. by apply kstep_same. }
  rewrite bind_run, set_entry_run. cbn beta iota.
  rewrite bind_run, emit_run. cbn beta iota.
  destruct (wants_restart (restart s) (exitcode_of status)); cbn [when].
  - rewrite bind_run, sys_sleep_run. cbn beta iota.
    match goal with |- context [start_service i (blocked ?st)] => set (σ3 := st) end.
    destruct (blocked_kstep σ3) as [new Hb].
    destruct (blocked_frame σ3) as (_ & Hbt & _).
    assert (kstep σ σ3 []) as H3 by (by apply kstep_same).
    pose proof (kstep_trans _ _ _ _ _ H3 Hb) as H4. simpl in H4.
    destruct (start_service_parent i (blocked σ3)) as (σ' & evs & Hrun & Ht & Hd & Hk).
    { destruct H4 as (_ & _ & _ & Hv & _). by apply Hv. }
    pose proof (kstep_trans _ _ _ _ _ H4 Hk) as H5. rewrite app_nil_r in H5.
    exists σ', (EvPrintf (Msg_exited (name s) p status) :: EvSleep 1 :: evs), new.
    split; [done|]. split.
    { rewrite Ht, Hbt. subst σ3. cbn. by rewrite <- !app_assoc. }
    split; [|done]. simpl. exact Hd.
  - eexists _, [_], []. rewrite ret_run. split; [reflexivity|].
    split; [cbn; by rewrite <- !app_assoc|]. split; [done|].
    by apply kstep_same.
Qed.

Lemma dispatched_app evs1 evs2 :
  dispatched (evs1 ++ evs2) = dispatched evs1 ++ dispatched evs2.
Proof. apply flat_map_app. Qed.

(** The loop around [waitpid(-1, ...)] stops because no terminated child
    is left, within the fuel [drain] gives it, and hands every child
    that had terminated when it began to [handle_reaped], in the
    kernel's order. *)
Lemma reap_loop_run k σ :
  pids_positive σ -> parent_view σ -> (weight σ ≤ k)%nat ->
  exists σ' evs extra,
    reap_loop (S k) σ = Ok tt σ'
    /\ trace σ' = trace σ ++ evs
    /\ dispatched evs = zombies σ ++ extra
    /\ zombies σ' = []
    /\ (sched σ = [] -> extra = []).
Proof.
  revert σ. induction k as [|k IH]; intros σ Hpos Hpv Hw.
  - (* no child at all *)
    unfold weight in Hw.
    destruct (zombies σ) as [|z zs] eqn:Hz; [|simpl in Hw; lia].
    destruct (alive σ) as [|a al] eqn:Ha; [|simpl in Hw; lia].
    change (reap_loop 1) with
      (w ← sys_waitpid (-1);
       if 0 <? w.1 then handle_reaped w.1 w.2;; reap_loop 0 else ret tt).
    rewrite bind_run, sys_waitpid_run. cbn beta iota.
    unfold waitpid_nohang. cbn [Z.eqb Z.opp Pos.eqb]. rewrite Hz, Ha.
    cbn [fst snd Z.ltb Z.compare]. rewrite ret_run.
    eexists _, [_], []. split; [reflexivity|]. split; [reflexivity|].
    split; [done|]. split; [cbn; by rewrite Hz | done].
  - change (reap_loop (S (S k))) with
      (w ← sys_waitpid (-1);
       if 0 <? w.1 then handle_reaped w.1 w.2;; reap_loop (S k) else ret tt).
    rewrite bind_run, sys_waitpid_run. cbn beta iota.
    unfold waitpid_nohang. cbn [Z.eqb Z.opp Pos.eqb].
    destruct (zombies σ) as [|[q st] rest] eqn:Hz.
    + destruct (alive σ) as [|a al] eqn:Ha; cbn [fst snd Z.ltb Z.compare];
        rewrite ret_run; eexists _, [_], [];
        (split; [reflexivity|]); (split; [reflexivity|]);
        (split; [done|]); (split; [cbn; by rewrite Hz | done]).
    + cbn [fst snd].
      assert (0 < q) as Hq.
      { destruct Hpos as [Hpz _]. rewrite Hz in Hpz.
        by apply Forall_cons_1 in Hpz as [? _]. }
      rewrite (proj2 (Z.ltb_lt 0 q) Hq).
      set (σ1 := log (EvWaitpid (-1) q) (set_children rest (alive σ) σ)).
      assert (pids_positive σ1) as Hpos1.
      { destruct Hpos as [Hpz Hpa]. rewrite Hz in Hpz.
        apply Forall_cons_1 in Hpz as [_ Hpz]. by split. }
      assert (weight σ1 ≤ k)%nat as Hw1.
      { unfold weight in *. rewrite Hz in Hw. simpl in *. lia. }
      destruct (handle_reaped_parent q st σ1 Hpv)
        as (σ2 & evs2 & new & Hrun2 & Ht2 & Hd2 & Hz2 & Hw2 & Hp2 & Hv2 & Hc2).
      rewrite bind_run, Hrun2.
      destruct (IH σ2) as (σ' & evs' & extra & Hrun & Ht & Hd & Hz' & Hc);
        [by apply Hp2 | by apply Hv2 | lia |].
      exists σ', (EvWaitpid (-1) q :: EvCall (Call_handle_reaped q st) :: evs2 ++ evs'),
        (new ++ extra).
      split; [done|]. split.
      { rewrite Ht, Ht2. subst σ1. cbn. by rewrite <- !app_assoc. }
      split.
      { change (dispatched (EvWaitpid (-1) q :: EvCall (Call_handle_reaped q st) :: evs2 ++ evs'))
          with ((q, st) :: dispatched (evs2 ++ evs')).
        rewrite dispatched_app, Hd2, Hd, Hz2. subst σ1. cbn.
        by rewrite <- app_assoc. }
      split; [done|].
      intros Hs. destruct (Hc2 Hs) as [-> Hs2]. by rewrite (Hc Hs2).
Qed.

Lemma sigchld_coalesce n σ :
  Nat.iter (S n) sigchld_handler σ = sigchld_handler σ.
Proof. induction n as [|n IH]; [done|]. simpl in *. by rewrite IH. Qed.

(** C4. However many notifications of child termination were coalesced
    into the one flag before the main loop looked at it, one pass
    (clear the flag, then call [waitpid(-1, ..., WNOHANG)] until it
    reports no terminated child) hands every child that had terminated
    by then to [handle_reaped], each once and in the kernel's order,
    followed only by children that terminated during the pass itself;
    the pass ends with no terminated child left. *)
Theorem drain_dispatches_all n σ :
  pids_positive σ -> parent_view σ ->
  let σ0 := Nat.iter (S n) sigchld_handler σ in
  exists σ' extra,
    reap_pass σ0 = Ok tt σ'
    /\ dispatched (new_events σ0 (reap_pass σ0)) = zombies σ ++ extra
    /\ zombies σ' = []
    /\ (sched σ = [] -> extra = []).
Proof.
  intros Hpos Hpv σ0. subst σ0. rewrite sigchld_coalesce.
  set (σ1 := set_need_reap false (sigchld_handler σ)).
  destruct (reap_loop_run (weight σ1) σ1)
    as (σ' & evs & extra & Hrun & Ht & Hd & Hz & Hc); [done | done | done |].
  assert (reap_pass (sigchld_handler σ) = Ok tt σ') as E.
  { unfold reap_pass. rewrite bind_run, get_run. cbn beta iota.
    cbn [need_reap sigchld_handler set_need_reap when].
    unfold modify at 1. rewrite bind_run. cbn beta iota.
    unfold drain. rewrite bind_run, get_run. cbn beta iota. exact Hrun. }
  rewrite E. exists σ', extra. split; [done|].
  split; [|by split].
  by rewrite (new_events_app _ _ evs).
Qed.

Lemma drain_dispatches_all_witness :
  let σ0 := Nat.iter 2 sigchld_handler two_exits in
  exists σ' extra,
    reap_pass σ0 = Ok tt σ'
    /\ dispatched (new_events σ0 (reap_pass σ0)) = zombies two_exits ++ extra
    /\ zombies σ' = []
    /\ (sched two_exits = [] -> extra = []).
Proof.
  apply (drain_dispatches_all 1 two_exits).
  - split; simpl; repeat constructor; simpl; lia.
  - simpl. repeat constructor. lia.
Defined.

(** Scenario E of the specification, evaluated: two notifications, one
    pass, both exits dispatched, and the entry with policy [R_ALWAYS]
    relaunched. *)
Example two_exits_one_pass :
  dispatched (new_events (Nat.iter 2 sigchld_handler two_exits)
                (reap_pass (Nat.iter 2 sigchld_handler two_exits)))
  = [(7, 256); (9, 0)].
Proof. vm_compute. reflexivity. Qed.

(** * Further properties of the code *)

(** ** [trim] *)

(** X1. [trim] leaves what it returns alone: trimming twice is trimming
    once. *)
Theorem trim_idempotent s : trim (trim s) = trim s.
Proof.
  unfold trim.
  assert (skip_blank (cut_trailing (skip_blank s)) = cut_trailing (skip_blank s)) as ->.
  { apply skip_blank_fixed. intros c r Hc.
    destruct (skip_blank s) as [|d t] eqn:E; [done|].
    destruct (cut_trailing_head (d :: t) d t _ eq_refl eq_refl) as [H0|[r' H1]].
    - by rewrite H0 in Hc.
    - rewrite H1 in Hc. injection Hc as <- _. by eapply skip_blank_head. }
  apply cut_trailing_fixed. intros c. apply cut_trailing_last.
Qed.

(** X2. [trim] returns a contiguous part of its argument: what it drops
    in front is spaces and tabs only, what it drops behind is newlines,
    carriage returns, spaces and tabs only, and what it keeps neither
    begins with a space or tab nor ends with one of the four. *)
Theorem trim_spec s :
  exists pre post,
    s = pre ++ trim s ++ post
    /\ Forall (fun c => is_blank c = true) pre
    /\ Forall (fun c => is_trailing c = true) post
    /\ (forall c, head (trim s) = Some c -> is_blank c = false)
    /\ (forall c, last (trim s) = Some c -> is_trailing c = false).
Proof.
  destruct (skip_blank_split s) as (pre & Hs & Hpre).
  destruct (cut_trailing_split (skip_blank s)) as (post & Ht & Hpost).
  exists pre, post. unfold trim. split; [by rewrite <- Ht|].
  split; [done|]. split; [done|]. split; [|apply cut_trailing_last].
  intros c Hc.
  destruct (skip_blank s) as [|d t] eqn:E; [done|].
  destruct (cut_trailing_head (d :: t) d t _ eq_refl eq_refl) as [H0|[r' H1]].
  - by rewrite H0 in Hc.
  - rewrite H1 in Hc. injection Hc as <-. by eapply skip_blank_head.
Qed.

(** ** One line of a service file *)

Lemma strchr_split_None c s : strchr_split c s = None <-> c ∉ s.
Proof.
  induction s as [|d s IH]; simpl.
  - split; [intros _; apply not_elem_of_nil | done].
  - destruct (Ascii.eqb_spec d c) as [->|Hne].
    + split; [done|]. intros H. exfalso. apply H. by left.
    + destruct (strchr_split c s) as [[k v]|].
      * split; [done|]. intros H. exfalso.
        assert (c ∉ s) as Hs by (intros ?; apply H; by right).
        by apply IH in Hs.
      * split; [|done]. intros _ [?|?]%elem_of_cons; [congruence|].
        by apply (proj1 IH).
Qed.

Lemma strchr_split_Some c s k v :
  strchr_split c s = Some (k, v) <-> s = k ++ c :: v /\ c ∉ k.
Proof.
  revert k. induction s as [|d s IH]; intros k; simpl.
  - split; [done|]. intros [H _]. by destruct k.
  - destruct (Ascii.eqb_spec d c) as [->|Hne].
    + split.
      * intros [= <- <-]. split; [done | apply not_elem_of_nil].
      * intros [H Hk]. destruct k as [|e k].
        -- simpl in H. by injection H as <-.
        -- simpl in H. injection H as <- _. exfalso. apply Hk. by left.
    + destruct (strchr_split c s) as [[k' v']|] eqn:E.
      * split.
        -- intros [= <- <-]. destruct (proj1 (IH k') eq_refl) as [-> Hk'].
           split; [done|]. intros [?|?]%elem_of_cons; [congruence | done].
        -- intros [H Hk]. destruct k as [|e k].
           { simpl in H. injection H as ? _. congruence. }
           simpl in H. injection H as <- H.
           assert (c ∉ k) as Hk2 by (intros ?; apply Hk; by right).
           pose proof (proj2 (IH k) (conj H Hk2)) as [= -> ->]. done.
      * split; [done|]. intros [H Hk]. destruct k as [|e k].
        { simpl in H. injection H as ? _. congruence. }
        simpl in H. injection H as <- H.
        assert (c ∉ k) as Hk2 by (intros ?; apply Hk; by right).
        by pose proof (proj2 (IH k) (conj H Hk2)).
Qed.

Lemma key_is_same_word key lower mixed :
  nul_free key -> nul_free (lit lower) -> nul_free (lit mixed) ->
  tolower <$> lit mixed = tolower <$> lit lower ->
  key_is key lower mixed = true <-> same_word key lower.
Proof.
  intros Hk Hl Hm Hcase. unfold key_is, same_word.
  rewrite orb_true_iff, !Z.eqb_eq.
  rewrite (strcasecmp_0 _ _ Hk Hl), (strcasecmp_0 _ _ Hk Hm), Hcase. tauto.
Qed.

Lemma key_is_word key :
  nul_free key ->
  (key_is key "name" "Name" = true <-> same_word key (key_word KName))
  /\ (key_is key "execstart" "ExecStart" = true <-> same_word key (key_word KExecStart))
  /\ (key_is key "restart" "Restart" = true <-> same_word key (key_word KRestart)).
Proof.
  intros Hk.
  repeat split; apply key_is_same_word; try done;
    vm_compute; by repeat constructor.
Qed.

Lemma key_words_differ key k k' :
  same_word key (key_word k) -> same_word key (key_word k') -> k = k'.
Proof.
  unfold same_word. intros -> H. destruct k, k'; try done; vm_compute in H; discriminate.
Qed.

Lemma split_key_nul_free line k v :
  cstr line = k ++ "="%char :: v -> nul_free (trim k).
Proof.
  intros H. pose proof (cstr_nul_free line) as Hn. rewrite H in Hn.
  apply Forall_app in Hn as [Hn _]. by apply trim_nul_free.
Qed.

(** X3. A line without an equals sign is ignored: the three buffers
    are as before. *)
Theorem parse_line_without_equals line b :
  "="%char ∉ cstr line -> parse_line line b = b.
Proof.
  intros H. unfold parse_line. by rewrite (proj2 (strchr_split_None _ _) H).
Qed.

Lemma parse_line_without_equals_witness :
  parse_line (lit "# just a remark
") bufs_init = bufs_init.
Proof.
  apply parse_line_without_equals. vm_compute.
  intros H. repeat (apply elem_of_cons in H as [H|H]; [discriminate|]).
  by apply elem_of_nil in H.
Defined.

(** X4. A line whose key, trimmed and compared without regard to case,
    is none of name, execstart and restart is ignored. *)
Theorem parse_line_unknown_key line k v b :
  cstr line = k ++ "="%char :: v -> "="%char ∉ k ->
  (forall w, ~ same_word (trim k) (key_word w)) ->
  parse_line line b = b.
Proof.
  intros Hline Hk Hunknown. unfold parse_line.
  rewrite (proj2 (strchr_split_Some _ _ _ _) (conj Hline Hk)).
  destruct (key_is_word (trim k) (split_key_nul_free _ _ _ Hline))
    as (H1 & H2 & H3).
  destruct (key_is (trim k) "name" "Name");
    [exfalso; by apply (Hunknown KName), H1|].
  destruct (key_is (trim k) "execstart" "ExecStart");
    [exfalso; by apply (Hunknown KExecStart), H2|].
  destruct (key_is (trim k) "restart" "Restart");
    [exfalso; by apply (Hunknown KRestart), H3|].
  done.
Qed.

Lemma parse_line_unknown_key_witness :
  parse_line (lit "User=root
") bufs_init = bufs_init.
Proof.
  apply (parse_line_unknown_key _ (lit "User") (lit "root
")).
  - vm_compute. reflexivity.
  - vm_compute. intros H.
    repeat (apply elem_of_cons in H as [H|H]; [discriminate|]).
    by apply elem_of_nil in H.
  - intros [] H; vm_compute in H; discriminate.
Defined.

(** X5. A line whose key is one of the three words, in any mix of
    upper and lower case and with spaces or tabs around it, stores the
    trimmed text after the first equals sign in the buffer of that key,
    cut to the buffer's capacity, and leaves the other two buffers as
    they were. *)
Theorem parse_line_known_key line k v w b :
  cstr line = k ++ "="%char :: v -> "="%char ∉ k ->
  same_word (trim k) (key_word w) ->
  field w (parse_line line b) = take (capacity w) (trim v)
  /\ forall w', w' ≠ w -> field w' (parse_line line b) = field w' b.
Proof.
  intros Hline Hk Hw. unfold parse_line.
  rewrite (proj2 (strchr_split_Some _ _ _ _) (conj Hline Hk)).
  destruct (key_is_word (trim k) (split_key_nul_free _ _ _ Hline))
    as (H1 & H2 & H3).
  destruct (key_is (trim k) "name" "Name") eqn:E1.
  { rewrite (key_words_differ _ _ _ Hw (proj1 H1 eq_refl)).
    split; [done|]. by intros []. }
  destruct (key_is (trim k) "execstart" "ExecStart") eqn:E2.
  { rewrite (key_words_differ _ _ _ Hw (proj1 H2 eq_refl)).
    split; [done|]. by intros []. }
  destruct (key_is (trim k) "restart" "Restart") eqn:E3.
  { rewrite (key_words_differ _ _ _ Hw (proj1 H3 eq_refl)).
    split; [done|]. by intros []. }
  exfalso. destruct w.
  - apply H1 in Hw. congruence.
  - apply H2 in Hw. congruence.
  - apply H3 in Hw. congruence.
Qed.

Lemma parse_line_known_key_witness :
  field KExecStart (parse_line (lit "  EXECstart	= /bin/sh -c 'a=b'
") bufs_init)
    = take (capacity KExecStart) (trim (lit " /bin/sh -c 'a=b'
"))
  /\ forall w', w' ≠ KExecStart ->
       field w' (parse_line (lit "  EXECstart	= /bin/sh -c 'a=b'
") bufs_init) = field w' bufs_init.
Proof.
  apply (parse_line_known_key _ (lit "  EXECstart	")).
  - vm_compute. reflexivity.
  - vm_compute. intros H.
    repeat (apply elem_of_cons in H as [H|H]; [discriminate|]).
    by apply elem_of_nil in H.
  - vm_compute. reflexivity.
Defined.

(** ** Files and directories *)

(** X6. A file in which no line assigns [Name], or no line assigns
    [ExecStart], adds nothing to the table. *)
Theorem missing_key_no_service f k svcs :
  k = KName \/ k = KExecStart ->
  (forall l, l ∈ file_lines f -> assigns k l = false) ->
  parse_service_file (Some f) svcs = svcs.
Proof.
  intros Hk Habs. pose proof (parse_bufs_absent f k Habs) as E.
  unfold parse_service_file.
  destruct Hk as [-> | ->]; simpl in E; rewrite E; simpl.
  - done.
  - by rewrite orb_true_r.
Qed.

Lemma missing_key_no_service_witness :
  parse_service_file (Some (lit "Name=half
Restart=always
")) [svc "web" R_NO 0 false] = [svc "web" R_NO 0 false].
Proof.
  apply (missing_key_no_service _ KExecStart); [by right|].
  intros l Hl. vm_compute in Hl.
  repeat (apply elem_of_cons in Hl as [->|Hl]; [vm_compute; reflexivity|]).
  by apply elem_of_nil in Hl.
Defined.

(** X7. Loading never touches what is in the table already: the old
    entries are the first entries of the new table, in the same order. *)
Theorem load_services_keeps_entries dir svcs :
  svcs `prefix_of` load_services dir svcs.
Proof.
  destruct dir as [entries|]; simpl; [|done].
  rewrite readdir_loop_spec. by apply prefix_app_r.
Qed.

(** X8. Loading never writes past the end of the table: a table of at
    most [MAX_SVC] entries has at most [MAX_SVC] entries afterwards,
    whatever the directory holds. *)
Theorem load_services_bounded dir svcs :
  (length svcs ≤ MAX_SVC)%nat ->
  (length (load_services dir svcs) ≤ MAX_SVC)%nat.
Proof.
  intros H. destruct dir as [entries|]; simpl; [|done].
  rewrite readdir_loop_spec, length_app, length_take. lia.
Qed.

Lemma load_services_bounded_witness :
  (length (load_services (Some sample_dir) [svc "web" R_NO 0 false]) ≤ MAX_SVC)%nat.
Proof. apply load_services_bounded. vm_compute. lia. Defined.

(** X9. When the directory holds no more valid definitions than the
    table has room for, all of them are loaded, in the order of
    enumeration. *)
Theorem load_all_when_room entries svcs :
  (length svcs + length (valid_services entries) ≤ MAX_SVC)%nat ->
  load_services (Some entries) svcs = svcs ++ valid_services entries.
Proof.
  intros H. simpl. rewrite readdir_loop_spec. f_equal.
  apply take_ge. lia.
Qed.

Lemma load_all_when_room_witness :
  load_services (Some sample_dir) [] = [] ++ valid_services sample_dir.
Proof. apply load_all_when_room. vm_compute. lia. Defined.

(** X10. Subdirectories and entries whose name begins with a dot do
    not count: loading a directory is loading its other entries. *)
Theorem load_services_skips entries svcs :
  load_services (Some entries) svcs =
  load_services (Some (List.filter is_candidate entries)) svcs.
Proof.
  simpl. revert svcs. induction entries as [|e rest IH]; intros svcs; [done|].
  simpl. unfold is_candidate at 1.
  destruct (d_is_dir e) eqn:Hd; simpl; [apply IH|].
  destruct (starts_with_dot (d_name e)) eqn:Hn; simpl; [apply IH|].
  rewrite Hd, Hn. apply IH.
Qed.

Lemma parse_bufs_name_length f : (length (b_name (parse_bufs f)) ≤ 127)%nat.
Proof.
  rewrite parse_bufs_lines.
  assert (length (b_name bufs_init) ≤ 127)%nat as Hinit by (simpl; lia).
  revert Hinit. generalize bufs_init.
  induction (file_lines f) as [|l lines IH]; intros b Hb; simpl; [done|].
  apply IH. rewrite parse_line_assign.
  destruct (line_assign l) as [[[] v]|]; simpl; try done.
  unfold strncpy. rewrite length_take. lia.
Qed.

Lemma make_service_fresh f :
  b_name (parse_bufs f) ≠ [] -> b_exec (parse_bufs f) ≠ [] ->
  fresh_entry (make_service (parse_bufs f)).
Proof.
  intros Hn He. pose proof (parse_bufs_name_length f) as Hlen.
  pose proof (parse_bufs_nul_free f KName) as Hnul. simpl in Hnul.
  assert (strncpy (128 - 1) (b_name (parse_bufs f)) = b_name (parse_bufs f)) as En.
  { unfold strncpy. apply take_ge. simpl. lia. }
  unfold fresh_entry, make_service. cbn [name execcmd pid running logfile].
  rewrite En. split; [done|]. split; [done|]. split; [done|].
  split; [by intros cmd [= <-]|]. split; [done|]. split; [done|].
  unfold snprintf. apply take_ge.
  rewrite !length_app.
  change (length LOGDIR) with 8%nat. change (length (lit "/")) with 1%nat.
  change (length (lit ".log")) with 4%nat. simpl. lia.
Qed.

(** X11. Every entry that loading puts into the empty table has a
    non-empty name of at most 127 characters without a NUL, pid 0, is
    not marked running, and has the log path [/var/log/<name>.log],
    uncut; the command it points to, when the pointer is not NULL, is
    not the empty string. *)
Theorem loaded_entries_fresh dir s :
  s ∈ load_services dir [] -> fresh_entry s.
Proof.
  destruct dir as [entries|]; simpl; [|by intros ?%elem_of_nil].
  rewrite readdir_loop_spec, app_nil_l.
  intros Hs. apply subseteq_take in Hs. unfold valid_services in Hs.
  apply list_elem_of_omap in Hs as (e & _ & He).
  unfold service_of_dirent in He.
  destruct (d_is_dir e); [done|]. destruct (starts_with_dot (d_name e)); [done|].
  destruct (d_file e) as [f|]; [|done].
  unfold service_of_file in He.
  destruct (bool_decide_reflect (b_name (parse_bufs f) = [])) as [|Hn]; [done|].
  destruct (bool_decide_reflect (b_exec (parse_bufs f) = [])) as [|Hx]; [done|].
  simpl in He. injection He as <-. by apply make_service_fresh.
Qed.

Lemma loaded_entries_fresh_witness :
  fresh_entry (svc "web" R_ALWAYS 0 false).
Proof.
  apply (loaded_entries_fresh (Some sample_dir)).
  vm_compute. by left.
Defined.

(** ** [start_service], case by case *)

Lemma start_service_at i σ s cmd :
  services σ !! i = Some s -> execcmd s = Some cmd ->
  start_service i σ =
  (r ← sys_fork;
   if r <? 0 then emit (EvPerror (lit "fork"))
   else if r =? 0 then
     fdnull ← sys_open (lit "/dev/null");
     when (0 <=? fdnull) (emit (EvDup2 fdnull 0);; emit (EvClose fdnull));;
     fdlog ← sys_open (logfile s);
     when (0 <=? fdlog)
       (emit (EvDup2 fdlog 1);; emit (EvDup2 fdlog 2);;
        when (2 <? fdlog) (emit (EvClose fdlog)));;
     emit EvSetsid;;
     sys_execl (lit "/bin/sh") [lit "sh"; lit "-c"; cmd];;
     emit (EvPerror (lit "execl"));;
     sys_exit 127
   else
     set_entry i (with_runtime s r true);;
     emit (EvPrintf (Msg_started (name s) r)))
    (log (EvCall (Call_start i)) σ).
Proof.
  intros E Hcmd. unfold start_service.
  rewrite bind_run, emit_run. cbn beta iota. rewrite bind_run, get_run.
  cbn beta iota.
  change (services (log (EvCall (Call_start i)) σ)) with (services σ).
  by rewrite E, Hcmd.
Qed.

Lemma fork_failure_run i σ s cmd r rest :
  services σ !! i = Some s -> execcmd s = Some cmd ->
  forks σ = r :: rest -> r < 0 ->
  exists σ',
    start_service i σ = Ok tt σ'
    /\ services σ' = services σ
    /\ zombies σ' = zombies σ /\ alive σ' = alive σ
    /\ trace σ' = trace σ ++
       [EvCall (Call_start i); EvFork r; EvPerror (lit "fork")].
Proof.
  intros E Hcmd Hf Hr. rewrite (start_service_at i σ s cmd E Hcmd).
  rewrite bind_run. unfold sys_fork.
  change (forks (log (EvCall (Call_start i)) σ)) with (forks σ).
  rewrite Hf. cbn beta iota zeta.
  assert ((0 <? r) = false) as -> by lia.
  assert ((r =? 0) = false) as -> by lia.
  assert ((r <? 0) = true) as -> by lia.
  rewrite emit_run. eexists. split; [reflexivity|].
  repeat (split; [reflexivity|]).
  cbn. by rewrite <- !app_assoc.
Qed.

(** X12. When [fork] fails, [start_service] reports it with [perror]
    and returns: the entry and the rest of the table are as before (the
    entry is not marked running), and no child was added. *)
Theorem start_service_fork_fails i σ s cmd r rest :
  services σ !! i = Some s -> execcmd s = Some cmd ->
  forks σ = r :: rest -> r < 0 ->
  exists σ',
    start_service i σ = Ok tt σ'
    /\ services σ' = services σ
    /\ zombies σ' = zombies σ /\ alive σ' = alive σ
    /\ new_events σ (start_service i σ) =
       [EvCall (Call_start i); EvFork r; EvPerror (lit "fork")].
Proof.
  intros E Hcmd Hf Hr.
  destruct (fork_failure_run i σ s cmd r rest E Hcmd Hf Hr)
    as (σ' & Hrun & Hs & Hz & Ha & Ht).
  exists σ'. repeat (split; [done|]).
  apply new_events_app. by rewrite Hrun.
Qed.

Lemma start_service_fork_fails_witness :
  exists σ',
    start_service 0 fork_fails = Ok tt σ'
    /\ services σ' = services fork_fails
    /\ zombies σ' = zombies fork_fails /\ alive σ' = alive fork_fails
    /\ new_events fork_fails (start_service 0 fork_fails) =
       [EvCall (Call_start 0); EvFork (-1); EvPerror (lit "fork")].
Proof.
  apply (start_service_fork_fails 0 fork_fails
           (svc "web" R_ON_FAILURE 7 true) (lit "/bin/true") (-1) []);
    [reflexivity | reflexivity | reflexivity | lia].
Defined.

Lemma start_service_parent_run i σ s cmd r rest :
  services σ !! i = Some s -> execcmd s = Some cmd ->
  forks σ = r :: rest -> 0 < r ->
  exists σ',
    start_service i σ = Ok tt σ'
    /\ services σ' = <[i := with_runtime s r true]> (services σ)
    /\ alive σ' = alive σ ++ [r] /\ zombies σ' = zombies σ
    /\ trace σ' = trace σ ++
       [EvCall (Call_start i); EvFork r; EvPrintf (Msg_started (name s) r)].
Proof.
  intros E Hcmd Hf Hr. rewrite (start_service_at i σ s cmd E Hcmd).
  rewrite bind_run. unfold sys_fork.
  change (forks (log (EvCall (Call_start i)) σ)) with (forks σ).
  rewrite Hf. cbn beta iota zeta.
  assert ((0 <? r) = true) as -> by lia.
  assert ((r =? 0) = false) as -> by lia.
  assert ((r <? 0) = false) as -> by lia.
  rewrite bind_run, set_entry_run. cbn beta iota. rewrite emit_run.
  eexists. split; [reflexivity|]. cbn.
  repeat (split; [reflexivity|]). by rewrite <- !app_assoc.
Qed.

(** X13. When [fork] succeeds, the parent records the child: the entry
    gets the new pid and is marked running, its name, command, policy
    and log path stay, every other entry is untouched, the child is now
    one of the process's live children, and one start line is printed. *)
Theorem start_service_parent_side i σ s cmd r rest :
  services σ !! i = Some s -> execcmd s = Some cmd ->
  forks σ = r :: rest -> 0 < r ->
  exists σ',
    start_service i σ = Ok tt σ'
    /\ services σ' !! i = Some (with_runtime s r true)
    /\ (forall j, j ≠ i -> services σ' !! j = services σ !! j)
    /\ nservices σ' = nservices σ
    /\ alive σ' = alive σ ++ [r] /\ zombies σ' = zombies σ
    /\ new_events σ (start_service i σ) =
       [EvCall (Call_start i); EvFork r; EvPrintf (Msg_started (name s) r)].
Proof.
  intros E Hcmd Hf Hr.
  destruct (start_service_parent_run i σ s cmd r rest E Hcmd Hf Hr)
    as (σ' & Hrun & Hs & Ha & Hz & Ht).
  exists σ'. split; [done|]. rewrite Hs.
  split; [apply list_lookup_insert_eq; by eapply lookup_lt_Some|].
  split; [intros j Hj; by apply list_lookup_insert_ne|].
  split; [unfold nservices; by rewrite Hs, length_insert|].
  split; [done|]. split; [done|].
  apply new_events_app. by rewrite Hrun.
Qed.

Lemma start_service_parent_side_witness :
  exists σ',
    start_service 0 exits_1 = Ok tt σ'
    /\ services σ' !! 0%nat = Some (with_runtime (svc "web" R_ON_FAILURE 7 true) 8 true)
    /\ (forall j, j ≠ 0%nat -> services σ' !! j = services exits_1 !! j)
    /\ nservices σ' = nservices exits_1
    /\ alive σ' = alive exits_1 ++ [8] /\ zombies σ' = zombies exits_1
    /\ new_events exits_1 (start_service 0 exits_1) =
       [EvCall (Call_start 0); EvFork 8; EvPrintf (Msg_started (lit "web") 8)].
Proof.
  apply (start_service_parent_side 0 exits_1
           (svc "web" R_ON_FAILURE 7 true) (lit "/bin/true") 8 []);
    [reflexivity | reflexivity | reflexivity | lia].
Defined.

(** An entry without a command (and an index outside the table) is not
    started: no [fork], no change of any kind. *)
Lemma start_service_no_command_run i σ :
  (forall s, services σ !! i = Some s -> execcmd s = None) ->
  start_service i σ = Ok tt (log (EvCall (Call_start i)) σ).
Proof.
  intros H. unfold start_service.
  rewrite bind_run, emit_run. cbn beta iota. rewrite bind_run, get_run.
  cbn beta iota.
  change (services (log (EvCall (Call_start i)) σ)) with (services σ).
  destruct (services σ !! i) as [s|]; [|done]. by rewrite (H s eq_refl).
Qed.

(** X15. In the child, when [execl] succeeds: the descriptors are set
    up first (standard input from /dev/null, standard output and error
    appended to the entry's log file, each only if its [open]
    succeeded), then the child becomes a session leader, then its image
    is replaced by [/bin/sh -c <command>]. Nothing after
    [start_service] runs in the child, and its copy of the table is
    untouched. *)
Theorem start_service_child_execs {B} i σ s cmd rest (k : unit -> M B) :
  services σ !! i = Some s -> execcmd s = Some cmd ->
  forks σ = 0 :: rest -> exec_ok σ (lit "/bin/sh") = true ->
  exists σ',
    (start_service i ≫= k) σ =
      Halt (Execed (lit "/bin/sh") [lit "sh"; lit "-c"; cmd]) σ'
    /\ services σ' = services σ
    /\ trace σ' =
       trace σ ++ EvCall (Call_start i) :: EvFork 0 :: child_plumbing σ s
       ++ [EvSetsid; EvExecl (lit "/bin/sh") [lit "sh"; lit "-c"; cmd] true].
Proof.
  intros E Hcmd Hf Hexec. rewrite bind_run.
  rewrite (start_service_at i σ s cmd E Hcmd).
  rewrite bind_run. unfold sys_fork.
  change (forks (log (EvCall (Call_start i)) σ)) with (forks σ).
  rewrite Hf. cbn beta iota. cbn [Z.ltb Z.eqb Z.compare].
  unfold child_plumbing, sys_open, sys_execl, sys_exit, when, emit, modify,
    get, ret, mbind, M_bind, mret, M_ret.
  destruct (0 <=? open_fd σ (lit "/dev/null")) eqn:H1;
    destruct (0 <=? open_fd σ (logfile s)) eqn:H2;
    try destruct (2 <? open_fd σ (logfile s)) eqn:H3;
    eexists;
    repeat (cbn -[lit Z.leb Z.ltb]; rewrite ?H1, ?H2, ?H3, ?Hexec);
    (split; [reflexivity|]); (split; [reflexivity|]);
    cbn -[lit]; rewrite <- ?app_assoc; reflexivity.
Qed.

Lemma start_service_child_execs_witness :
  exists σ',
    (start_service 0 ≫= fun _ => main_shutdown) child_side =
      Halt (Execed (lit "/bin/sh") [lit "sh"; lit "-c"; lit "/bin/true"]) σ'
    /\ services σ' = services child_side
    /\ trace σ' =
       trace child_side ++ EvCall (Call_start 0) :: EvFork 0
       :: child_plumbing child_side (svc "web" R_ON_FAILURE 7 true)
       ++ [EvSetsid;
           EvExecl (lit "/bin/sh") [lit "sh"; lit "-c"; lit "/bin/true"] true].
Proof.
  apply (start_service_child_execs 0 child_side
           (svc "web" R_ON_FAILURE 7 true) (lit "/bin/true") []);
    reflexivity.
Defined.

(** ** [stop_service], in full *)

(** X16. What [stop_service] does to a running entry, whatever the
    child does: SIGTERM to the process group of the entry's pid first;
    then only polls of that pid, with at most 50 sleeps of 100 ms
    between them; one more query; SIGKILL to the same group exactly when
    that last query did not return the pid; and the stop line. It sends
    no other signal, never forks, and returns. *)
Theorem stop_service_shape i σ s :
  services σ !! i = Some s -> running s = true ->
  exists σ' polls r,
    stop_service i σ = Ok tt σ'
    /\ new_events σ (stop_service i σ) =
       EvCall (Call_stop i) :: EvKill (- pid s) SIGTERM :: polls
       ++ EvWaitpid (pid s) r
          :: (if r =? pid s then [] else [EvKill (- pid s) SIGKILL])
       ++ [EvPrintf (Msg_stopped (name s) (pid s))]
    /\ forallb (is_poll (pid s)) polls = true
    /\ (length (List.filter is_usleep polls) ≤ 50)%nat
    /\ forks σ' = forks σ.
Proof.
  intros E Hrun. rewrite (stop_service_at i σ s E Hrun).
  rewrite bind_run, sys_kill_run. cbn beta iota.
  set (σ1 := log (EvKill (- pid s) SIGTERM) (log (EvCall (Call_stop i)) σ)).
  destruct (poll_exit_shape 50 (pid s) σ1)
    as (σ2 & polls & Hpoll & Ht2 & Hp & Hlen & _ & Hf2).
  rewrite bind_run, Hpoll. cbn beta iota.
  rewrite bind_run, sys_waitpid_run. cbn beta iota.
  destruct (waitpid_nohang_frame (pid s) σ2) as (_ & Ht3 & Hf3 & _).
  set (r := (waitpid_nohang (pid s) σ2).1) in *.
  set (σ3 := (waitpid_nohang (pid s) σ2).2) in *.
  destruct (r.1 =? pid s) eqn:Hr; cbn [negb when].
  - eexists _, polls, r.1. rewrite bind_run, ret_run. cbn beta iota.
    rewrite bind_run, set_entry_run. cbn beta iota. rewrite emit_run.
    split; [reflexivity|]. rewrite Hr. split.
    { apply new_events_app. cbn. rewrite Ht3, Ht2. subst σ1. cbn.
      by rewrite <- !app_assoc. }
    split; [done|]. split; [done|]. cbn. by rewrite Hf3, Hf2.
  - eexists _, polls, r.1. rewrite bind_run, sys_kill_run. cbn beta iota.
    rewrite bind_run, set_entry_run. cbn beta iota. rewrite emit_run.
    split; [reflexivity|]. rewrite Hr. split.
    { apply new_events_app. cbn. rewrite Ht3, Ht2. subst σ1. cbn.
      by rewrite <- !app_assoc. }
    split; [done|]. split; [done|]. cbn. by rewrite Hf3, Hf2.
Qed.

Lemma stop_service_shape_witness :
  exists σ' polls r,
    stop_service 0 ignores_sigterm = Ok tt σ'
    /\ new_events ignores_sigterm (stop_service 0 ignores_sigterm) =
       EvCall (Call_stop 0) :: EvKill (- 7) SIGTERM :: polls
       ++ EvWaitpid 7 r
          :: (if r =? 7 then [] else [EvKill (- 7) SIGKILL])
       ++ [EvPrintf (Msg_stopped (lit "web") 7)]
    /\ forallb (is_poll 7) polls = true
    /\ (length (List.filter is_usleep polls) ≤ 50)%nat
    /\ forks σ' = forks ignores_sigterm.
Proof.
  apply (stop_service_shape 0 ignores_sigterm (svc "web" R_NO 7 true));
    reflexivity.
Defined.

(** X17. [stop_service] always returns, and afterwards the entry is
    marked not running with its pid and everything else kept; no other
    entry changes and the table keeps its size. On an entry that is not
    running, or an index outside the table, nothing changes at all. *)
Theorem stop_service_marks_stopped i σ :
  exists σ',
    stop_service i σ = Ok tt σ'
    /\ (forall s, services σ !! i = Some s ->
          services σ' !! i = Some (with_runtime s (pid s) false))
    /\ (forall j, j ≠ i -> services σ' !! j = services σ !! j)
    /\ nservices σ' = nservices σ
    /\ ((forall s, services σ !! i = Some s -> running s = false) ->
        services σ' = services σ).
Proof.
  destruct (stop_service_run i σ) as (σ' & evs & Hrun & _ & _ & Hs & _).
  exists σ'. split; [done|]. rewrite Hs.
  split; [intros s E; by rewrite list_lookup_alter_eq, E|].
  split; [intros j Hj; by apply list_lookup_alter_ne|].
  split; [unfold nservices; by rewrite Hs, length_alter|].
  apply alter_mark_stopped_idle.
Qed.

(** *** A child that does not terminate *)

Lemma take_zombie_app_other p zs d :
  d.1 ≠ p -> take_zombie p zs = None -> take_zombie p (zs ++ [d]) = None.
Proof.
  intros Hd. induction zs as [|[q st] zs IH]; simpl.
  - intros _. destruct d as [q st]. simpl in *.
    by rewrite (proj2 (Z.eqb_neq q p) Hd).
  - destruct (q =? p); [done|].
    destruct (take_zombie p zs) as [[st' rest']|]; [done|].
    intros _. by rewrite IH.
Qed.

Lemma child_dies_spares p d σ :
  d.1 ≠ p -> still_alive p σ -> still_alive p (child_dies d σ).
Proof.
  intros Hd [Ha Hz]. unfold child_dies. case_bool_decide; [|done].
  split; cbn.
  - apply list_elem_of_filter. split; [congruence | done].
  - by apply take_zombie_app_other.
Qed.

Lemma deliver_spares p t σ :
  p ∉ (fst <$> t_deaths t) -> still_alive p σ -> still_alive p (deliver t σ).
Proof.
  intros Hp Hσ.
  assert (still_alive p (foldl (fun s d => child_dies d s) σ (t_deaths t))) as H.
  { revert σ Hσ. induction (t_deaths t) as [|d ds IH]; intros σ Hσ; [done|].
    simpl. rewrite fmap_cons in Hp. apply not_elem_of_cons in Hp as [Hd Hds].
    apply IH; [done|]. apply child_dies_spares; [congruence | done]. }
  unfold deliver. by destruct (t_term t).
Qed.

Lemma blocked_spares p k σ :
  spared p (S k) (sched σ) -> still_alive p σ ->
  still_alive p (blocked σ) /\ spared p k (sched (blocked σ)).
Proof.
  intros Hsp Hσ. unfold blocked.
  destruct (sched σ) as [|t rest] eqn:Hs.
  { split; [done|]. rewrite Hs. by destruct k. }
  destruct Hsp as [Ht Hrest].
  split; [by apply deliver_spares|].
  destruct (deliver_frame t (set_sched rest σ)) as (_ & _ & Hsch & _).
  by rewrite Hsch.
Qed.

Lemma waitpid_still_alive p σ :
  p ≠ -1 -> still_alive p σ -> waitpid_nohang p σ = (0, 0, σ).
Proof.
  intros Hp [Ha Hz]. unfold waitpid_nohang.
  rewrite (proj2 (Z.eqb_neq _ _) Hp), Hz. by rewrite bool_decide_eq_true_2.
Qed.

Lemma poll_exit_alive n p σ :
  p ≠ -1 -> p ≠ 0 -> still_alive p σ -> spared p n (sched σ) ->
  exists σ',
    poll_exit n p σ = Ok tt σ'
    /\ trace σ' = trace σ ++ quiet_polls n p
    /\ still_alive p σ'.
Proof.
  intros Hp Hp0. revert σ. induction n as [|k IH]; intros σ Hσ Hsp.
  - exists σ. unfold quiet_polls. simpl. by rewrite app_nil_r.
  - rewrite poll_exit_S, bind_run, sys_waitpid_run.
    rewrite (waitpid_still_alive p σ Hp Hσ). cbn beta iota. cbn [fst snd].
    assert ((0 =? p) = false) as -> by lia.
    rewrite bind_run, sys_usleep_run. cbn beta iota.
    set (σ2 := log (EvUsleep 100000) (log (EvWaitpid p 0) σ)).
    destruct (blocked_spares p k σ2) as [Hb Hsp']; [done | done |].
    destruct (blocked_frame σ2) as (_ & Ht2 & _).
    destruct (IH (blocked σ2) Hb Hsp') as (σ' & Hrun & Ht & Hal).
    exists σ'. split; [done|]. split; [|done].
    rewrite Ht, Ht2. subst σ2. cbn. unfold quiet_polls. simpl.
    by rewrite <- !app_assoc.
Qed.

(** X18. The escalation: when the child of a running entry does not
    terminate during the grace period, [stop_service] polls 50 times,
    sleeping 100 ms after each poll, finds the child still there, sends
    SIGKILL to its process group, and marks the entry not running. *)
Theorem stop_service_escalates i σ s :
  services σ !! i = Some s -> running s = true -> 0 < pid s ->
  still_alive (pid s) σ -> spared (pid s) 50 (sched σ) ->
  exists σ',
    stop_service i σ = Ok tt σ'
    /\ new_events σ (stop_service i σ) =
       EvCall (Call_stop i) :: EvKill (- pid s) SIGTERM
       :: quiet_polls 50 (pid s)
       ++ [EvWaitpid (pid s) 0; EvKill (- pid s) SIGKILL;
           EvPrintf (Msg_stopped (name s) (pid s))]
    /\ services σ' !! i = Some (with_runtime s (pid s) false)
    /\ still_alive (pid s) σ'.
Proof.
  intros E Hrun Hpos Hal Hsp. rewrite (stop_service_at i σ s E Hrun).
  rewrite bind_run, sys_kill_run. cbn beta iota.
  set (σ1 := log (EvKill (- pid s) SIGTERM) (log (EvCall (Call_stop i)) σ)).
  destruct (poll_exit_alive 50 (pid s) σ1) as (σ2 & Hpoll & Ht2 & Hal2);
    [lia | lia | done | done |].
  destruct (poll_exit_run 50 (pid s) σ1) as (σ2' & evs & Hpoll' & (Hs2 & _) & _).
  rewrite Hpoll in Hpoll'. injection Hpoll' as <-.
  rewrite bind_run, Hpoll. cbn beta iota.
  rewrite bind_run, sys_waitpid_run.
  rewrite (waitpid_still_alive (pid s) σ2) by (done || lia).
  cbn beta iota. cbn [fst snd].
  assert ((0 =? pid s) = false) as -> by lia. cbn [negb when].
  rewrite bind_run, sys_kill_run. cbn beta iota.
  rewrite bind_run, set_entry_run. cbn beta iota. rewrite emit_run.
  eexists. split; [reflexivity|]. split.
  { apply new_events_app. cbn. rewrite Ht2. subst σ1. cbn.
    by rewrite <- !app_assoc. }
  split; [|done]. cbn. rewrite Hs2. subst σ1. cbn.
  apply list_lookup_insert_eq. by eapply lookup_lt_Some.
Qed.

Lemma stop_service_escalates_witness :
  exists σ',
    stop_service 0 ignores_sigterm = Ok tt σ'
    /\ new_events ignores_sigterm (stop_service 0 ignores_sigterm) =
       EvCall (Call_stop 0) :: EvKill (- 7) SIGTERM
       :: quiet_polls 50 7
       ++ [EvWaitpid 7 0; EvKill (- 7) SIGKILL;
           EvPrintf (Msg_stopped (lit "web") 7)]
    /\ services σ' !! 0%nat = Some (with_runtime (svc "web" R_NO 7 true) 7 false)
    /\ still_alive 7 σ'.
Proof.
  apply (stop_service_escalates 0 ignores_sigterm (svc "web" R_NO 7 true)).
  - reflexivity.
  - reflexivity.
  - simpl. lia.
  - split; [left | reflexivity].
  - simpl. split; [|done]. intros H.
    apply list_elem_of_singleton in H. discriminate.
Defined.

(** *** A child that terminates during the last sleep *)

Lemma blocked_sched σ : sched (blocked σ) = drop 1 (sched σ).
Proof.
  unfold blocked. destruct (sched σ) as [|t rest] eqn:Hs; [by rewrite Hs|].
  destruct (deliver_frame t (set_sched rest σ)) as (_ & _ & Hsch & _).
  by rewrite Hsch.
Qed.

Lemma poll_exit_alive_then n m p σ :
  p ≠ -1 -> p ≠ 0 -> still_alive p σ -> spared p n (sched σ) ->
  exists σ',
    poll_exit (n + m) p σ = poll_exit m p σ'
    /\ trace σ' = trace σ ++ quiet_polls n p
    /\ still_alive p σ'
    /\ sched σ' = drop n (sched σ)
    /\ services σ' = services σ.
Proof.
  intros Hp Hp0. revert σ. induction n as [|k IH]; intros σ Hσ Hsp.
  - exists σ. unfold quiet_polls. simpl. by rewrite app_nil_r, drop_0.
  - change (S k + m)%nat with (S (k + m)).
    set (σ2 := log (EvUsleep 100000) (log (EvWaitpid p 0) σ)).
    destruct (blocked_spares p k σ2) as [Hb Hsp']; [done | done |].
    destruct (blocked_frame σ2) as ((Hs2 & _) & Ht2 & _).
    destruct (IH (blocked σ2) Hb Hsp') as (σ' & Hrun & Ht & Hal & Hsch & Hsv).
    exists σ'. split.
    { rewrite poll_exit_S, bind_run, sys_waitpid_run.
      rewrite (waitpid_still_alive p σ Hp Hσ). cbn beta iota. cbn [fst snd].
      assert ((0 =? p) = false) as -> by lia.
      rewrite bind_run, sys_usleep_run. cbn beta iota. exact Hrun. }
    split.
    { rewrite Ht, Ht2. subst σ2. cbn. unfold quiet_polls. simpl.
      by rewrite <- !app_assoc. }
    split; [done|]. split.
    { rewrite Hsch, blocked_sched. subst σ2. cbn. by rewrite drop_drop. }
    rewrite Hsv, Hs2. by subst σ2.
Qed.

Lemma take_zombie_app_some p zs d st rest :
  take_zombie p zs = Some (st, rest) ->
  take_zombie p (zs ++ [d]) = Some (st, rest ++ [d]).
Proof.
  revert rest. induction zs as [|[q st0] zs IH]; intros rest; simpl; [done|].
  destruct (q =? p); [by intros [= <- <-]|].
  destruct (take_zombie p zs) as [[st' rest']|]; [|done].
  intros [= <- <-]. by rewrite (IH rest' eq_refl).
Qed.

Lemma take_zombie_app_hit p zs st :
  take_zombie p zs = None -> take_zombie p (zs ++ [(p, st)]) = Some (st, zs).
Proof.
  induction zs as [|[q st0] zs IH]; simpl.
  - intros _. by rewrite Z.eqb_refl.
  - destruct (q =? p); [done|].
    destruct (take_zombie p zs) as [[st' rest']|]; [done|].
    intros _. by rewrite IH.
Qed.

Lemma child_dies_zombie_stays p d σ :
  is_Some (take_zombie p (zombies σ)) ->
  is_Some (take_zombie p (zombies (child_dies d σ))).
Proof.
  intros [[st rest] H]. unfold child_dies. case_bool_decide; [|by eexists].
  cbn. rewrite (take_zombie_app_some _ _ _ _ _ H). by eexists.
Qed.

Lemma child_dies_hits p d σ :
  still_alive p σ -> d.1 = p ->
  is_Some (take_zombie p (zombies (child_dies d σ))).
Proof.
  intros [Ha Hz] Hd. destruct d as [q st]. simpl in Hd. subst q.
  unfold child_dies. cbn [fst]. rewrite bool_decide_eq_true_2 by done.
  cbn. rewrite (take_zombie_app_hit _ _ _ Hz). by eexists.
Qed.

Lemma deliver_hits p t σ :
  still_alive p σ -> p ∈ (fst <$> t_deaths t) ->
  is_Some (take_zombie p (zombies (deliver t σ))).
Proof.
  intros Hσ Hp.
  assert (is_Some (take_zombie p
            (zombies (foldl (fun s d => child_dies d s) σ (t_deaths t))))) as H.
  { revert σ Hσ. induction (t_deaths t) as [|d ds IH]; intros σ Hσ.
    { by apply elem_of_nil in Hp. }
    simpl. destruct (decide (d.1 = p)) as [Hd|Hd].
    - pose proof (child_dies_hits p d σ Hσ Hd) as Hz.
      clear IH Hp. revert Hz. generalize (child_dies d σ).
      induction ds as [|d' ds IH]; intros σ' Hz; [done|].
      simpl. apply IH. by apply child_dies_zombie_stays.
    - rewrite fmap_cons in Hp. apply elem_of_cons in Hp as [Hp|Hp]; [congruence|].
      apply IH; [done|]. by apply child_dies_spares. }
  unfold deliver. by destruct (t_term t).
Qed.

(** X19. The only case in which a child that terminates is spared the
    SIGKILL: it holds out for the 50 polls and terminates during the
    sleep after the last one. The query after the loop then releases it,
    and no SIGKILL is sent. *)
Theorem stop_service_last_moment i σ s t :
  services σ !! i = Some s -> running s = true -> 0 < pid s ->
  still_alive (pid s) σ -> spared (pid s) 49 (sched σ) ->
  sched σ !! 49%nat = Some t -> pid s ∈ (fst <$> t_deaths t) ->
  exists σ',
    stop_service i σ = Ok tt σ'
    /\ new_events σ (stop_service i σ) =
       EvCall (Call_stop i) :: EvKill (- pid s) SIGTERM
       :: quiet_polls 50 (pid s)
       ++ [EvWaitpid (pid s) (pid s);
           EvPrintf (Msg_stopped (name s) (pid s))].
Proof.
  intros E Hrun Hpos Hal Hsp Ht Hdies. rewrite (stop_service_at i σ s E Hrun).
  rewrite bind_run, sys_kill_run. cbn beta iota.
  set (p := pid s) in *.
  set (σ1 := log (EvKill (- p) SIGTERM) (log (EvCall (Call_stop i)) σ)).
  destruct (poll_exit_alive_then 49 1 p σ1)
    as (σ2 & Hpoll & Ht2 & Hal2 & Hsch2 & Hs2); [lia | lia | done | done |].
  change (49 + 1)%nat with 50%nat in Hpoll.
  rewrite bind_run, Hpoll.
  (* the 50th poll, and the sleep in which the child terminates *)
  rewrite poll_exit_S, bind_run, sys_waitpid_run.
  rewrite (waitpid_still_alive p σ2) by (done || lia).
  cbn beta iota. cbn [fst snd].
  assert ((0 =? p) = false) as -> by lia.
  rewrite bind_run, sys_usleep_run. cbn beta iota. cbn [poll_exit].
  rewrite ret_run.
  set (σ3 := log (EvUsleep 100000) (log (EvWaitpid p 0) σ2)).
  assert (sched σ3 = t :: drop 50 (sched σ)) as Hsch3.
  { subst σ3. cbn. rewrite Hsch2. subst σ1. cbn.
    by rewrite (drop_S _ _ _ Ht). }
  assert (is_Some (take_zombie p (zombies (blocked σ3)))) as [[st rest] Hz].
  { unfold blocked. rewrite Hsch3. by apply deliver_hits. }
  destruct (blocked_frame σ3) as ((Hs3 & _) & Ht3 & _).
  rewrite bind_run, sys_waitpid_run.
  assert (waitpid_nohang p (blocked σ3) =
          (p, st, set_children rest (alive (blocked σ3)) (blocked σ3))) as Hw.
  { unfold waitpid_nohang. assert ((p =? -1) = false) as -> by lia.
    by rewrite Hz. }
  rewrite Hw. cbn beta iota. cbn [fst snd]. rewrite Z.eqb_refl.
  cbn [negb when]. rewrite bind_run, ret_run. cbn beta iota.
  rewrite bind_run, set_entry_run. cbn beta iota. rewrite emit_run.
  eexists. split; [reflexivity|].
  apply new_events_app. cbn. rewrite Ht3. subst σ3. cbn. rewrite Ht2.
  subst σ1. cbn.
  change (quiet_polls 50 p) with (quiet_polls 49 p ++ [EvWaitpid p 0; EvUsleep 100000]).
  by rewrite <- !app_assoc.
Qed.

Lemma stop_service_last_moment_witness :
  exists σ',
    stop_service 0 dies_at_last = Ok tt σ'
    /\ new_events dies_at_last (stop_service 0 dies_at_last) =
       EvCall (Call_stop 0) :: EvKill (- 7) SIGTERM
       :: quiet_polls 50 7
       ++ [EvWaitpid 7 7; EvPrintf (Msg_stopped (lit "web") 7)].
Proof.
  apply (stop_service_last_moment 0 dies_at_last (svc "web" R_NO 7 true)
           {| t_deaths := [(7, 15)]; t_term := false |}).
  - reflexivity.
  - reflexivity.
  - simpl. lia.
  - split; [left | reflexivity].
  - cbn -[spared]. generalize 7. intros p.
    repeat (split; [apply not_elem_of_nil|]). done.
  - reflexivity.
  - left.
Defined.

(** ** [handle_reaped], case by case *)

Lemma handle_reaped_at p status σ i s :
  find_running p 0 (services σ) = Some (i, s) ->
  handle_reaped p status σ =
  when (wants_restart (restart s) (exitcode_of status))
       (sys_sleep 1;; start_service i)
    (log (EvPrintf (Msg_exited (name s) p status))
       (set_services (<[i := with_runtime s (pid s) false]> (services σ))
          (log (EvCall (Call_handle_reaped p status)) σ))).
Proof.
  intros Hfind. unfold handle_reaped.
  rewrite bind_run, emit_run. cbn beta iota. rewrite bind_run, get_run.
  cbn beta iota.
  change (services (log (EvCall (Call_handle_reaped p status)) σ))
    with (services σ).
  rewrite Hfind. rewrite bind_run, set_entry_run. cbn beta iota.
  by rewrite bind_run, emit_run.
Qed.

(** X20. When the policy does not ask for a restart ([R_NO], or
    [R_ON_FAILURE] after exit code 0), [handle_reaped] only marks the
    entry not running: its other fields and all other entries stay, no
    process is created, and nothing but the exit line is printed. *)
Theorem handle_reaped_leaves_stopped p status σ i s :
  find_running p 0 (services σ) = Some (i, s) ->
  wants_restart (restart s) (exitcode_of status) = false ->
  exists σ',
    handle_reaped p status σ = Ok tt σ'
    /\ services σ' !! i = Some (with_runtime s (pid s) false)
    /\ (forall j, j ≠ i -> services σ' !! j = services σ !! j)
    /\ zombies σ' = zombies σ /\ alive σ' = alive σ /\ forks σ' = forks σ
    /\ new_events σ (handle_reaped p status σ) =
       [EvCall (Call_handle_reaped p status);
        EvPrintf (Msg_exited (name s) p status)].
Proof.
  intros Hfind Hw. rewrite (handle_reaped_at p status σ i s Hfind), Hw.
  cbn [when]. rewrite ret_run.
  pose proof (find_running_Some _ _ _ _ _ Hfind) as (_ & E & _ & _).
  rewrite Nat.sub_0_r in E.
  eexists. split; [reflexivity|]. cbn.
  split; [apply list_lookup_insert_eq; by eapply lookup_lt_Some|].
  split; [intros j Hj; by apply list_lookup_insert_ne|].
  repeat (split; [done|]).
  apply new_events_app. cbn. by rewrite <- !app_assoc.
Qed.

Lemma handle_reaped_leaves_stopped_witness :
  exists σ',
    handle_reaped 7 0 exits_1 = Ok tt σ'
    /\ services σ' !! 0%nat =
       Some (with_runtime (svc "web" R_ON_FAILURE 7 true) 7 false)
    /\ (forall j, j ≠ 0%nat -> services σ' !! j = services exits_1 !! j)
    /\ zombies σ' = zombies exits_1 /\ alive σ' = alive exits_1
    /\ forks σ' = forks exits_1
    /\ new_events exits_1 (handle_reaped 7 0 exits_1) =
       [EvCall (Call_handle_reaped 7 0);
        EvPrintf (Msg_exited (lit "web") 7 0)].
Proof.
  apply (handle_reaped_leaves_stopped 7 0 exits_1 0 (svc "web" R_ON_FAILURE 7 true));
    reflexivity.
Defined.

Lemma handle_reaped_before_start p status σ i s :
  find_running p 0 (services σ) = Some (i, s) ->
  wants_restart (restart s) (exitcode_of status) = true ->
  exists σ4,
    handle_reaped p status σ = start_service i σ4
    /\ services σ4 = <[i := with_runtime s (pid s) false]> (services σ)
    /\ forks σ4 = forks σ
    /\ trace σ4 = trace σ ++
       [EvCall (Call_handle_reaped p status);
        EvPrintf (Msg_exited (name s) p status); EvSleep 1].
Proof.
  intros Hfind Hw. rewrite (handle_reaped_at p status σ i s Hfind), Hw.
  cbn [when]. rewrite bind_run, sys_sleep_run. cbn beta iota.
  match goal with |- context [start_service i (blocked ?st)] => set (σ3 := st) end.
  destruct (blocked_frame σ3) as ((Hs & _) & Ht & Hf).
  exists (blocked σ3). split; [done|].
  rewrite Hs, Hf, Ht. subst σ3. cbn. repeat split.
  by rewrite <- !app_assoc.
Qed.

(** X21. When the policy asks for a restart and [fork] succeeds, the
    entry is running again under the new pid after a sleep of one
    second; its other fields and all other entries are as before. *)
Theorem handle_reaped_relaunches p status σ i s cmd r rest :
  find_running p 0 (services σ) = Some (i, s) ->
  wants_restart (restart s) (exitcode_of status) = true ->
  execcmd s = Some cmd -> forks σ = r :: rest -> 0 < r ->
  exists σ',
    handle_reaped p status σ = Ok tt σ'
    /\ services σ' !! i = Some (with_runtime s r true)
    /\ (forall j, j ≠ i -> services σ' !! j = services σ !! j)
    /\ r ∈ alive σ'
    /\ new_events σ (handle_reaped p status σ) =
       [EvCall (Call_handle_reaped p status);
        EvPrintf (Msg_exited (name s) p status); EvSleep 1;
        EvCall (Call_start i); EvFork r; EvPrintf (Msg_started (name s) r)].
Proof.
  intros Hfind Hw Hcmd Hf Hr.
  pose proof (find_running_Some _ _ _ _ _ Hfind) as (_ & E & _ & _).
  rewrite Nat.sub_0_r in E.
  destruct (handle_reaped_before_start p status σ i s Hfind Hw)
    as (σ4 & Hrun & Hs4 & Hf4 & Ht4).
  destruct (start_service_parent_run i σ4 (with_runtime s (pid s) false) cmd r rest)
    as (σ' & Hrun' & Hs' & Ha' & _ & Ht'); [| done | congruence | done |].
  { rewrite Hs4. apply list_lookup_insert_eq. by eapply lookup_lt_Some. }
  exists σ'. rewrite Hrun. split; [done|]. rewrite Hs', Hs4.
  split.
  { rewrite list_lookup_insert_eq; [done|].
    rewrite length_insert. by eapply lookup_lt_Some. }
  split.
  { intros j Hj. by rewrite !list_lookup_insert_ne. }
  split; [rewrite Ha'; apply elem_of_app; right; by left|].
  apply new_events_app. rewrite Hrun'. cbn [final_state].
    rewrite Ht', Ht4. by rewrite <- !app_assoc.
Qed.

Lemma handle_reaped_relaunches_witness :
  exists σ',
    handle_reaped 7 256 exits_1 = Ok tt σ'
    /\ services σ' !! 0%nat = Some (with_runtime (svc "web" R_ON_FAILURE 7 true) 8 true)
    /\ (forall j, j ≠ 0%nat -> services σ' !! j = services exits_1 !! j)
    /\ 8 ∈ alive σ'
    /\ new_events exits_1 (handle_reaped 7 256 exits_1) =
       [EvCall (Call_handle_reaped 7 256);
        EvPrintf (Msg_exited (lit "web") 7 256); EvSleep 1;
        EvCall (Call_start 0); EvFork 8; EvPrintf (Msg_started (lit "web") 8)].
Proof.
  apply (handle_reaped_relaunches 7 256 exits_1 0 (svc "web" R_ON_FAILURE 7 true)
           (lit "/bin/true") 8 []); reflexivity.
Defined.

(** X22. When the policy asks for a restart and [fork] fails, the
    failure is reported with [perror] and the entry is left not
    running; the scan of [handle_reaped] can no longer find it, so no
    later exit brings it back. *)
Theorem handle_reaped_fork_fails p status σ i s cmd r rest :
  find_running p 0 (services σ) = Some (i, s) ->
  wants_restart (restart s) (exitcode_of status) = true ->
  execcmd s = Some cmd -> forks σ = r :: rest -> r < 0 ->
  exists σ',
    handle_reaped p status σ = Ok tt σ'
    /\ services σ' = <[i := with_runtime s (pid s) false]> (services σ)
    /\ (forall q j s', find_running q 0 (services σ') = Some (j, s') -> j ≠ i)
    /\ new_events σ (handle_reaped p status σ) =
       [EvCall (Call_handle_reaped p status);
        EvPrintf (Msg_exited (name s) p status); EvSleep 1;
        EvCall (Call_start i); EvFork r; EvPerror (lit "fork")].
Proof.
  intros Hfind Hw Hcmd Hf Hr.
  pose proof (find_running_Some _ _ _ _ _ Hfind) as (_ & E & _ & _).
  rewrite Nat.sub_0_r in E.
  destruct (handle_reaped_before_start p status σ i s Hfind Hw)
    as (σ4 & Hrun & Hs4 & Hf4 & Ht4).
  destruct (fork_failure_run i σ4 (with_runtime s (pid s) false) cmd r rest)
    as (σ' & Hrun' & Hs' & _ & _ & Ht'); [| done | congruence | done |].
  { rewrite Hs4. apply list_lookup_insert_eq. by eapply lookup_lt_Some. }
  exists σ'. rewrite Hrun. split; [done|].
  split; [by rewrite Hs', Hs4|]. split.
  - intros q j s' Hq ->.
    apply find_running_Some in Hq as (_ & Hl & Hrun0 & _).
    rewrite Nat.sub_0_r, Hs', Hs4 in Hl.
    rewrite list_lookup_insert_eq in Hl by (by eapply lookup_lt_Some).
    injection Hl as <-. done.
  - apply new_events_app. rewrite Hrun'. cbn [final_state].
    rewrite Ht', Ht4. by rewrite <- !app_assoc.
Qed.

Lemma handle_reaped_fork_fails_witness :
  exists σ',
    handle_reaped 7 256 fork_fails = Ok tt σ'
    /\ services σ' =
       <[0%nat := with_runtime (svc "web" R_ON_FAILURE 7 true) 7 false]>
         (services fork_fails)
    /\ (forall q j s', find_running q 0 (services σ') = Some (j, s') -> j ≠ 0%nat)
    /\ new_events fork_fails (handle_reaped 7 256 fork_fails) =
       [EvCall (Call_handle_reaped 7 256);
        EvPrintf (Msg_exited (lit "web") 7 256); EvSleep 1;
        EvCall (Call_start 0); EvFork (-1); EvPerror (lit "fork")].
Proof.
  apply (handle_reaped_fork_fails 7 256 fork_fails 0 (svc "web" R_ON_FAILURE 7 true)
           (lit "/bin/true") (-1) []); reflexivity.
Defined.

(** ** The console *)

Lemma sys_open_run path σ :
  sys_open path σ = Ok (open_fd σ path) (log (EvOpen path (open_fd σ path)) σ).
Proof. reflexivity. Qed.

Lemma attach_and_login_run {B} fd σ (k : unit -> M B) :
  exists σ',
    (attach_and_login fd ≫= k) σ = Halt (console_end σ) σ'
    /\ services σ' = services σ
    /\ trace σ' = trace σ ++ login_events σ fd.
Proof.
  unfold attach_and_login, login_events, console_end, sys_execl, sys_exit,
    when, emit, modify, get, ret, mbind, M_bind, mret, M_ret.
  destruct (0 <=? fd) eqn:H1; try destruct (2 <? fd) eqn:H2;
    destruct (exec_ok σ (lit "/bin/login")) eqn:H3;
    try destruct (exec_ok σ (lit "/bin/sh")) eqn:H4;
    eexists;
    repeat (cbn -[lit Z.leb Z.ltb]; rewrite ?H1, ?H2, ?H3, ?H4);
    (split; [reflexivity|]); (split; [reflexivity|]);
    cbn -[lit]; rewrite <- ?app_assoc; reflexivity.
Qed.

Lemma console_end_is σ : is_console_end (console_end σ).
Proof.
  unfold console_end, is_console_end.
  destruct (exec_ok σ (lit "/bin/login")); [by left|].
  destruct (exec_ok σ (lit "/bin/sh")); [right; by left | right; by right].
Qed.

Lemma getty_child_halts {B} σ (k : unit -> M B) :
  exists σ', (getty_child ≫= k) σ = Halt (console_end σ) σ'.
Proof.
  unfold getty_child.
  destruct (attach_and_login_run (open_fd σ (lit "/dev/tty1"))
              (log (EvOpen (lit "/dev/tty1") (open_fd σ (lit "/dev/tty1"))) σ) k)
    as (σ' & Hrun & _).
  exists σ'. rewrite bind_run, bind_run, sys_open_run. cbn beta iota.
  rewrite bind_run in Hrun. exact Hrun.
Qed.

(** X23. The child that the getty loop forks never comes back into the
    loop: it opens the first terminal, binds standard input, output and
    error to it when that worked, and ends as /bin/login, or else as a
    login shell, or else with exit status 127. *)
Theorem getty_child_never_returns {B} σ (k : unit -> M B) :
  exists σ',
    (getty_child ≫= k) σ = Halt (console_end σ) σ'
    /\ services σ' = services σ
    /\ trace σ' = trace σ
       ++ EvOpen (lit "/dev/tty1") (open_fd σ (lit "/dev/tty1"))
       :: login_events σ (open_fd σ (lit "/dev/tty1")).
Proof.
  unfold getty_child.
  destruct (attach_and_login_run (open_fd σ (lit "/dev/tty1"))
              (log (EvOpen (lit "/dev/tty1") (open_fd σ (lit "/dev/tty1"))) σ) k)
    as (σ' & Hrun & Hs & Ht).
  exists σ'. split; [|split; [exact Hs|]].
  - rewrite bind_run, bind_run, sys_open_run. cbn beta iota.
    rewrite bind_run in Hrun. exact Hrun.
  - rewrite Ht. cbn. by rewrite <- app_assoc.
Qed.

(** X24. [spawn_getty_or_shell], in the child: when the first terminal
    cannot be opened the console is tried instead, and the descriptor
    that results is the one the login program gets; the child ends as
    /bin/login, a login shell, or with status 127, and never returns to
    the caller. *)
Theorem spawn_getty_child {B} σ rest (k : unit -> M B) :
  forks σ = 0 :: rest ->
  let fd1 := open_fd σ (lit "/dev/tty1") in
  let fd := if fd1 <? 0 then open_fd σ (lit "/dev/console") else fd1 in
  exists σ',
    (spawn_getty_or_shell ≫= k) σ = Halt (console_end σ) σ'
    /\ services σ' = services σ
    /\ trace σ' = trace σ
       ++ EvFork 0 :: EvOpen (lit "/dev/tty1") fd1
       :: (if fd1 <? 0 then [EvOpen (lit "/dev/console") fd] else [])
       ++ login_events σ fd.
Proof.
  intros Hf fd1 fd. unfold spawn_getty_or_shell.
  rewrite bind_run, bind_run. unfold sys_fork. rewrite Hf. cbn beta iota zeta.
  cbn [Z.ltb Z.eqb Z.compare].
  set (σ0 := log (EvFork 0) (set_children [] [] (set_forks rest σ))).
  rewrite bind_run, sys_open_run. cbn beta iota.
  change (open_fd σ0 (lit "/dev/tty1")) with fd1.
  destruct (fd1 <? 0) eqn:Hneg.
  - rewrite bind_run, sys_open_run. cbn beta iota.
    match goal with |- context [attach_and_login ?x ?st] =>
      destruct (attach_and_login_run x st k) as (σ' & Hrun & Hs & Ht) end.
    rewrite bind_run in Hrun. exists σ'. split; [exact Hrun|].
    split; [exact Hs|]. rewrite Ht. subst σ0 fd. cbn.
    by rewrite <- !app_assoc.
  - rewrite bind_run, ret_run. cbn beta iota.
    match goal with |- context [attach_and_login ?x ?st] =>
      destruct (attach_and_login_run x st k) as (σ' & Hrun & Hs & Ht) end.
    rewrite bind_run in Hrun. exists σ'. split; [exact Hrun|].
    split; [exact Hs|]. rewrite Ht. subst σ0 fd. cbn.
    by rewrite <- !app_assoc.
Qed.

Lemma spawn_getty_child_witness :
  let fd1 := open_fd no_login (lit "/dev/tty1") in
  let fd := if fd1 <? 0 then open_fd no_login (lit "/dev/console") else fd1 in
  exists σ',
    (spawn_getty_or_shell ≫= fun _ => main_shutdown) no_login =
      Halt (console_end no_login) σ'
    /\ services σ' = services no_login
    /\ trace σ' = trace no_login
       ++ EvFork 0 :: EvOpen (lit "/dev/tty1") fd1
       :: (if fd1 <? 0 then [EvOpen (lit "/dev/console") fd] else [])
       ++ login_events no_login fd.
Proof. apply (spawn_getty_child no_login [0]). reflexivity. Defined.

(** Scenario: no /bin/login, no first terminal. The child binds the
    console and becomes a login shell. *)
Example spawn_getty_on_console :
  (spawn_getty_or_shell no_login) =
  Halt (Execed (lit "/bin/sh") [lit "sh"; lit "-l"])
       (final_state (spawn_getty_or_shell no_login))
  /\ new_events no_login (spawn_getty_or_shell no_login) =
     [EvFork 0; EvOpen (lit "/dev/tty1") (-1); EvOpen (lit "/dev/console") 5;
      EvDup2 5 0; EvDup2 5 1; EvDup2 5 2; EvClose 5;
      EvExecl (lit "/bin/login") [lit "login"] false;
      EvExecl (lit "/bin/sh") [lit "sh"; lit "-l"] true].
Proof. vm_compute. split; reflexivity. Qed.

(** X25. In the supervisor, forking the getty process is one call of
    [fork] and nothing else: the table is untouched, a child is added
    when the call succeeded, and a failure is neither reported nor
    retried (the supervisor goes on without a console). *)
Theorem main_spawn_getty_parent fuel σ r rest :
  forks σ = r :: rest -> r ≠ 0 ->
  exists σ',
    main_spawn_getty fuel σ = Ok tt σ'
    /\ services σ' = services σ
    /\ alive σ' = (if 0 <? r then alive σ ++ [r] else alive σ)
    /\ new_events σ (main_spawn_getty fuel σ) = [EvFork r].
Proof.
  intros Hf Hr. unfold main_spawn_getty. rewrite bind_run.
  unfold sys_fork. rewrite Hf. cbn beta iota zeta.
  assert ((r =? 0) = false) as -> by lia. rewrite ret_run.
  eexists. split; [reflexivity|].
  destruct (0 <? r); (split; [reflexivity|]); (split; [reflexivity|]);
    by apply new_events_app.
Qed.

Lemma main_spawn_getty_parent_witness :
  exists σ',
    main_spawn_getty 3 fork_fails = Ok tt σ'
    /\ services σ' = services fork_fails
    /\ alive σ' = (if 0 <? -1 then alive fork_fails ++ [-1] else alive fork_fails)
    /\ new_events fork_fails (main_spawn_getty 3 fork_fails) = [EvFork (-1)].
Proof.
  apply (main_spawn_getty_parent 3 fork_fails (-1) []); [reflexivity | lia].
Defined.

Lemma wait_child_no_halt fuel p σ h σ' : wait_child fuel p σ ≠ Halt h σ'.
Proof.
  revert σ. induction fuel as [|k IH]; intros σ; simpl; [done|].
  destruct ((waitpid_nohang p σ).1.1 =? 0); [apply IH | done].
Qed.

Lemma never_returns_bind {A B} (m : M A) (k : A -> M B) σ :
  (forall h σ', m σ ≠ Halt h σ') ->
  (forall a σ', m σ = Ok a σ' -> never_returns (k a σ')) ->
  never_returns ((m ≫= k) σ).
Proof.
  intros Hh Hk. rewrite bind_run. destruct (m σ) as [a σ'|h σ'|σ'] eqn:E.
  - by apply Hk.
  - by destruct (Hh h σ').
  - done.
Qed.

Lemma getty_loop_never_returns fuel σ : never_returns (getty_loop fuel σ).
Proof.
  revert σ. induction fuel as [|k IH]; intros σ; [done|].
  cbn [getty_loop]. apply never_returns_bind.
  { intros h σ'. unfold sys_fork. destruct (forks σ); done. }
  intros p σ1 _. destruct (p =? 0).
  - destruct (getty_child_halts σ1
                (fun _ => sys_wait p;; sys_sleep 1;; getty_loop k))
      as (σ' & Hrun).
    rewrite Hrun. apply console_end_is.
  - rewrite bind_run, ret_run. cbn beta iota.
    apply never_returns_bind.
    { intros h σ'. unfold sys_wait. rewrite bind_run, get_run.
      apply wait_child_no_halt. }
    intros w σ2 _. rewrite bind_run, sys_sleep_run. cbn beta iota. apply IH.
Qed.

(** X26. The getty process never returns into the supervisor's code
    and never exits by itself: for a run of any length that is inside
    it, or inside a child it forked, the run either is still going (or
    blocked in [waitpid]) or has ended in a console child as /bin/login,
    a login shell, or exit status 127. In particular the [_exit(0)]
    after the loop is never reached. *)
Theorem getty_process_never_returns {B} fuel σ rest (k : unit -> M B) :
  forks σ = 0 :: rest ->
  never_returns ((main_spawn_getty fuel ≫= k) σ).
Proof.
  intros Hf. rewrite bind_run. unfold main_spawn_getty. rewrite bind_run.
  unfold sys_fork. rewrite Hf. cbn beta iota zeta. cbn [Z.ltb Z.eqb Z.compare].
  set (σ0 := log (EvFork 0) (set_children [] [] (set_forks rest σ))).
  pose proof (getty_loop_never_returns fuel σ0) as H.
  rewrite bind_run. destruct (getty_loop fuel σ0); done.
Qed.

Lemma getty_process_never_returns_witness :
  never_returns ((main_spawn_getty 5 ≫= fun _ => main_supervise 5) getty_side).
Proof. apply (getty_process_never_returns 5 getty_side [21; 0]). reflexivity. Defined.

(** The getty process of [getty_side], followed for five rounds: it
    forks a login (pid 21), waits until that one has terminated, sleeps
    a second, forks again, and the run ends in the second child. *)
Example getty_respawns :
  new_events getty_side (main_spawn_getty 5 getty_side) =
    [EvFork 0; EvFork 21; EvWaitpid 21 21; EvSleep 1; EvFork 0;
     EvOpen (lit "/dev/tty1") 4; EvDup2 4 0; EvDup2 4 1; EvDup2 4 2; EvClose 4;
     EvExecl (lit "/bin/login") [lit "login"] true].
Proof. vm_compute. reflexivity. Qed.

(** ** What never changes at run time *)

Lemma same_static_refl σ : same_static σ σ.
Proof. done. Qed.

Lemma same_static_trans σ1 σ2 σ3 :
  same_static σ1 σ2 -> same_static σ2 σ3 -> same_static σ1 σ3.
Proof. unfold same_static. congruence. Qed.

Lemma same_static_services σ σ' : services σ' = services σ -> same_static σ σ'.
Proof. unfold same_static. by intros ->. Qed.

Lemma static_insert (l : list service) i s p r :
  l !! i = Some s -> static <$> <[i := with_runtime s p r]> l = static <$> l.
Proof.
  intros E. rewrite list_fmap_insert. apply list_insert_id.
  by rewrite list_lookup_fmap, E.
Qed.

Lemma same_static_insert σ σ' i s p r :
  services σ !! i = Some s ->
  services σ' = <[i := with_runtime s p r]> (services σ) ->
  same_static σ σ'.
Proof. intros E Hs. unfold same_static. rewrite Hs. by apply static_insert. Qed.

Lemma keeps_services_static {A} (m : M A) : keeps_services m -> keeps_static m.
Proof. intros H σ. apply same_static_services, H. Qed.

Lemma keeps_static_bind {A B} (m : M A) (k : A -> M B) :
  keeps_static m -> (forall a, keeps_static (k a)) -> keeps_static (m ≫= k).
Proof.
  intros Hm Hk σ. rewrite bind_run. specialize (Hm σ).
  destruct (m σ) as [a σ'|h σ'|σ']; simpl in *; try done.
  eapply same_static_trans; [exact Hm | apply Hk].
Qed.

Lemma keeps_services_bind {A B} (m : M A) (k : A -> M B) :
  keeps_services m -> (forall a, keeps_services (k a)) -> keeps_services (m ≫= k).
Proof.
  intros Hm Hk σ. rewrite bind_run. specialize (Hm σ).
  destruct (m σ) as [a σ'|h σ'|σ']; simpl in *; try done.
  by rewrite Hk.
Qed.

Lemma keeps_services_ret {A} (a : A) : keeps_services (ret a).
Proof. done. Qed.

Lemma keeps_services_emit e : keeps_services (emit e).
Proof. done. Qed.

Lemma keeps_services_get : keeps_services get.
Proof. done. Qed.

Lemma keeps_services_when b (m : M unit) :
  keeps_services m -> keeps_services (when b m).
Proof. by destruct b. Qed.

Lemma keeps_services_kill t sg : keeps_services (sys_kill t sg).
Proof. done. Qed.

Lemma keeps_services_sleep u : keeps_services (sys_sleep u).
Proof.
  intros σ. rewrite sys_sleep_run. simpl.
  by destruct (blocked_frame (log (EvSleep u) σ)) as ((-> & _) & _).
Qed.

Lemma keeps_services_usleep u : keeps_services (sys_usleep u).
Proof.
  intros σ. rewrite sys_usleep_run. simpl.
  by destruct (blocked_frame (log (EvUsleep u) σ)) as ((-> & _) & _).
Qed.

Lemma keeps_services_waitpid p : keeps_services (sys_waitpid p).
Proof.
  intros σ. rewrite sys_waitpid_run. simpl.
  by destruct (waitpid_nohang_frame p σ) as ((-> & _) & _).
Qed.

Lemma keeps_services_fork : keeps_services sys_fork.
Proof.
  intros σ. unfold sys_fork. destruct (forks σ) as [|r rest]; [done|].
  cbn zeta. destruct (0 <? r); [done|]. by destruct (r =? 0).
Qed.

Lemma keeps_services_open path : keeps_services (sys_open path).
Proof. done. Qed.

Lemma keeps_services_execl path argv : keeps_services (sys_execl path argv).
Proof. intros σ. unfold sys_execl. by destruct (exec_ok σ path). Qed.

Lemma keeps_services_exit {A} st : keeps_services (@sys_exit A st).
Proof. done. Qed.

Lemma keeps_services_access path : keeps_services (sys_access path).
Proof. done. Qed.

Lemma keeps_services_wait_child fuel p : keeps_services (wait_child fuel p).
Proof.
  induction fuel as [|k IH]; intros σ; simpl; [done|].
  destruct ((waitpid_nohang p σ).1.1 =? 0).
  - rewrite IH. by destruct (blocked_frame σ) as ((-> & _) & _).
  - simpl. by destruct (waitpid_nohang_frame p σ) as ((-> & _) & _).
Qed.

Lemma keeps_services_wait p : keeps_services (sys_wait p).
Proof.
  apply keeps_services_bind; [apply keeps_services_get|].
  intros σ. apply keeps_services_wait_child.
Qed.

Create HintDb keeps.

#[local] Hint Resolve keeps_services_bind keeps_services_ret keeps_services_emit
  keeps_services_get keeps_services_when keeps_services_kill
  keeps_services_sleep keeps_services_usleep keeps_services_waitpid
  keeps_services_fork keeps_services_open keeps_services_execl
  keeps_services_exit keeps_services_access keeps_services_wait : keeps.

Lemma keeps_services_attach fd : keeps_services (attach_and_login fd).
Proof. unfold attach_and_login. auto 20 with keeps. Qed.

Lemma keeps_services_getty_child : keeps_services getty_child.
Proof.
  unfold getty_child. apply keeps_services_bind; [auto with keeps|].
  intros fd. apply keeps_services_attach.
Qed.

Lemma keeps_services_getty_loop fuel : keeps_services (getty_loop fuel).
Proof.
  induction fuel as [|k IH]; [done|]. cbn [getty_loop].
  apply keeps_services_bind; [auto with keeps|]. intros p.
  apply keeps_services_bind.
  { destruct (p =? 0); [apply keeps_services_getty_child | auto with keeps]. }
  intros _. auto 10 with keeps.
Qed.

Lemma keeps_services_spawn_getty fuel : keeps_services (main_spawn_getty fuel).
Proof.
  unfold main_spawn_getty. apply keeps_services_bind; [auto with keeps|].
  intros r. destruct (r =? 0); [|auto with keeps].
  apply keeps_services_bind; [apply keeps_services_getty_loop | auto with keeps].
Qed.

Lemma keeps_static_start i : keeps_static (start_service i).
Proof.
  intros σ.
  destruct (services σ !! i) as [s|] eqn:E; cycle 1.
  { rewrite start_service_no_command_run; [done|]. intros s. by rewrite E. }
  destruct (execcmd s) as [cmd|] eqn:Hcmd; cycle 1.
  { rewrite start_service_no_command_run; [done|].
    intros s'. rewrite E. by intros [= <-]. }
  rewrite (start_service_at i σ s cmd E Hcmd), bind_run.
  pose proof (keeps_services_fork (log (EvCall (Call_start i)) σ)) as Hfk.
  destruct (sys_fork (log (EvCall (Call_start i)) σ)) as [r σ1|h σ1|σ1];
    simpl in Hfk; [|by apply same_static_services..].
  destruct (r <? 0); [by apply same_static_services|].
  destruct (r =? 0).
  - apply same_static_services. rewrite <- Hfk.
    match goal with |- services (final_state (?m σ1)) = _ =>
      assert (keeps_services m) as Hk by auto 30 with keeps; apply Hk end.
  - rewrite bind_run, set_entry_run. cbn beta iota. rewrite emit_run. simpl.
    eapply (same_static_insert σ _ i s); [done|]. simpl. by rewrite Hfk.
Qed.

Lemma keeps_static_stop i : keeps_static (stop_service i).
Proof.
  intros σ. destruct (stop_service_run i σ) as (σ' & evs & Hrun & _ & _ & Hs & _).
  rewrite Hrun. simpl. unfold same_static. rewrite Hs.
  apply list_eq. intros j. rewrite !list_lookup_fmap, list_lookup_alter.
  destruct (decide (i = j)) as [<-|]; [|done].
  by destruct (services σ !! i).
Qed.

Lemma keeps_static_handle_reaped p status : keeps_static (handle_reaped p status).
Proof.
  intros σ. destruct (find_running p 0 (services σ)) as [[i s]|] eqn:Hfind.
  - pose proof (find_running_Some _ _ _ _ _ Hfind) as (_ & E & _ & _).
    rewrite Nat.sub_0_r in E.
    rewrite (handle_reaped_at p status σ i s Hfind).
    set (σ3 := log _ _).
    assert (same_static σ σ3) as H3.
    { eapply (same_static_insert σ σ3 i s); [done | reflexivity]. }
    destruct (wants_restart (restart s) (exitcode_of status)); cbn [when]; [|done].
    eapply same_static_trans; [exact H3|].
    apply (keeps_static_bind (sys_sleep 1) (fun _ => start_service i)).
    + apply keeps_services_static. auto with keeps.
    + intros _. apply keeps_static_start.
  - unfold handle_reaped.
    rewrite bind_run, emit_run. cbn beta iota. rewrite bind_run, get_run.
    cbn beta iota.
    change (services (log (EvCall (Call_handle_reaped p status)) σ))
      with (services σ).
    by rewrite Hfind.
Qed.

Lemma keeps_static_reap_loop fuel : keeps_static (reap_loop fuel).
Proof.
  induction fuel as [|k IH]; [done|]. cbn [reap_loop].
  apply keeps_static_bind.
  { apply keeps_services_static. auto with keeps. }
  intros w. destruct (0 <? w.1); [|done].
  apply keeps_static_bind; [apply keeps_static_handle_reaped | done].
Qed.

Lemma keeps_static_supervise_once : keeps_static supervise_once.
Proof.
  unfold supervise_once. apply keeps_static_bind.
  - unfold reap_pass. apply keeps_static_bind; [done|].
    intros σ0. destruct (need_reap σ0); [|done]. cbn [when].
    apply keeps_static_bind; [done|]. intros _.
    unfold drain. apply keeps_static_bind; [done|].
    intros σ1. apply keeps_static_reap_loop.
  - intros _. apply keeps_services_static. auto with keeps.
Qed.

Lemma keeps_static_supervise fuel : keeps_static (supervise fuel).
Proof.
  induction fuel as [|k IH]; [done|]. cbn [supervise].
  apply keeps_static_bind; [done|]. intros σ0.
  destruct (terminate σ0); [done|].
  apply keeps_static_bind; [apply keeps_static_supervise_once | done].
Qed.

Lemma keeps_static_for_range (body : nat -> M unit) count i :
  (forall j, keeps_static (body j)) -> keeps_static (for_range i count body).
Proof.
  intros Hb. revert i. induction count as [|k IH]; intros i; [done|].
  cbn [for_range]. apply keeps_static_bind; [apply Hb | intros _; apply IH].
Qed.

Lemma keeps_static_shutdown : keeps_static main_shutdown.
Proof.
  unfold main_shutdown. apply keeps_static_bind; [done|]. intros _.
  apply keeps_static_bind; [done|]. intros σ0.
  apply keeps_static_bind.
  { apply keeps_static_for_range. apply keeps_static_stop. }
  intros _. apply keeps_services_static. auto 20 with keeps.
Qed.

(** X27. From the moment the table is loaded, whatever the children,
    the signals and the [fork] oracle do, and however the run ends
    (shutdown, a child's [exec] or exit, or still running): the table
    has the same number of entries, and every entry has the name,
    command, restart policy and log path it was loaded with. Only [pid]
    and [running] ever change. *)
Theorem runtime_keeps_static getty_fuel fuel σ :
  let σ' := final_state (main_after_load getty_fuel fuel σ) in
  nservices σ' = nservices σ
  /\ forall j s, services σ !! j = Some s ->
       exists s', services σ' !! j = Some s'
                  /\ name s' = name s /\ execcmd s' = execcmd s
                  /\ restart s' = restart s /\ logfile s' = logfile s.
Proof.
  assert (keeps_static (main_after_load getty_fuel fuel)) as H.
  { unfold main_after_load. apply keeps_static_bind.
    { unfold main_start_services. apply keeps_static_bind; [done|].
      intros σ0. apply keeps_static_for_range. apply keeps_static_start. }
    intros _. apply keeps_static_bind.
    { apply keeps_services_static, keeps_services_spawn_getty. }
    intros _. unfold main_supervise.
    apply keeps_static_bind; [apply keeps_static_supervise|].
    intros _. apply keeps_static_shutdown. }
  specialize (H σ). intros σ'. fold σ' in H. unfold same_static in H. split.
  - unfold nservices. apply (f_equal length) in H. by rewrite !length_fmap in H.
  - intros j s E. apply (f_equal (fun l => l !! j)) in H.
    rewrite !list_lookup_fmap, E in H. simpl in H.
    destruct (services σ' !! j) as [s'|]; [|done].
    exists s'. split; [done|]. unfold static in H. by injection H as -> -> -> ->.
Qed.

(** ** The supervise loop *)

(** X28. The supervise loop is left in one way only: when it returns,
    [terminate] is set. *)
Theorem supervise_returns_on_terminate fuel σ σ' :
  supervise fuel σ = Ok tt σ' -> terminate σ' = true.
Proof.
  revert σ. induction fuel as [|k IH]; intros σ; [done|].
  cbn [supervise]. rewrite bind_run, get_run. cbn beta iota.
  destruct (terminate σ) eqn:Hterm.
  - rewrite ret_run. by intros [= <-].
  - rewrite bind_run. destruct (supervise_once σ) as [[] σ1|h σ1|σ1]; [|done..].
    apply IH.
Qed.

Lemma supervise_returns_on_terminate_witness :
  terminate (final_state (supervise 4 term_in_third)) = true.
Proof.
  apply (supervise_returns_on_terminate 4 term_in_third).
  vm_compute. reflexivity.
Defined.

Lemma blocked_calm σ rest :
  sched σ = calm :: rest -> blocked σ = set_sched rest σ.
Proof. intros H. unfold blocked. by rewrite H. Qed.

Lemma blocked_term_request σ rest :
  sched σ = term_request :: rest ->
  blocked σ = sigterm_handler (set_sched rest σ).
Proof. intros H. unfold blocked. by rewrite H. Qed.

Lemma supervise_once_idle σ :
  need_reap σ = false ->
  supervise_once σ = Ok tt (blocked (log (EvSleep 1) σ)).
Proof.
  intros H. unfold supervise_once, reap_pass.
  rewrite !bind_run, get_run. cbn beta iota. rewrite H. cbn [when].
  by rewrite ret_run, sys_sleep_run.
Qed.

Lemma supervise_until_request k σ rest :
  terminate σ = false -> need_reap σ = false ->
  sched σ = replicate k calm ++ term_request :: rest ->
  exists σ',
    supervise (S (S k)) σ = Ok tt σ'
    /\ terminate σ' = true
    /\ services σ' = services σ
    /\ sched σ' = rest
    /\ trace σ' = trace σ ++ replicate (S k) (EvSleep 1).
Proof.
  revert σ. induction k as [|k IH]; intros σ Hterm Hreap Hsched.
  - simpl in Hsched. cbn [supervise].
    rewrite bind_run, get_run. cbn beta iota. rewrite Hterm.
    rewrite bind_run, (supervise_once_idle σ Hreap). cbn beta iota.
    rewrite (blocked_term_request (log (EvSleep 1) σ) rest Hsched).
    rewrite bind_run, get_run. cbn beta iota.
    cbn [terminate sigterm_handler set_terminate].
    rewrite ret_run. eexists. split; [reflexivity|].
    repeat (split; [reflexivity|]). reflexivity.
  - simpl in Hsched.
    change (supervise (S (S (S k)))) with
      (σ0 ← get; if terminate σ0 then ret tt
                 else supervise_once;; supervise (S (S k))).
    rewrite bind_run, get_run. cbn beta iota. rewrite Hterm.
    rewrite bind_run, (supervise_once_idle σ Hreap). cbn beta iota.
    rewrite (blocked_calm (log (EvSleep 1) σ) _ Hsched).
    set (σ1 := set_sched _ _).
    destruct (IH σ1) as (σ' & Hrun & Ht & Hs & Hsch & Htr); [done..|].
    exists σ'. split; [done|]. repeat (split; [done|]).
    rewrite Htr. subst σ1. cbn. by rewrite <- app_assoc.
Qed.

(** X29. A termination request ends the loop at its next test: with no
    child terminating meanwhile, a SIGTERM or SIGINT that arrives during
    the [k+1]-th sleep makes the loop return right after that sleep,
    having done nothing but sleep [k+1] times. *)
Theorem supervise_ends_on_request k σ rest :
  terminate σ = false -> need_reap σ = false ->
  sched σ = replicate k calm ++ term_request :: rest ->
  exists σ',
    supervise (S (S k)) σ = Ok tt σ'
    /\ terminate σ' = true
    /\ services σ' = services σ
    /\ sched σ' = rest
    /\ new_events σ (supervise (S (S k)) σ) = replicate (S k) (EvSleep 1).
Proof.
  intros Hterm Hreap Hsched.
  destruct (supervise_until_request k σ rest Hterm Hreap Hsched)
    as (σ' & Hrun & Ht & Hs & Hsch & Htr).
  exists σ'. repeat (split; [done|]).
  apply new_events_app. by rewrite Hrun.
Qed.

Lemma supervise_ends_on_request_witness :
  exists σ',
    supervise 4 term_in_third = Ok tt σ'
    /\ terminate σ' = true
    /\ services σ' = services term_in_third
    /\ sched σ' = [calm]
    /\ new_events term_in_third (supervise 4 term_in_third) =
       replicate 3 (EvSleep 1).
Proof.
  apply (supervise_ends_on_request 2 term_in_third [calm]); reflexivity.
Defined.

(** ** After the shutdown *)

Lemma for_range_stop_services count i σ :
  exists σ',
    for_range i count stop_service σ = Ok tt σ'
    /\ forall j,
         services σ' !! j =
         if bool_decide (i ≤ j < i + count)%nat
         then mark_stopped <$> services σ !! j
         else services σ !! j.
Proof.
  revert i σ. induction count as [|k IH]; intros i σ; cbn [for_range].
  - exists σ. rewrite ret_run. split; [done|]. intros j.
    rewrite bool_decide_eq_false_2; [done | lia].
  - destruct (stop_service_run i σ) as (σ1 & evs & Hrun & _ & _ & Hs & _).
    destruct (IH (S i) σ1) as (σ2 & Hrun2 & Hl).
    exists σ2. rewrite bind_run, Hrun. split; [done|].
    intros j. rewrite Hl, Hs.
    destruct (decide (j = i)) as [->|Hne].
    + rewrite bool_decide_eq_false_2 by lia.
      rewrite bool_decide_eq_true_2 by lia. apply list_lookup_alter_eq.
    + rewrite list_lookup_alter_ne by done.
      destruct (decide (S i ≤ j < S i + k)%nat).
      * rewrite !bool_decide_eq_true_2 by lia. done.
      * rewrite !bool_decide_eq_false_2 by lia. done.
Qed.

(** X30. When the shutdown sequence is over, whether [main] returns or
    the power-off helper takes the process over, no entry of the table
    is marked running any more; every entry is otherwise as it was,
    its pid included. *)
Theorem shutdown_stops_all σ :
  let σ' := final_state (main_shutdown σ) in
  services σ' = mark_stopped <$> services σ
  /\ Forall (fun s => running s = false) (services σ').
Proof.
  assert (services (final_state (main_shutdown σ)) = mark_stopped <$> services σ) as H.
  { unfold main_shutdown.
    rewrite bind_run, emit_run. cbn beta iota. rewrite bind_run, get_run.
    cbn beta iota. unfold nservices.
    change (services (log (EvPrintf Msg_shutting_down) σ)) with (services σ).
    destruct (for_range_stop_services (length (services σ)) 0
                (log (EvPrintf Msg_shutting_down) σ)) as (σ1 & Hrun & Hl).
    rewrite bind_run, Hrun. cbn beta iota.
    match goal with |- services (final_state (?m σ1)) = _ =>
      assert (keeps_services m) as Hk by auto 20 with keeps; rewrite Hk end.
    apply list_eq. intros j. rewrite Hl, list_lookup_fmap. cbn.
    case_bool_decide as Hj; [done|].
    rewrite lookup_ge_None_2; [done | lia]. }
  intros σ'. subst σ'. rewrite H. split; [done|].
  apply Forall_fmap, Forall_true. done.
Qed.

(** ** Starting the services *)

Lemma start_service_parent_step i σ s :
  parent_view σ -> services σ !! i = Some s ->
  exists σ' r,
    start_service i σ = Ok tt σ'
    /\ r ≠ 0
    /\ trace σ' = trace σ ++ start_block i s r
    /\ services σ' = <[i := after_start s r]> (services σ)
    /\ parent_view σ'.
Proof.
  intros Hpv E.
  destruct (start_service_parent i σ Hpv) as (σ0 & evs0 & Hrun0 & _ & _ & Hk).
  assert (parent_view σ0) as Hpv0 by (destruct Hk as (_ & _ & _ & H & _); auto).
  unfold start_block, after_start.
  destruct (execcmd s) as [cmd|] eqn:Hcmd; cycle 1.
  { exists σ0, (-1). split; [done|]. split; [done|].
    rewrite start_service_no_command_run in Hrun0
      by (intros s'; rewrite E; by intros [= <-]).
    injection Hrun0 as <-. split; [done|]. split; [|done].
    cbn. by rewrite list_insert_id. }
  destruct (forks σ) as [|r rest] eqn:Hf.
  { exists σ0, (-1). split; [done|]. split; [done|].
    rewrite (start_service_at i σ s cmd E Hcmd) in Hrun0.
    rewrite bind_run in Hrun0. unfold sys_fork in Hrun0.
    change (forks (log (EvCall (Call_start i)) σ)) with (forks σ) in Hrun0.
    rewrite Hf in Hrun0. cbn beta iota zeta in Hrun0.
    change (-1 <? 0) with true in Hrun0. cbn beta iota in Hrun0.
    rewrite emit_run in Hrun0. injection Hrun0 as <-.
    split; [cbn; by rewrite <- !app_assoc|]. split; [|done].
    cbn. by rewrite list_insert_id. }
  assert (r ≠ 0) as Hr by (unfold parent_view in Hpv; rewrite Hf in Hpv;
                           by apply Forall_cons_1 in Hpv as [? _]).
  exists σ0, r. split; [done|]. split; [done|].
  destruct (Z.ltb_spec r 0) as [Hneg|Hpos].
  - destruct (fork_failure_run i σ s cmd r rest E Hcmd Hf Hneg)
      as (σ' & Hrun & Hs & _ & _ & Ht).
    rewrite Hrun in Hrun0. injection Hrun0 as <-.
    assert ((0 <? r) = false) as -> by lia.
    split; [done|]. split; [|done]. rewrite Hs. by rewrite list_insert_id.
  - assert (0 < r) as Hpos' by lia.
    destruct (start_service_parent_run i σ s cmd r rest E Hcmd Hf Hpos')
      as (σ' & Hrun & Hs & _ & _ & Ht).
    rewrite Hrun in Hrun0. injection Hrun0 as <-.
    assert ((0 <? r) = true) as -> by lia. by repeat split.
Qed.

Lemma for_range_start count i σ :
  parent_view σ -> (i + count ≤ length (services σ))%nat ->
  exists σ' blocks,
    for_range i count start_service σ = Ok tt σ'
    /\ trace σ' = trace σ ++ concat blocks
    /\ length blocks = count
    /\ length (services σ') = length (services σ)
    /\ (forall j, (j < i)%nat \/ (i + count ≤ j)%nat ->
          services σ' !! j = services σ !! j)
    /\ (forall k s, services σ !! (i + k)%nat = Some s -> (k < count)%nat ->
          exists r, r ≠ 0
            /\ blocks !! k = Some (start_block (i + k) s r)
            /\ services σ' !! (i + k)%nat = Some (after_start s r)).
Proof.
  revert i σ. induction count as [|n IH]; intros i σ Hpv Hlen; cbn [for_range].
  - exists σ, []. rewrite ret_run. simpl. rewrite app_nil_r.
    repeat split; try done. intros k s _ Hk. lia.
  - destruct (lookup_lt_is_Some_2 (services σ) i) as [s E]; [lia|].
    destruct (start_service_parent_step i σ s Hpv E)
      as (σ1 & r & Hrun & Hr & Ht & Hs & Hpv1).
    assert (length (services σ1) = length (services σ)) as Hlen1
      by (by rewrite Hs, length_insert).
    destruct (IH (S i) σ1 Hpv1 ltac:(lia))
      as (σ2 & blocks & Hrun2 & Ht2 & Hb & Hlen2 & Hout & Hin).
    exists σ2, (start_block i s r :: blocks).
    rewrite bind_run, Hrun. split; [done|].
    split; [rewrite Ht2, Ht; simpl; by rewrite <- app_assoc|].
    split; [simpl; lia|]. split; [lia|]. split.
    + intros j Hj. rewrite Hout by lia. rewrite Hs.
      apply list_lookup_insert_ne. lia.
    + intros [|k] s' E' Hk.
      * rewrite Nat.add_0_r in E' |- *. rewrite E in E'. injection E' as <-.
        exists r. split; [done|]. split; [done|].
        rewrite Hout by lia. rewrite Hs.
        apply list_lookup_insert_eq. by eapply lookup_lt_Some.
      * rewrite Nat.add_succ_r in E' |- *.
        destruct (Hin k s') as (r' & Hr' & Hb' & Hs'); [|lia|].
        { simpl. rewrite Hs, list_lookup_insert_ne by lia. exact E'. }
        exists r'. by repeat split.
Qed.

(** X14. At start-up [start_service] is entered once for every entry
    of the table, in table order, and nothing else happens: the trace
    is one block per entry, and block [j] is the entry into
    [start_service] for index [j], followed, when the entry has a
    command, by exactly one [fork] and then the start line or, when the
    [fork] failed, the report of that. An entry whose [fork] succeeded
    ends up marked running under the pid that [fork] returned; every
    other entry is as it was. The supervisor gets through the whole
    table even when forks fail. *)
Theorem main_starts_all σ :
  parent_view σ ->
  exists σ' blocks,
    main_start_services σ = Ok tt σ'
    /\ new_events σ (main_start_services σ) = concat blocks
    /\ length blocks = nservices σ
    /\ nservices σ' = nservices σ
    /\ forall j s, services σ !! j = Some s ->
         exists r, r ≠ 0
           /\ blocks !! j = Some (start_block j s r)
           /\ services σ' !! j = Some (after_start s r).
Proof.
  intros Hpv. unfold main_start_services. rewrite bind_run, get_run.
  cbn beta iota.
  destruct (for_range_start (nservices σ) 0 σ Hpv ltac:(unfold nservices; lia))
    as (σ' & blocks & Hrun & Ht & Hb & Hlen & _ & Hin).
  exists σ', blocks. rewrite Hrun.
  split; [done|]. split; [by apply new_events_app|].
  split; [done|]. split; [done|].
  intros j s E. apply (Hin j s E). by eapply lookup_lt_Some.
Qed.

Lemma main_starts_all_witness :
  exists σ' blocks,
    main_start_services at_boot = Ok tt σ'
    /\ new_events at_boot (main_start_services at_boot) = concat blocks
    /\ length blocks = nservices at_boot
    /\ nservices σ' = nservices at_boot
    /\ forall j s, services at_boot !! j = Some s ->
         exists r, r ≠ 0
           /\ blocks !! j = Some (start_block j s r)
           /\ services σ' !! j = Some (after_start s r).
Proof.
  apply (main_starts_all at_boot). by repeat constructor.
Defined.

(** The same start-up, evaluated: the first entry is started as pid 12,
    the [fork] for the second fails, and the loop has gone on to it
    all the same. *)
Example boot_trace :
  new_events at_boot (main_start_services at_boot) =
    [EvCall (Call_start 0); EvFork 12; EvPrintf (Msg_started (lit "web") 12);
     EvCall (Call_start 1); EvFork (-1); EvPerror (lit "fork")]
  /\ services (final_state (main_start_services at_boot)) =
     [svc "web" R_ALWAYS 12 true; svc "db" R_NO 0 false].
Proof. vm_compute. split; reflexivity. Qed.
